(** * Dataset synthesis for the SKA SDC2 pipeline: windows, draws, label volumes

    A shallow embedding of [utils/data.py] and [utils/segmentmap.py].

    Conventions.
    - numpy integers are unbounded [Z] here (int64 wrap-around is not modelled);
    - numpy floats are exact rationals [Q]: every finite float is a rational,
      and the operations used on them below (doubling, [max], rounding to an
      integer, truncation) are exact on floats; products and sums are taken
      exactly, so rounding error of float arithmetic is not modelled;
    - a Python exception is [None]. *)

From Stdlib Require Import ZArith QArith Qround Qabs Lia Lqa.
From stdpp Require Import gmap strings list fin_maps numbers.

Open Scope Z_scope.

(** ** numpy and Python primitives *)

Module Np.

(** [x.astype(np.int)] and Python's [int(x)]: truncation toward zero. *)
Definition trunc (q : Q) : Z := Z.quot (Qnum q) (Zpos (Qden q)).

(** [int(n / 2)] on a Python integer: true division, then truncation. *)
Definition int_half (n : Z) : Z := trunc (inject_Z n / 2)%Q.

(** [np.round]: to the nearest integer, ties to the even one. *)
Definition round (q : Q) : Z :=
  let f := Qfloor q in
  match (q - inject_Z f ?= 1 # 2)%Q with
  | Lt => f
  | Gt => f + 1
  | Eq => if Z.even f then f else f + 1
  end.

(** A two-dimensional float array of shape [(rows, cols)], stored row-major. *)
Record matrix := Matrix { rows : nat; cols : nat; cells : list Q }.

Definition at_ (m : matrix) (j i : nat) : Q :=
  nth (j * cols m + i) (cells m) 0%Q.

(** [m[:, i]] *)
Definition column (m : matrix) (i : nat) : list Q :=
  (fun j => at_ m j i) <$> seq 0 (rows m).

(** [m[j]] *)
Definition row (m : matrix) (j : nat) : list Q :=
  (fun i => at_ m j i) <$> seq 0 (cols m).

(** Index normalisation of [a[k]] on an axis of length [n]: a negative index
    counts from the end, and an index outside [-n, n) raises [IndexError]. *)
Definition index (n : Z) (k : Z) : option Z :=
  if bool_decide (0 <= k < n) then Some k
  else if bool_decide (- n <= k < 0) then Some (k + n)
  else None.

(** [slice(a, b).indices(n)]: the bounds of [x[a:b]] on an axis of length [n]. *)
Definition clip (n : Z) (k : Z) : Z :=
  if bool_decide (k < 0) then Z.max 0 (k + n) else Z.min k n.

Definition slice (n : Z) (a b : Z) : Z * Z := (clip n a, clip n b).

End Np.

(** ** utils/data.py: boundary clamp and window placement *)

(** A window is a row [[lower, upper]] of an [(n, 2)] integer array. *)
Abbreviation window := (Z * Z)%type (only parsing).

(** [np.where(a < m)[0]] on an [(n, 2)] array: the row index of every entry that
    passes the test, in row-major order (a row is listed once per passing entry). *)
Definition where_rows (test : Z → bool) (a : list window) : list nat :=
  mjoin (imap (fun j (w : window) =>
                  (if test w.1 then [j] else []) ++ (if test w.2 then [j] else [])) a).

(** The body of the two [if ... .shape[0] > 0] blocks of [inside_box]: every listed
    row is overwritten with a window of the length of row 0. *)
Definition shift_rows (hits : list nat) (place : Z → window) (a : list window) : list window :=
  match hits with
  | [] => a
  | _ :: _ =>
      match a !! 0%nat with
      | Some w0 =>
          let total_length := w0.2 - w0.1 in
          foldl (fun acc j => <[j := place total_length]> acc) a hits
      | None => a
      end
  end.

(** One iteration of the loop over axes of [inside_box]. *)
Definition inside_axis (a : list window) (min_value max_value : Z) : list window :=
  let less_min := where_rows (fun v => v <? min_value) a in
  let a := shift_rows less_min (fun len => (min_value, min_value + len)) a in
  let greater_max := where_rows (fun v => max_value <=? v) a in
  shift_rows greater_max (fun len => (max_value - len - 1, max_value - 1)) a.

(** [inside_box(points, min_values, max_values)]; [min_values[i]] and
    [max_values[i]] raise [IndexError] when the lists are shorter than [points]. *)
Definition inside_box (points : list (list window)) (min_values max_values : list Z)
  : option (list (list window)) :=
  mapM (fun '(i, a) =>
          mn ← min_values !! i;
          mx ← max_values !! i;
          Some (inside_axis a mn mx))
       (zip (seq 0 (length points)) points).

(** [random_center_box(rdn, total_length, center_point, precuation, min_values,
    max_values)]. *)
Definition random_center_box (rdn : Np.matrix) (total_length : Z) (center_point : list Z)
    (precuation : Z) (min_values max_values : list Z) : option (list (list window)) :=
  let radius := Np.int_half total_length - precuation in
  coord ← mapM (fun i =>
                  c ← center_point !! i;
                  Some ((fun r =>
                           let lo := Np.trunc (r * 2 * inject_Z radius + inject_Z c
                                               - inject_Z (Np.int_half total_length)
                                               - inject_Z radius)%Q in
                           (lo, lo + total_length)) <$> Np.column rdn i))
               (seq 0 (Np.cols rdn));
  inside_box coord min_values max_values.

(** [random_in_interval(rdn, interval, length)]; the float value is truncated when
    it is stored into the integer array [coord[i]]. *)
Definition random_in_interval (rdn : Np.matrix) (interval : list window) (length : Z)
  : option (list (list window)) :=
  mapM (fun i =>
          iv ← interval !! i;
          Some ((fun r =>
                   let lo := Np.trunc (r * inject_Z (Z.max (iv.2 - iv.1 - length) 0)
                                       + inject_Z iv.1 + inject_Z length / 2)%Q in
                   (lo, lo + length)) <$> Np.column rdn i))
       (seq 0 (Np.cols rdn)).

(** The length that both blocks of [inside_box] read from row 0. *)
Definition first_length (a : list window) : Z :=
  match a !! 0%nat with Some w0 => w0.2 - w0.1 | None => 0 end.

(** Where [inside_box] leaves a window of an axis whose windows all have the
    length [len]: below the minimum it is put at the minimum, at or above the
    maximum it is put just under it. *)
Definition moved (mn mx len : Z) (w : window) : window :=
  if w.1 <? mn then (mn, mn + len)
  else if mx <=? w.2 then (mx - len - 1, mx - 1)
  else w.

(** *** What the specification says of [inside_box] *)

Definition window_length (w : window) : Z := w.2 - w.1.

Definition within (mn mx : Z) (w : window) : Prop :=
  (mn <= w.1 < mx) ∧ (mn <= w.2 < mx).

(** Every output window has the length of the input window at the same place and
    both its bounds lie in [[min, max)]. *)
Definition clamped (points : list (list window)) (min_values max_values : list Z)
    (out : list (list window)) : Prop :=
  ∀ (i j : nat) (a b : list window) (w v : window) (mn mx : Z),
    points !! i = Some a → out !! i = Some b →
    min_values !! i = Some mn → max_values !! i = Some mx →
    a !! j = Some w → b !! j = Some v →
    window_length v = window_length w ∧ within mn mx v.

(** The inputs on which the clamp is meant to run: on every axis all windows share
    one length, which is not negative and smaller than the extent of the box. *)
Definition uniform_axis (a : list window) (mn mx : Z) : Prop :=
  ∃ len, 0 <= len < mx - mn ∧ Forall (fun w => window_length w = len) a.

Definition uniform_windows (points : list (list window)) (min_values max_values : list Z)
  : Prop :=
  ∀ (i : nat) (a : list window) (mn mx : Z),
    points !! i = Some a → min_values !! i = Some mn → max_values !! i = Some mx →
    uniform_axis a mn mx.

(** *** What the specification says of [random_center_box] at the cube edge *)

(** Every entry of the array of draws lies in [[0, 1)]. *)
Definition unit_draws (rdn : Np.matrix) : Prop :=
  ∀ j i : nat, (j < Np.rows rdn)%nat → (i < Np.cols rdn)%nat →
               (0 <= Np.at_ rdn j i < 1)%Q.

(** Every window starts at 0 and has the given length. *)
Definition at_edge (total_length : Z) (out : list (list window)) : Prop :=
  Forall (Forall (fun w : window => w.1 = 0 ∧ window_length w = total_length)) out.

(** ** utils/segmentmap.py: the segmentation volume *)

(** A dense array with float entries: its shape and the entry at each index. *)
Record ndarray := NdArray { shape : list Z; item : list Z → Q }.

(** Python's [max(a, b)]: [b] when it is greater than [a], else [a]. *)
Definition py_max (a b : Q) : Q :=
  match (a ?= b)%Q with Lt => b | _ => a end.

(** A row of the prepared catalogue ([prepare_df]): pixel coordinates, the two
    radii in pixels, the channel depth and the position angle. *)
Record catalog_row := CatalogRow {
  x : Z;
  y : Z;
  z : Z;
  major_radius_pixels : Q;
  minor_radius_pixels : Q;
  n_channels : Q;
  pa : Q
}.

(** One iteration of the loop of [get_spans]. *)
Definition get_span (p full_length small_length : Z) : Z * Z :=
  let dim_span_lower :=
    if bool_decide (p - Np.int_half small_length < 0) then p
    else Np.int_half small_length in
  let dim_span_upper :=
    if bool_decide (p + Np.int_half small_length > full_length) then full_length - p
    else Np.int_half small_length in
  (dim_span_lower, dim_span_upper + 1).

(** [get_spans(full_cube_shape, small_cube_shape, image_coords)] *)
Definition get_spans (full_cube_shape small_cube_shape image_coords : list Z)
  : list (Z * Z) :=
  (fun '(p, full_length, small_length) => get_span p full_length small_length)
    <$> zip (zip image_coords full_cube_shape) small_cube_shape.

(** [slice(c - s[0], c + s[1])] for every centre and span, as [create_from_df]
    builds them for the stamp and for the cube. *)
Definition span_slices (centers : list Z) (spans : list (Z * Z)) : list (Z * Z) :=
  zip_with (fun c (s : Z * Z) => (c - s.1, c + s.2)) centers spans.

(** *** What the specification says of [get_spans] *)

(** The destination range [[center - lower_span, center + upper_span)] of every
    axis lies within the cube. *)
Definition spans_in_cube (full_cube_shape image_coords : list Z) (spans : list (Z * Z))
  : Prop :=
  ∀ (i : nat) (p full_length : Z) (s : Z * Z),
    image_coords !! i = Some p → full_cube_shape !! i = Some full_length →
    spans !! i = Some s →
    0 <= p - s.1 ∧ p + s.2 <= full_length.

Section stamps.

(** The rasterised ellipse after rotation, [transform.rotate(cross_section,
    row.pa)] with [cross_section] filled through [draw.ellipse]: the entry
    [(i, j)] of the [square_side × square_side] image of a row. Both functions
    are scikit-image's and stay a parameter. *)
Variable cross_section : catalog_row → Z → Z → Z → Q.

(** [dense_cube(row)]; [np.repeat] raises [ValueError] on a negative count. *)
Definition dense_cube (row : catalog_row) : option ndarray :=
  let square_side :=
    Np.round (2 * py_max (major_radius_pixels row) (minor_radius_pixels row))%Q in
  let square_side :=
    if bool_decide (square_side mod 2 = 0) then square_side + 1 else square_side in
  let square_side := Z.max 3 square_side in
  let n_channels := Np.round (n_channels row) in
  let n_channels :=
    n_channels + (if bool_decide (n_channels mod 2 = 0) then 1 else 0) in
  if bool_decide (n_channels < 0) then None
  else Some {| shape := [square_side; square_side; n_channels];
               item := fun idx => match idx with
                                  | [i; j; _] => cross_section row square_side i j
                                  | _ => 0%Q
                                  end |}.

End stamps.

(** *** What the specification says of the stamp *)

(** [m] is the next odd integer at or after [n]. *)
Definition next_odd (n m : Z) : Prop :=
  Z.odd m = true ∧ n <= m ∧ ∀ k, Z.odd k = true → n <= k → m <= k.

(** *** Loops with exceptions *)

(** [for a in l: s = f(s, a)], stopping at the first exception. *)
Fixpoint for_each {A S : Type} (f : S → A → option S) (s : S) (l : list A) : option S :=
  match l with
  | [] => Some s
  | a :: l => s' ← f s a; for_each f s' l
  end.

(** [for i in range(start, start + n): s = body(i, s)]. *)
Fixpoint for_range {S : Type} (n : nat) (start : Z) (body : Z → S → option S) (s : S)
  : option S :=
  match n with
  | O => Some s
  | S n => s' ← body start s; for_range n (start + 1) body s'
  end.

(** *** Dense arrays: element and slice access *)

(** [a[v]] for [0 <= v]: the sub-array at position [v] of the first axis. *)
Definition sub (a : ndarray) (v : Z) : option ndarray :=
  match shape a with
  | n :: rest =>
      if bool_decide (0 <= v < n)
      then Some {| shape := rest; item := fun idx => item a (v :: idx) |}
      else None
  | [] => None
  end.

Fixpoint offset (starts idx : list Z) : list Z :=
  match starts, idx with
  | s :: starts, i :: idx => (s + i) :: offset starts idx
  | _, _ => idx
  end.

(** The index ranges that a tuple of slices selects in an array of the given
    shape: every slice is cut to its axis, and an axis without a slice is taken
    whole. *)
Definition slice_ranges (shape : list Z) (slices : list (Z * Z)) : list (Z * Z) :=
  zip_with (fun n (s : Z * Z) => Np.slice n s.1 s.2) shape slices
    ++ ((fun n => (0, n)) <$> drop (length slices) shape).

(** [a[s0:e0, s1:e1, ...]]; more slices than axes raise [IndexError]. *)
Definition getslice (a : ndarray) (slices : list (Z * Z)) : option ndarray :=
  if bool_decide (length slices <= length (shape a))%nat then
    let ranges := slice_ranges (shape a) slices in
    Some {| shape := (fun r : Z * Z => Z.max 0 (r.2 - r.1)) <$> ranges;
            item := fun idx => item a (offset (fst <$> ranges) idx) |}
  else None.

(** *** The sparse volume under construction

    [sparse.DOK] keeps a dictionary from index tuples to the non-zero entries.
    Assignment to a block of slices follows [DOK.__setitem__] of the [sparse]
    package: the slices are cut to the shape, the block is walked axis by axis,
    an axis of the value of extent 1 is broadcast, a value too short for the
    block raises [IndexError], and a zero entry removes the key. *)
Record dok := Dok { dok_shape : list Z; dok_data : gmap (list Z) Q }.

(** The axis lengths that [create_from_df] reads from the FITS header. *)
Record header := Header { NAXIS1 : Z; NAXIS2 : Z; NAXIS3 : Z }.

Definition cube_shape_of (h : header) : list Z := [NAXIS1 h; NAXIS2 h; NAXIS3 h].

Fixpoint setitem (ranges : list (Z * Z)) (key : list Z) (value : ndarray)
    (data : gmap (list Z) Q) : option (gmap (list Z) Q) :=
  let value_missing_dims :=
    Z.of_nat (length ranges) - Z.of_nat (length (shape value)) in
  if bool_decide (value_missing_dims < 0) then None
  else
    match ranges with
    | [] =>
        Some (if Qeq_bool (item value []) 0 then delete key data
              else <[key := item value []]> data)
    | (start, stop) :: rest =>
        for_range (Z.to_nat (stop - start)) 0
          (fun v_idx data =>
             vi ← (if bool_decide (0 < value_missing_dims) then Some value
                   else if bool_decide (head (shape value) = Some 1) then sub value 0
                   else sub value v_idx);
             setitem rest (key ++ [start + v_idx]) vi data)
          data
    end.

(** [cube[slices] = value]; more slices than axes raise [IndexError]. *)
Definition dok_setitem (cube : dok) (slices : list (Z * Z)) (value : ndarray)
  : option dok :=
  if bool_decide (length slices <= length (dok_shape cube))%nat then
    Dok (dok_shape cube)
      <$> setitem (slice_ranges (dok_shape cube) slices) [] value (dok_data cube)
  else None.

(** The entry of the volume at an index: 0 where the dictionary has no key. *)
Definition voxel (cube : dok) (key : list Z) : Q := default 0%Q (dok_data cube !! key).

Definition Qltb (a b : Q) : bool :=
  match (a ?= b)%Q with Lt => true | _ => false end.

(** An index lies within a list of ranges, one per axis. *)
Definition in_ranges (key : list Z) (ranges : list (Z * Z)) : Prop :=
  Forall2 (fun k (r : Z * Z) => r.1 <= k < r.2) key ranges.

#[local] Instance in_ranges_dec key ranges : Decision (in_ranges key ranges).
Proof. unfold in_ranges. apply _. Defined.

Section volume.

Variable cross_section : catalog_row → Z → Z → Z → Q.

(** [config['preprocessing']['min_axis_pixels']] *)
Variable min_axis_pixels : Q.

(** The test that makes [create_from_df] skip a row. *)
Definition too_small (row : catalog_row) : bool :=
  Qltb (2 * minor_radius_pixels row) min_axis_pixels.

(** The body of the loop of [create_from_df]. *)
Definition paint (cube : dok) (row : catalog_row) : option dok :=
  if too_small row then Some cube
  else
    small_dense_cube ← dense_cube cross_section row;
    let coords := [x row; y row; z row] in
    let spans := get_spans (dok_shape cube) (shape small_dense_cube) coords in
    let centers := Np.int_half <$> shape small_dense_cube in
    small_dense_cube ← getslice small_dense_cube (span_slices centers spans);
    dok_setitem cube (span_slices coords spans) small_dense_cube.

(** [create_from_df(df, header)]; the conversion to [COO] keeps the entries. *)
Definition create_from_df (df : list catalog_row) (h : header) : option dok :=
  for_each paint (Dok (cube_shape_of h) ∅) df.

(** The index ranges of the cube that the clipped stamp of a row is written
    to: the slices [slice(c - s[0], c + s[1])] of [create_from_df], cut to the
    cube. *)
Definition clipped_span (cube_shape : list Z) (row : catalog_row)
  : option (list (Z * Z)) :=
  small_dense_cube ← dense_cube cross_section row;
  let coords := [x row; y row; z row] in
  let spans := get_spans cube_shape (shape small_dense_cube) coords in
  Some (slice_ranges cube_shape (span_slices coords spans)).

(** Some row of the catalogue that passes the size test has the key in its
    clipped span. *)
Definition covered (cube_shape : list Z) (df : list catalog_row) (k : list Z) : Prop :=
  ∃ row ranges, row ∈ df ∧ too_small row = false ∧
                clipped_span cube_shape row = Some ranges ∧ in_ranges k ranges.

End volume.

(** ** utils/data.py: the Randomizer *)

(** The two libraries the [Randomizer] draws from.
    - [np.random] keeps one generator state per process: [np.random.seed(x)]
      replaces it by a state that depends on [x] alone (and raises [ValueError]
      for an [x] that is no 32-bit unsigned integer), [np.random.uniform(size=(n,
      d))] returns an [n × d] array and the advanced state. A process starts in
      a state taken from the operating system.
    - [sobol_seq.i4_sobol_generate(dim_num, n, skip)] returns the [n] points of
      the Sobol sequence that follow index [skip], a function of its arguments.
      The library has direction numbers for [1 <= dim_num <= 40] and raises for
      any other [dim_num]; the field stands for the call inside that range. *)
Class Generators := {
  gstate : Type;
  np_random_seed : Z → option gstate;
  np_random_uniform : nat → nat → gstate → Np.matrix * gstate;
  i4_sobol_generate : nat → nat → Z → Np.matrix
}.

(** The fields that [__init__] sets; [rand] and [reset_f] are fixed by [seed]. *)
Record Randomizer := MkRandomizer { seed : option Z; counter : Z }.

(** The calls a client can make on a [Randomizer]. *)
Inductive call :=
| Sample (n d : Z)
| RrSample (n d : Z)
| ResetSample (n d : Z)
| DoReset.

Section randomizer.

Context `{Generators}.

(** [Randomizer(seed)] *)
Definition init (seed : option Z) : Randomizer := MkRandomizer seed 0.

(** [self.rand(n, d, s)]; both libraries raise [ValueError] on a negative size. *)
Definition rand (self : Randomizer) (n d s : Z) (g : gstate) : option (Np.matrix * gstate) :=
  if bool_decide (n < 0 ∨ d < 0) then None
  else match seed self with
       | None => Some (i4_sobol_generate (Z.to_nat d) (Z.to_nat n) s, g)
       | Some _ => Some (np_random_uniform (Z.to_nat n) (Z.to_nat d) g)
       end.

(** [self.reset_f(self.seed)], the one call of [reset_f]: nothing without a
    seed, [np.random.seed(self.seed)] with one. *)
Definition reset_f (self : Randomizer) (g : gstate) : option gstate :=
  match seed self with
  | None => Some g
  | Some x => np_random_seed x
  end.

(** [self.reset()] *)
Definition reset (self : Randomizer) (g : gstate) : option (Randomizer * gstate) :=
  let self := MkRandomizer (seed self) 0 in
  g ← reset_f self g;
  Some (self, g).

(** [self.sample(n, d)] *)
Definition sample (self : Randomizer) (n d : Z) (g : gstate)
  : option (Np.matrix * Randomizer * gstate) :=
  '(s, g) ← rand self n d (counter self) g;
  Some (s, MkRandomizer (seed self) (counter self + n), g).

(** [self.rr_sample(n, d)] *)
Definition rr_sample (self : Randomizer) (n d : Z) (g : gstate)
  : option (Np.matrix * Randomizer * gstate) :=
  '(s, g) ← rand self n d 0 g;
  Some (s, self, g).

(** [self.reset_sample(n, d)] *)
Definition reset_sample (self : Randomizer) (n d : Z) (g : gstate)
  : option (Np.matrix * Randomizer * gstate) :=
  '(self, g) ← reset self g;
  '(s, g) ← rand self n d (counter self) g;
  Some (s, self, g).

(** One call: what it returns, if anything, and the state it leaves. *)
Definition run_call (c : call) (self : Randomizer) (g : gstate)
  : option (option Np.matrix * Randomizer * gstate) :=
  match c with
  | Sample n d => '(s, self, g) ← sample self n d g; Some (Some s, self, g)
  | RrSample n d => '(s, self, g) ← rr_sample self n d g; Some (Some s, self, g)
  | ResetSample n d => '(s, self, g) ← reset_sample self n d g; Some (Some s, self, g)
  | DoReset => '(self, g) ← reset self g; Some (None, self, g)
  end.

(** A sequence of calls on one [Randomizer]: the values returned, in order. *)
Fixpoint run_calls (cs : list call) (self : Randomizer) (g : gstate)
  : option (list (option Np.matrix) * Randomizer * gstate) :=
  match cs with
  | [] => Some ([], self, g)
  | c :: cs =>
      '(out, self, g) ← run_call c self g;
      '(outs, self, g) ← run_calls cs self g;
      Some (out :: outs, self, g)
  end.

(** What a client observes of one process: it starts in the global state [g],
    builds [Randomizer(seed)] and makes the calls. *)
Definition observe (seed : option Z) (cs : list call) (g : gstate)
  : option (list (option Np.matrix)) :=
  (fun r => r.1.1) <$> run_calls cs (init seed) g.

End randomizer.

(** *** numpy's legacy generator

    [np.random.seed] and [np.random.uniform] of numpy's global [RandomState]: the
    Mersenne Twister MT19937 on 32-bit words, seeded by [init_genrand], a double
    made of two outputs. *)
Module MT19937.

Definition word (v : Z) : Z := Z.land v 0xffffffff.

(** The 624 words of the key and the position of the next output. *)
Record state := State { key : list Z; pos : nat }.

Fixpoint fill (n : nat) (p : Z) (s : Z) : list Z :=
  match n with
  | O => []
  | S n => s :: fill n (p + 1)
                 (word (1812433253 * Z.lxor s (Z.shiftr s 30) + p + 1))
  end.

(** [mt19937_seed] *)
Definition seed_state (s : Z) : state := State (fill 624 0 (word s)) 624.

Definition twist_word (k : list Z) (i j m : nat) : Z :=
  let y := Z.lor (Z.land (nth i k 0) 0x80000000) (Z.land (nth j k 0) 0x7fffffff) in
  Z.lxor (Z.lxor (nth m k 0) (Z.shiftr y 1)) (if Z.odd y then 0x9908b0df else 0).

(** [mt19937_gen]: the key is regenerated in place, word by word. *)
Definition generate (k : list Z) : list Z :=
  foldl (fun k i => <[i := twist_word k i ((i + 1) mod 624) ((i + 397) mod 624)]> k)
        k (seq 0 624).

Definition temper (y : Z) : Z :=
  let y := Z.lxor y (Z.shiftr y 11) in
  let y := Z.lxor y (Z.land (Z.shiftl y 7) 0x9d2c5680) in
  let y := Z.lxor y (Z.land (Z.shiftl y 15) 0xefc60000) in
  Z.lxor y (Z.shiftr y 18).

(** [mt19937_next] *)
Definition next (st : state) : Z * state :=
  let st := if bool_decide (624 <= pos st)%nat then State (generate (key st)) 0 else st in
  (temper (nth (pos st) (key st) 0), State (key st) (S (pos st))).

(** [mt19937_next_double] *)
Definition next_double (st : state) : Q * state :=
  let '(a, st) := next st in
  let '(b, st) := next st in
  (Qred (Qmake (Z.shiftr a 5 * 67108864 + Z.shiftr b 6) 9007199254740992), st).

Fixpoint doubles (n : nat) (st : state) : list Q * state :=
  match n with
  | O => ([], st)
  | S n => let '(v, st) := next_double st in
           let '(vs, st) := doubles n st in
           (v :: vs, st)
  end.

(** [np.random.uniform(size=(n, d))]: [0.0 + 1.0 * next_double], in row-major
    order. *)
Definition uniform (n d : nat) (st : state) : Np.matrix * state :=
  let '(vs, st) := doubles (n * d) st in
  (Np.Matrix n d vs, st).

(** [np.random.seed(x)] for an integer [x] *)
Definition seed (x : Z) : option state :=
  if bool_decide (0 <= x < 2 ^ 32) then Some (seed_state x) else None.

End MT19937.

(** The generators of a process: numpy's global [RandomState], and a Sobol
    generator given from outside. *)
Definition numpy_generators (sobol : nat → nat → Z → Np.matrix) : Generators :=
  {| gstate := MT19937.state;
     np_random_seed := MT19937.seed;
     np_random_uniform := MT19937.uniform;
     i4_sobol_generate := sobol |}.

(** A stand-in where only the seeded mode is run, which never calls the Sobol
    generator: all points at the origin. *)
Definition origin_points (dim_num n : nat) (skip : Z) : Np.matrix :=
  Np.Matrix n dim_num (replicate (n * dim_num) 0%Q).

(** *** What the specification says of the [Randomizer] *)

(** The block a sampling call returns. *)
Definition block {G : Type} (r : option (Np.matrix * Randomizer * G)) : option Np.matrix :=
  (fun r => r.1.1) <$> r.

(** [rr_sample(n, d)] returns the same block whatever calls came before: after
    any calls on a [Randomizer] built in some state of the process, it returns
    what it returns on a [Randomizer] just built in that state. *)
Definition rr_restarts `{Generators} (seed : option Z) : Prop :=
  ∀ (cs : list call) (g : gstate) outs self g' (n d : Z),
    run_calls cs (init seed) g = Some (outs, self, g') →
    block (rr_sample self n d g') = block (rr_sample (init seed) n d g).

(** Two processes that build [Randomizer(seed)] and make the same calls observe
    the same values, whatever state their global generator started in. *)
Definition reproducible `{Generators} (seed : option Z) (cs : list call) : Prop :=
  ∀ g1 g2 : gstate, observe seed cs g1 = observe seed cs g2.

(** ** utils/data.py: the label volume of [create_data_set] *)

(** A dense integer volume with three axes: its shape and its entries that were
    assigned; every other entry is the 0 of [np.zeros]. *)
Record volume := Volume { vol_shape : Z * Z * Z; vol_cells : gmap (Z * Z * Z) Z }.

Definition vol_item (v : volume) (k : Z * Z * Z) : Z := default 0 (vol_cells v !! k).

(** [np.count_nonzero] *)
Definition count_nonzero (v : volume) : nat :=
  size (filter (fun kv : (Z * Z * Z) * Z => kv.2 ≠ 0) (vol_cells v)).

(** The voxel that [sourcemap[pos[2], pos[0], pos[1]]] addresses in a volume of
    the given shape. *)
Definition voxel_of (dimensions : Z * Z * Z) (pos : Z * Z * Z) : option (Z * Z * Z) :=
  let '(d0, d1, d2) := dimensions in
  let '(p0, p1, p2) := pos in
  i ← Np.index d0 p2;
  j ← Np.index d1 p0;
  k ← Np.index d2 p1;
  Some (i, j, k).

(** [create_sourcemap(positions, dimensions)]; [np.zeros] raises [ValueError] on a
    negative dimension. *)
Definition create_sourcemap (positions : list (Z * Z * Z)) (dimensions : Z * Z * Z)
  : option volume :=
  let '(d0, d1, d2) := dimensions in
  if bool_decide (d0 < 0 ∨ d1 < 0 ∨ d2 < 0) then None
  else
    for_each (fun sourcemap pos =>
                key ← voxel_of dimensions pos;
                Some (Volume (vol_shape sourcemap) (<[key := 1]> (vol_cells sourcemap))))
             (Volume dimensions ∅) positions.

(** *** What is said of [create_sourcemap] *)

(** The position lies inside a cube of the given shape. *)
Definition inside_cube (dimensions : Z * Z * Z) (pos : Z * Z * Z) : Prop :=
  let '(d0, d1, d2) := dimensions in
  let '(p0, p1, p2) := pos in
  0 <= p2 < d0 ∧ 0 <= p0 < d1 ∧ 0 <= p1 < d2.

(** The volume is 1 at the voxel [(z, x, y)] of every listed position and 0 at
    every other voxel, and it has at most as many non-zero voxels as there are
    positions. *)
Definition marks_positions (positions : list (Z * Z * Z)) (sourcemap : volume) : Prop :=
  (∀ pos, pos ∈ positions → vol_item sourcemap (pos.2, pos.1.1, pos.1.2) = 1) ∧
  (∀ voxel, (¬ ∃ pos, pos ∈ positions ∧ voxel = (pos.2, pos.1.1, pos.1.2)) →
            vol_item sourcemap voxel = 0) ∧
  (count_nonzero sourcemap <= length positions)%nat.

(** ** utils/data.py: [create_data_set] *)

(** A row of the catalogue, with the columns that [create_data_set] reads. *)
Record source := Source { ra : Q; dec : Q; central_freq : Q; w20 : Q }.

(** [freq_boundary(central_freq, w20)], for one row. *)
Definition freq_boundary (central_freq w20 : Q) : Q * Q :=
  let rest_freq := 1420000000%Q in
  let c := 300000%Q in
  let bw := (rest_freq * w20 / c)%Q in
  let upper_freq := (central_freq - bw / 2)%Q in
  let lower_freq := (central_freq + bw / 2)%Q in
  (lower_freq, upper_freq).

(** The data cube [hi_data]: three axes (frequency, x, y) of float entries. *)
Record cube := Cube { cube_shape : Z * Z * Z; cube_item : Z → Z → Z → Q }.

(** The argument [freq_points_f]: [None], an [int], or an array of counts. *)
Inductive freq_points :=
| FreqDefault
| FreqInt (n : Z)
| FreqArray (counts : list Z).

(** *** Arrays: creation, reduction, assignment *)

(** [np.zeros(shape)]; a negative dimension raises [ValueError]. *)
Definition zeros (shape : list Z) : option ndarray :=
  if bool_decide (Forall (fun n => 0 <= n) shape)
  then Some {| shape := shape; item := fun _ => 0%Q |}
  else None.

(** A scalar as an array without axes. *)
Definition scalar (v : Z) : ndarray := {| shape := []; item := fun _ => inject_Z v |}.

(** [np.array([w0, w1, ...])] for windows: an integer array of shape [(n, 2)]. *)
Definition of_windows (ws : list (Z * Z)) : ndarray :=
  {| shape := [Z.of_nat (length ws); 2];
     item := fun idx =>
               match idx with
               | [i; c] =>
                   match ws !! Z.to_nat i with
                   | Some w => inject_Z (if bool_decide (c = 0) then w.1 else w.2)
                   | None => 0%Q
                   end
               | _ => 0%Q
               end |}.

(** [hi_data[f0:f1, x0:x1, y0:y1]] *)
Definition cube_slice (a : cube) (f x y : Z * Z) : ndarray :=
  let '(s0, s1, s2) := cube_shape a in
  let f := Np.slice s0 f.1 f.2 in
  let x := Np.slice s1 x.1 x.2 in
  let y := Np.slice s2 y.1 y.2 in
  {| shape := [Z.max 0 (f.2 - f.1); Z.max 0 (x.2 - x.1); Z.max 0 (y.2 - y.1)];
     item := fun idx =>
               match idx with
               | [i; j; k] => cube_item a (f.1 + i) (x.1 + j) (y.1 + k)
               | _ => 0%Q
               end |}.

(** The integers of [range(lo, hi)]. *)
Definition zrange (lo hi : Z) : list Z :=
  (fun i => lo + Z.of_nat i) <$> seq 0 (Z.to_nat (hi - lo)).

Definition zsum (l : list Z) : Z := foldr Z.add 0 l.

(** [np.sum(sourcemap[f0:f1, x0:x1, y0:y1], axis=0)] *)
Definition volume_sum_axis0 (v : volume) (f x y : Z * Z) : ndarray :=
  let '(s0, s1, s2) := vol_shape v in
  let f := Np.slice s0 f.1 f.2 in
  let x := Np.slice s1 x.1 x.2 in
  let y := Np.slice s2 y.1 y.2 in
  {| shape := [Z.max 0 (x.2 - x.1); Z.max 0 (y.2 - y.1)];
     item := fun idx =>
               match idx with
               | [j; k] =>
                   inject_Z (zsum ((fun i => vol_item v (i, x.1 + j, y.1 + k))
                                     <$> zrange f.1 f.2))
               | _ => 0%Q
               end |}.

(** [np.sum(sourcemap[f0:f1, x0:x1, y0:y1])] *)
Definition volume_sum (v : volume) (f x y : Z * Z) : Z :=
  let '(s0, s1, s2) := vol_shape v in
  let f := Np.slice s0 f.1 f.2 in
  let x := Np.slice s1 x.1 x.2 in
  let y := Np.slice s2 y.1 y.2 in
  zsum (i ← zrange f.1 f.2; j ← zrange x.1 x.2; k ← zrange y.1 y.2;
        [vol_item v (i, j, k)]).

(** Broadcasting of a value to a target shape, the shapes read from the last
    axis: an axis of the value fits when it has the target's extent or extent 1,
    and axes that the target lacks must have extent 1. *)
Fixpoint fits (value target : list Z) : bool :=
  match value, target with
  | [], _ => true
  | v :: value, t :: target =>
      (bool_decide (v = t) || bool_decide (v = 1)) && fits value target
  | v :: value, [] => bool_decide (v = 1) && fits value []
  end.

Definition broadcastable (value target : list Z) : bool :=
  fits (rev value) (rev target).

(** The index of the value that is read for an index of the target. *)
Definition broadcast_index (value : list Z) (idx : list Z) : list Z :=
  let n := length value in
  let idx := replicate (n - length idx) 0 ++ drop (length idx - n) idx in
  zip_with (fun v i => if bool_decide (v = 1) then 0 else i) value idx.

(** [a[counter] = value]: [IndexError] when [counter] is off the first axis,
    [ValueError] when the value cannot be broadcast to the shape of a row. *)
Definition setrow (a : ndarray) (counter : Z) (value : ndarray) : option ndarray :=
  match shape a with
  | n :: rest =>
      c ← Np.index n counter;
      if broadcastable (shape value) rest then
        Some {| shape := shape a;
                item := fun idx =>
                          match idx with
                          | i :: idx' =>
                              if bool_decide (i = c)
                              then item value (broadcast_index (shape value) idx')
                              else item a idx
                          | [] => item a idx
                          end |}
      else None
  | [] => None
  end.

(** [data[key][counter] = value] on the dictionary of arrays. *)
Definition data_setrow (key : string) (counter : Z) (value : ndarray)
    (data : gmap string ndarray) : option (gmap string ndarray) :=
  a ← data !! key;
  a ← setrow a counter value;
  Some (<[key := a]> data).

(** [np.bincount(l)]; a negative entry raises [ValueError]. *)
Definition bincount (l : list Z) : option (list Z) :=
  if bool_decide (Forall (fun v => 0 <= v) l) then
    match l with
    | [] => Some []
    | v :: l' =>
        Some ((fun b => Z.of_nat (length (filter (fun v => v = b) l)))
                <$> zrange 0 (foldr Z.max v l' + 1))
    end
  else None.

(** [a * b] for arrays with one axis: equal lengths, or one of length 1. *)
Definition mul_broadcast (a b : list Z) : option (list Z) :=
  if bool_decide (length a = length b) then Some (zip_with Z.mul a b)
  else match a, b with
       | [u], _ => Some (Z.mul u <$> b)
       | _, [v] => Some ((fun u => u * v) <$> a)
       | _, _ => None
       end.

(** [l[k]] on an array with one axis. *)
Definition getitem (l : list Z) (k : Z) : option Z :=
  i ← Np.index (Z.of_nat (length l)) k;
  l !! Z.to_nat i.

(** *** The function *)

(** The local variables that the two loops of [create_data_set] update: the
    dictionary, the two counters, the [Randomizer] and the state of numpy's
    global generator. *)
Record locals {G : Type} := Locals {
  data : gmap string ndarray;
  sample_counter : Z;
  cluster : Z;
  rnd : Randomizer;
  np_state : G
}.
Arguments locals : clear implicits.
Arguments Locals {G}.

(** The tuple assignment [x, y = ...] *)
Definition unpack2 {A : Type} (l : list A) : option (A * A) :=
  match l with
  | [a; b] => Some (a, b)
  | _ => None
  end.

Section dataset.

Context `{Generators}.

(** [wcs.all_world2pix(rows, 0)], one row at a time: the projection from world to
    pixel coordinates is astropy's and stays a parameter. *)
Variable all_world2pix : Q * Q * Q → Q * Q * Q.

(** Line 17: [part_size], from the bands of every row. Division by a
    [freq_band] of 0 gives no finite number. *)
Definition part_sizes (upper_band lower_band : list Z) (freq_band : Z) : option (list Z) :=
  if bool_decide (freq_band = 0) then None
  else Some (zip_with (fun u l => Np.trunc (inject_Z (u - l) / inject_Z freq_band)%Q)
                      upper_band lower_band).

(** Lines 18 to 21: the counts per partition size. [np.min] and [np.max] raise
    [ValueError] on an empty array. *)
Definition freq_points_of (part_size : list Z) (freq_points_f : freq_points)
  : option (list Z) :=
  match freq_points_f with
  | FreqDefault =>
      match part_size with
      | [] => None
      | b :: rest =>
          Some ((fun v => v * 2 + 1)
                  <$> zrange (foldr Z.min b rest) (foldr Z.max b rest + 1))
      end
  | FreqInt n =>
      match part_size with
      | [] => None
      | b :: rest =>
          Some ((fun v => v * n)
                  <$> replicate (Z.to_nat (foldr Z.max b rest - foldr Z.min b rest + 1)) 1)
      end
  | FreqArray counts => Some counts
  end.

(** Lines 52 to 57: one positive sample. *)
Definition put_source (hi_data : cube) (sourcemap : volume) (f x y : Z * Z)
    (st : locals gstate) : option (locals gstate) :=
  let counter := sample_counter st in
  d ← data_setrow "image" counter (cube_slice hi_data f x y) (data st);
  d ← data_setrow "sourcemap" counter (volume_sum_axis0 sourcemap f x y) d;
  d ← data_setrow "position" counter (of_windows [f; x; y]) d;
  d ← data_setrow "cluster" counter (scalar (cluster st)) d;
  Some (Locals d (counter + 1) (cluster st) (rnd st) (np_state st)).

(** Lines 42 to 58: the body of the loop over the catalogue, for row [i]. *)
Definition draw_source (hi_data : cube) (sourcemap : volume)
    (positions : list (Z * Z)) (lower_band upper_band part_size freq_points_f : list Z)
    (side_length precuation freq_band spatial_points : Z)
    (i : Z) (st : locals gstate) : option (locals gstate) :=
  let '(_, s1, s2) := cube_shape hi_data in
  l_band ← lower_band !! Z.to_nat i;
  u_band ← upper_band !! Z.to_nat i;
  source_pos ← positions !! Z.to_nat i;
  '(rdn, r, g) ← rr_sample (rnd st) spatial_points 2 (np_state st);
  xy ← random_center_box rdn side_length [source_pos.1; source_pos.2] precuation
                         [0; 0] [s1; s2];
  '(x, y) ← unpack2 xy;
  b ← part_size !! Z.to_nat i;
  n ← getitem freq_points_f b;
  '(rdn, r, g) ← rr_sample r n 1 g;
  freq ← random_in_interval rdn [(l_band, u_band)] freq_band ≫= head;
  st ← for_range (Z.to_nat spatial_points) 0
         (fun j st =>
            for_range (Z.to_nat n) 0
              (fun k st =>
                 f ← freq !! Z.to_nat k;
                 xj ← x !! Z.to_nat j;
                 yj ← y !! Z.to_nat j;
                 put_source hi_data sourcemap f xj yj st)
              st)
         (Locals (data st) (sample_counter st) (cluster st) r g);
  Some (Locals (data st) (sample_counter st) (cluster st + 1) (rnd st) (np_state st)).

(** Lines 72 to 75: one negative sample; its [sourcemap] row stays 0. *)
Definition put_empty (hi_data : cube) (f x y : Z * Z) (st : locals gstate)
  : option (locals gstate) :=
  let counter := sample_counter st in
  d ← data_setrow "image" counter (cube_slice hi_data f x y) (data st);
  d ← data_setrow "position" counter (of_windows [f; x; y]) d;
  d ← data_setrow "cluster" counter (scalar (cluster st)) d;
  Some (Locals d (counter + 1) (cluster st) (rnd st) (np_state st)).

(** Lines 62 to 76: the body of the [while] loop. *)
Definition draw_empty (hi_data : cube) (sourcemap : volume)
    (side_length freq_band freq_empty : Z) (st : locals gstate)
  : option (locals gstate) :=
  let '(s0, s1, s2) := cube_shape hi_data in
  '(s, r, g) ← sample (rnd st) 1 3 (np_state st);
  let coordinate :=
    zip_with (fun v n => Np.trunc (v * inject_Z n)%Q) (Np.row s 0) [s0; s1; s2] in
  l_band ← coordinate !! 0%nat;
  let u_band := l_band + freq_empty * freq_band in
  '(rdn, r, g) ← rr_sample r freq_empty 1 g;
  freq ← random_in_interval rdn [(l_band, u_band)] freq_band ≫= head;
  freq ← inside_box [freq] [0] [s0] ≫= head;
  xy ← random_center_box (Np.Matrix 1 2 [1 # 2; 1 # 2]%Q) side_length
                         (drop 1 coordinate) 0 [0; 0] [s1; s2];
  '(x, y) ← unpack2 xy;
  x0 ← x !! 0%nat;
  y0 ← y !! 0%nat;
  bounds ← match freq ≫= (fun w : Z * Z => [w.1; w.2]) with
           | [] => None
           | v :: vs => Some (foldr Z.min v vs, foldr Z.max v vs)
           end;
  let sum_map := volume_sum sourcemap bounds x0 y0 in
  let st := Locals (data st) (sample_counter st) (cluster st) r g in
  if bool_decide (sum_map = 0) then
    st ← for_range (Z.to_nat freq_empty) 0
           (fun i st => f ← freq !! Z.to_nat i; put_empty hi_data f x0 y0 st)
           st;
    Some (Locals (data st) (sample_counter st) (cluster st + 1) (rnd st) (np_state st))
  else Some st.

(** Lines 61 to 76: [while counter < n_points]. The loop has no bound in the
    source; here it stops with [None] when the fuel is used up. *)
Fixpoint draw_empties (fuel : nat) (hi_data : cube) (sourcemap : volume)
    (side_length freq_band freq_empty n_points : Z) (st : locals gstate)
  : option (locals gstate) :=
  if bool_decide (sample_counter st < n_points) then
    match fuel with
    | O => None
    | S fuel =>
        st ← draw_empty hi_data sourcemap side_length freq_band freq_empty st;
        draw_empties fuel hi_data sourcemap side_length freq_band freq_empty n_points st
    end
  else Some st.

(** Lines 23 to 29: the number of positive samples, the number of frequency
    windows of an empty cube, and the number of samples. A catalogue without rows
    and a zero divisor give no finite number that [int] accepts. *)
Definition sample_counts (part_size freq_points_f : list Z) (df_size : Z)
    (prob_galaxy : Q) (spatial_points : Z) : option (Z * Z * Z) :=
  counts ← bincount part_size;
  total_freq_p ← zsum <$> mul_broadcast counts freq_points_f;
  let n_sources := total_freq_p * spatial_points in
  if bool_decide (df_size = 0) then None
  else
    let freq_empty := Np.trunc (inject_Z total_freq_p / inject_Z df_size)%Q in
    if Qeq_bool (prob_galaxy * inject_Z freq_empty) 0 then None
    else
      let n_cubes := Np.trunc (((1 - prob_galaxy) * inject_Z n_sources)
                               / (prob_galaxy * inject_Z freq_empty))%Q in
      let n_empty := n_cubes * freq_empty in
      let n_points := n_sources + n_empty in
      Some (n_sources, freq_empty, n_points).

(** Lines 31 to 35: the arrays of the dictionary. *)
Definition allocate (n_points n_sources freq_band side_length : Z)
  : option (gmap string ndarray) :=
  image ← zeros [n_points; freq_band; side_length; side_length];
  sourcemap ← zeros [n_points; side_length; side_length];
  position ← zeros [n_points; 3; 2];
  let class :=
    {| shape := [Z.max 0 n_points];
       item := fun idx =>
                 match idx with
                 | [i] => if bool_decide (i < n_sources) then 1%Q else 0%Q
                 | _ => 0%Q
                 end |} in
  cluster ← zeros [n_points];
  Some (<["cluster" := cluster]> (<["class" := class]> (<["position" := position]>
          (<["sourcemap" := sourcemap]> (<["image" := image]> ∅))))).

(** The pixel of a world coordinate: [wcs.all_world2pix(...).astype(np.int)]. *)
Definition pixel (t : Q * Q * Q) : Z * Z * Z :=
  let '(a, b, c) := all_world2pix t in (Np.trunc a, Np.trunc b, Np.trunc c).

(** [create_data_set(df, hi_data, wcs, prob_galaxy, side_length, precuation,
    freq_band, spatial_points, freq_points_f, seed)], run in a process whose global
    generator is in the state [g]. *)
Definition create_data_set (fuel : nat) (df : list source) (hi_data : cube)
    (prob_galaxy : Q) (side_length precuation freq_band spatial_points : Z)
    (freq_points_f : freq_points) (seed : option Z) (g : gstate)
  : option (gmap string ndarray) :=
  let positions := (fun s => pixel (ra s, dec s, central_freq s)) <$> df in
  sourcemap ← create_sourcemap positions (cube_shape hi_data);
  let positions := (fun p : Z * Z * Z => (p.1.1, p.1.2)) <$> positions in
  let upper_band :=
    (fun s => (pixel (ra s, dec s, (freq_boundary (central_freq s) (w20 s)).1)).2) <$> df in
  let lower_band :=
    (fun s => (pixel (ra s, dec s, (freq_boundary (central_freq s) (w20 s)).2)).2) <$> df in
  part_size ← part_sizes upper_band lower_band freq_band;
  freq_points_f ← freq_points_of part_size freq_points_f;
  '(n_sources, freq_empty, n_points) ←
    sample_counts part_size freq_points_f (Z.of_nat (length df)) prob_galaxy
                  spatial_points;
  arrays ← allocate n_points n_sources freq_band side_length;
  st ← for_range (length df) 0
         (draw_source hi_data sourcemap positions lower_band upper_band part_size
                      freq_points_f side_length precuation freq_band spatial_points)
         (Locals arrays 0 0 (init seed) g);
  st ← draw_empties fuel hi_data sourcemap side_length freq_band freq_empty n_points st;
  Some (data st).

End dataset.

(** *** What the specification says of the dataset *)

(** The arrays of [d] have the shapes of the arrays of [d0], key by key. *)
Definition same_shapes (d0 d : gmap string ndarray) : Prop :=
  ∀ key, shape <$> d !! key = shape <$> d0 !! key.

(** The five arrays of a dataset of [n] samples. *)
Definition dataset_arrays (d : gmap string ndarray) (n freq_band side_length : Z) : Prop :=
  shape <$> d !! "image" = Some [n; freq_band; side_length; side_length] ∧
  shape <$> d !! "sourcemap" = Some [n; side_length; side_length] ∧
  shape <$> d !! "position" = Some [n; 3; 2] ∧
  shape <$> d !! "class" = Some [n] ∧
  shape <$> d !! "cluster" = Some [n].

(** The dataset as the specification describes it: the five arrays and the two
    entries [index] and [dim]. *)
Definition dataset_with_metadata (d : gmap string ndarray) (n freq_band side_length : Z)
  : Prop :=
  dataset_arrays d n freq_band side_length ∧
  is_Some (d !! "index") ∧ is_Some (d !! "dim").

(** A call returned a value. *)
Definition returned {A : Type} (r : option A) : bool :=
  match r with Some _ => true | None => false end.

(** *** A small run

    A cube of 16 × 16 × 16 voxels whose entry at [(f, x, y)] is [256 f + 16 x + y],
    world coordinates that are pixel coordinates, and two sources: the line of
    the first spans the pixels 6 to 10 of the frequency axis, the line of the
    second has no width. The process is in the state that [np.random.seed(1)]
    leaves, and the dataset is built with [seed=0]. *)
Definition demo_cube : cube :=
  Cube (16, 16, 16) (fun f x y => inject_Z (256 * f + 16 * x + y)).

Definition wide_source : source := Source 5 6 8 (12 # 14200).

Definition narrow_source : source := Source 11 3 4 0.

Abbreviation demo_data_set df freq_band fuel :=
  (@create_data_set (numpy_generators origin_points) (fun t => t) fuel df demo_cube
                    (1 # 2) 4 0 freq_band 1 FreqDefault (Some 0) (MT19937.seed_state 1)).

(** The shapes of the five arrays and the presence of the two metadata keys. *)
Definition entries (d : gmap string ndarray) :=
  (shape <$> d !! "image", shape <$> d !! "sourcemap", shape <$> d !! "position",
   shape <$> d !! "class", shape <$> d !! "cluster",
   returned (d !! "index"), returned (d !! "dim")).

(** A catalogue of three sources in a cube of 32 × 32 × 32 voxels: one in the
    middle, one at the last index of two axes, and one too small to be drawn
    with a threshold of 1; every pixel of a cross-section is set. *)
Definition demo_rows : list catalog_row :=
  [CatalogRow 10 10 10 1 1 1 0; CatalogRow 31 0 31 1 1 3 0;
   CatalogRow 20 20 20 1 (1 # 4) 1 0].

Abbreviation demo_volume :=
  (create_from_df (fun _ _ _ _ => 1%Q) 1 demo_rows (Header 32 32 32)).

(** ** Further properties: what is stated of the window helpers *)

(** Every window of every axis lies within the bounds of its axis. *)
Definition all_within (points : list (list window)) (min_values max_values : list Z)
  : Prop :=
  ∀ (i : nat) (a : list window) (mn mx : Z),
    points !! i = Some a → min_values !! i = Some mn → max_values !! i = Some mx →
    Forall (within mn mx) a.


(** The side length fits strictly inside the box on every axis. *)
Definition box_fits (total_length : Z) (min_values max_values : list Z) : Prop :=
  ∀ (i : nat) (mn mx : Z),
    min_values !! i = Some mn → max_values !! i = Some mx →
    0 <= total_length < mx - mn.

(** *** What the loops of [create_data_set] leave in the arrays *)

(** The rows from [from] up to [to] of a label array hold integers from [lo] up
    to [hi]. *)
Definition labelled (a : ndarray) (from to lo hi : Z) : Prop :=
  ∀ r, from <= r < to → ∃ k, lo <= k < hi ∧ ∀ idx, item a (r :: idx) = inject_Z k.

(** Every entry of the rows from [from] on is 0. *)
Definition blank_from (a : ndarray) (from : Z) : Prop :=
  ∀ r idx, from <= r → item a (r :: idx) = 0%Q.

(** The arrays of [d'] are those of [d] but for their row [c]. *)
Definition rows_kept (c : Z) (d d' : gmap string ndarray) : Prop :=
  ∀ key a', d' !! key = Some a' →
            ∃ a, d !! key = Some a ∧
                 ∀ r idx, r ≠ c → item a' (r :: idx) = item a (r :: idx).

(** Row [r] of the dataset is a positive sample of a catalogue of [n] records:
    its class is 1 and its cluster is the number of a record. *)
Definition positive_row (d : gmap string ndarray) (n : Z) (r : Z) : Prop :=
  ∃ class cluster k,
    d !! "class" = Some class ∧ d !! "cluster" = Some cluster ∧
    item class [r] = 1%Q ∧ 0 <= k < n ∧ item cluster [r] = inject_Z k.

(** Row [r] of the dataset is a negative sample: its class is 0, its cluster is
    none of the [n] records, and its source map is empty. *)
Definition negative_row (d : gmap string ndarray) (n : Z) (r : Z) : Prop :=
  ∃ class cluster sourcemap k,
    d !! "class" = Some class ∧ d !! "cluster" = Some cluster ∧
    d !! "sourcemap" = Some sourcemap ∧
    item class [r] = 0%Q ∧ n <= k ∧ item cluster [r] = inject_Z k ∧
    ∀ idx, item sourcemap (r :: idx) = 0%Q.

(** The argument [freq_points_f] was left out or is an [int]. *)
Definition no_table (freq_points_f : freq_points) : Prop :=
  match freq_points_f with FreqArray _ => False | _ => True end.

(** While the loop over the catalogue runs: the rows below the counter carry
    the number of a record below [hi], and the rows of the source map from the
    counter on are empty. *)
Definition source_rows {G : Type} (class : option ndarray) (n_points hi : Z)
    (st : locals G) : Prop :=
  0 <= sample_counter st <= n_points ∧
  data st !! "class" = class ∧
  (∃ rest, shape <$> data st !! "image" = Some (n_points :: rest)) ∧
  (∀ a, data st !! "sourcemap" = Some a → blank_from a (sample_counter st)) ∧
  (∀ a, data st !! "cluster" = Some a → labelled a 0 (sample_counter st) 0 hi).

(** While the [while] loop runs: the first [n_sources] rows are as the loop over
    the [n_records] records left them, the rows after them carry a number from
    [n_records] up to [hi], and their rows of the source map are empty. *)
Definition empty_rows {G : Type} (class : option ndarray)
    (n_points n_sources n_records hi : Z) (st : locals G) : Prop :=
  n_sources <= sample_counter st <= n_points ∧
  data st !! "class" = class ∧
  (∃ rest, shape <$> data st !! "image" = Some (n_points :: rest)) ∧
  (∀ a, data st !! "sourcemap" = Some a → blank_from a n_sources) ∧
  (∀ a, data st !! "cluster" = Some a →
        labelled a 0 n_sources 0 n_records ∧
        labelled a n_sources (sample_counter st) n_records hi).

(** *** What is stored in the segmentation volume *)

(** The index of the stamp that [DOK.__setitem__] reads for a key of the block
    it writes: the offset from the start of the block, and 0 on an axis of the
    stamp of extent 1. *)
Fixpoint stamp_index (shape : list Z) (ranges : list (Z * Z)) (key : list Z) : list Z :=
  match shape, ranges, key with
  | n :: shape, (start, _) :: ranges, k :: key =>
      (if bool_decide (n = 1) then 0 else k - start) :: stamp_index shape ranges key
  | _, _, _ => []
  end.

Section stored.

Variable cross_section : catalog_row → Z → Z → Z → Q.
Variable min_axis_pixels : Q.

(** The entry of the clipped stamp of a row that belongs to a key of the cube. *)
Definition painted_value (cube_shape : list Z) (row : catalog_row) (key : list Z)
  : option Q :=
  small_dense_cube ← dense_cube cross_section row;
  let coords := [x row; y row; z row] in
  let spans := get_spans cube_shape (shape small_dense_cube) coords in
  let centers := Np.int_half <$> shape small_dense_cube in
  small ← getslice small_dense_cube (span_slices centers spans);
  Some (item small (stamp_index (shape small)
                                (slice_ranges cube_shape (span_slices coords spans)) key)).

(** The stamp of extent [side × side × depth] around the row lies within the
    cube of the header. *)
Definition interior (h : header) (row : catalog_row) (side depth : Z) : Prop :=
  Np.int_half side <= x row < NAXIS1 h - Np.int_half side ∧
  Np.int_half side <= y row < NAXIS2 h - Np.int_half side ∧
  Np.int_half depth <= z row < NAXIS3 h - Np.int_half depth.

End stored.

(** A stand-in for the rasteriser that sets the centre pixel of the square and
    no other. *)
Definition centre_pixel (row : catalog_row) (side i j : Z) : Q :=
  if bool_decide (i = side ÷ 2 ∧ j = side ÷ 2) then 1%Q else 0%Q.

(** *** The state of numpy's generator in [create_data_set] *)

(** The local variables in a process whose global generator is in the state
    [g]. *)
Definition with_state {G : Type} (g : G) (st : locals G) : locals G :=
  Locals (data st) (sample_counter st) (cluster st) (rnd st) g.

(** *** The windows recorded in the dataset *)

(** Row [r] of the [position] array holds the windows [f], [x] and [y]. *)
Definition position_row (a : ndarray) (r : Z) (f x y : Z * Z) : Prop :=
  item a [r; 0; 0] = inject_Z f.1 ∧ item a [r; 0; 1] = inject_Z f.2 ∧
  item a [r; 1; 0] = inject_Z x.1 ∧ item a [r; 1; 1] = inject_Z x.2 ∧
  item a [r; 2; 0] = inject_Z y.1 ∧ item a [r; 2; 1] = inject_Z y.2.

(** A patch of [freq_band] channels and [side_length × side_length] pixels
    whose two spatial windows lie in an image plane of [s1 × s2] pixels. *)
Definition patch (freq_band side_length s1 s2 : Z) (f x y : Z * Z) : Prop :=
  window_length f = freq_band ∧
  window_length x = side_length ∧ within 0 s1 x ∧
  window_length y = side_length ∧ within 0 s2 y.

(** The frequency window lies in a cube of [s0] channels. *)
Definition in_band (s0 : Z) (f : Z * Z) : Prop := 0 <= f.1 ∧ f.2 <= s0.

(** Row [r] of the [image] array holds the entries of the cube in the windows
    [f], [x] and [y]. *)
Definition image_row (hi_data : cube) (freq_band side_length : Z) (a : ndarray) (r : Z)
    (f x y : Z * Z) : Prop :=
  ∀ i j k, 0 <= i < freq_band → 0 <= j < side_length → 0 <= k < side_length →
           item a [r; i; j; k] = cube_item hi_data (f.1 + i) (x.1 + j) (y.1 + k).

(** Row [r] of the [sourcemap] array holds, pixel by pixel, the number of
    marked voxels of the label volume along the frequency window [f]. *)
Definition label_row (sourcemap : volume) (side_length : Z) (a : ndarray) (r : Z)
    (f x y : Z * Z) : Prop :=
  ∀ j k, 0 <= j < side_length → 0 <= k < side_length →
         item a [r; j; k]
         = inject_Z (zsum ((fun i => vol_item sourcemap (i, x.1 + j, y.1 + k))
                             <$> zrange f.1 f.2)).

(** Row [r] of the dataset is a sample cut out of the cube: it records a patch,
    and when the frequency window of the patch lies in the cube its image is
    the cube in the patch and its source map is the label volume in the patch,
    summed over the frequency axis. *)
Definition sample_row (hi_data : cube) (sourcemap : volume)
    (freq_band side_length s0 s1 s2 : Z) (d : gmap string ndarray) (r : Z) : Prop :=
  ∃ f x y,
    patch freq_band side_length s1 s2 f x y ∧
    (∀ a, d !! "position" = Some a → position_row a r f x y) ∧
    (in_band s0 f →
     (∀ a, d !! "image" = Some a → image_row hi_data freq_band side_length a r f x y) ∧
     (∀ a, d !! "sourcemap" = Some a → label_row sourcemap side_length a r f x y)).

(** While the loops run: every row below the counter is such a sample, and the
    rows of the source map from the counter on are empty. *)
Definition sample_rows {G : Type} (hi_data : cube) (sourcemap : volume)
    (freq_band side_length s0 s1 s2 n_points : Z) (st : locals G) : Prop :=
  0 <= sample_counter st <= n_points ∧
  (∃ rest, shape <$> data st !! "image" = Some (n_points :: rest)) ∧
  (∀ a, data st !! "sourcemap" = Some a → blank_from a (sample_counter st)) ∧
  ∀ r, 0 <= r < sample_counter st →
       sample_row hi_data sourcemap freq_band side_length s0 s1 s2 (data st) r.

(** The label volume of a catalogue: a 0 or a 1 at every voxel. *)
Definition marks (sourcemap : volume) : Prop :=
  ∀ key, vol_item sourcemap key = 0 ∨ vol_item sourcemap key = 1.

(** * Proofs *)

(** ** The boundary clamp *)

Section clamp.
Implicit Types (a : list window) (w : window) (hits : list nat).

Lemma elem_of_where_rows test a j :
  j ∈ where_rows test a ↔ ∃ w, a !! j = Some w ∧ (test w.1 || test w.2) = true.
Proof.
  unfold where_rows. rewrite list_elem_of_join. split.
  - intros (l & Hj & Hl). apply elem_of_lookup_imap in Hl as (k & w & -> & Hk).
    assert (j = k ∧ (test w.1 || test w.2) = true) as [-> Ht].
    { destruct (test w.1), (test w.2); simpl in Hj;
        repeat (apply elem_of_cons in Hj as [Hj | Hj]); try done;
        by apply elem_of_nil in Hj. }
    eauto.
  - intros (w & Hw & Ht). eexists. split; [| by eapply elem_of_lookup_imap_2].
    destruct (test w.1), (test w.2); simpl in *; try done; by left.
Qed.

Lemma foldl_insert_miss hits (x : window) a j :
  j ∉ hits → foldl (fun acc k => <[k := x]> acc) a hits !! j = a !! j.
Proof.
  revert a. induction hits as [| k hits IH]; intros a Hj; cbn [foldl]; [done |].
  apply not_elem_of_cons in Hj as [Hne Hj].
  rewrite IH by done. by apply list_lookup_insert_ne.
Qed.

Lemma foldl_insert_hit hits (x : window) a j :
  j ∈ hits → (j < length a)%nat →
  foldl (fun acc k => <[k := x]> acc) a hits !! j = Some x.
Proof.
  revert a. induction hits as [| k hits IH]; intros a Hj Hlt; cbn [foldl].
  - by apply elem_of_nil in Hj.
  - destruct (decide (j ∈ hits)) as [Hin | Hout].
    + apply IH; [done |]. by rewrite length_insert.
    + apply elem_of_cons in Hj as [-> | Hj]; [| done].
      rewrite foldl_insert_miss by done. by apply list_lookup_insert_eq.
Qed.

Lemma shift_rows_lookup test place a j :
  shift_rows (where_rows test a) place a !! j =
    (fun w => if test w.1 || test w.2 then place (first_length a) else w) <$> a !! j.
Proof.
  unfold shift_rows, first_length, window_length.
  destruct (where_rows test a) as [| k hits] eqn:Hh.
  - destruct (a !! j) as [w |] eqn:Hw; [| done]. simpl.
    destruct (test w.1 || test w.2) eqn:Ht; [| done].
    assert (j ∈ where_rows test a) as Hin by (apply elem_of_where_rows; eauto).
    rewrite Hh in Hin. by apply elem_of_nil in Hin.
  - destruct (a !! 0%nat) as [w0 |] eqn:H0.
    + rewrite <- Hh.
      destruct (a !! j) as [w |] eqn:Hw; simpl.
      * destruct (test w.1 || test w.2) eqn:Ht.
        -- apply foldl_insert_hit; [| by eapply lookup_lt_Some].
           apply elem_of_where_rows; eauto.
        -- rewrite foldl_insert_miss; [done |]. intros Hin.
           apply elem_of_where_rows in Hin as (w' & Hw' & Ht'). congruence.
      * rewrite foldl_insert_miss; [done |]. intros Hin.
        apply elem_of_where_rows in Hin as (w' & Hw' & _). congruence.
    + destruct a; [done | discriminate].
Qed.

Lemma shift_rows_length hits place a : length (shift_rows hits place a) = length a.
Proof.
  unfold shift_rows. destruct hits as [| k hits]; [done |].
  destruct (a !! 0%nat); [| done].
  generalize (k :: hits). intros l. revert a.
  induction l as [| i l IH]; intros a; simpl; [done |].
  by rewrite IH, length_insert.
Qed.

Lemma inside_axis_length a mn mx : length (inside_axis a mn mx) = length a.
Proof. unfold inside_axis. by rewrite !shift_rows_length. Qed.

Lemma first_length_uniform a len :
  Forall (fun w => window_length w = len) a → a ≠ [] → first_length a = len.
Proof.
  intros Ha Hne. unfold first_length. destruct a as [| w0 a]; [done |]. simpl.
  by inversion Ha.
Qed.

(** On a uniform axis each window is moved as a whole. *)
Lemma inside_axis_uniform_lookup a mn mx len j w :
  0 <= len < mx - mn →
  Forall (fun w => window_length w = len) a →
  a !! j = Some w →
  inside_axis a mn mx !! j = Some (moved mn mx len w).
Proof.
  intros Hlen Ha Hw. unfold inside_axis.
  set (a1 := shift_rows _ _ a).
  assert (Hne : a ≠ []) by (intros ->; done).
  assert (H1 : ∀ k x, a !! k = Some x →
                      a1 !! k = Some (if x.1 <? mn then (mn, mn + len) else x)).
  { intros k x Hx. unfold a1. rewrite shift_rows_lookup, Hx.
    rewrite (first_length_uniform a len Ha Hne). simpl. f_equal.
    pose proof (proj1 (Forall_lookup _ _) Ha k x Hx) as Hl. simpl in Hl.
    unfold window_length in Hl.
    destruct (x.1 <? mn) eqn:E1, (x.2 <? mn) eqn:E2; simpl; try done; lia. }
  assert (Ha1 : Forall (fun w => window_length w = len) a1).
  { apply Forall_lookup. intros k u Hu.
    destruct (a !! k) as [x |] eqn:Hx.
    - rewrite (H1 k x Hx) in Hu. injection Hu as <-.
      pose proof (proj1 (Forall_lookup _ _) Ha k x Hx) as Hl. simpl in Hl.
      unfold window_length in *. destruct (x.1 <? mn); simpl; lia.
    - apply lookup_ge_None in Hx. apply lookup_lt_Some in Hu.
      unfold a1 in Hu. rewrite shift_rows_length in Hu. lia. }
  assert (Hne1 : a1 ≠ []).
  { intros E. apply (f_equal length) in E. unfold a1 in E.
    rewrite shift_rows_length in E. by destruct a. }
  rewrite shift_rows_lookup, (first_length_uniform a1 len Ha1 Hne1).
  rewrite (H1 j w Hw). simpl. f_equal. unfold moved.
  pose proof (proj1 (Forall_lookup _ _) Ha j w Hw) as Hl. simpl in Hl.
  unfold window_length in Hl.
  destruct (w.1 <? mn) eqn:E1; simpl.
  - destruct (mx <=? mn) eqn:E2, (mx <=? mn + len) eqn:E3; simpl; try done; lia.
  - destruct (mx <=? w.1) eqn:E2, (mx <=? w.2) eqn:E3; simpl; try done; lia.
Qed.

Lemma moved_within mn mx len w :
  0 <= len < mx - mn → window_length w = len →
  window_length (moved mn mx len w) = len ∧ within mn mx (moved mn mx len w).
Proof.
  unfold moved, window_length, within. intros Hlen Hw.
  destruct (w.1 <? mn) eqn:E1; [simpl; lia |].
  destruct (mx <=? w.2) eqn:E2; simpl; lia.
Qed.

Lemma inside_box_lookup points min_values max_values out i b :
  inside_box points min_values max_values = Some out →
  out !! i = Some b →
  ∃ a mn mx, points !! i = Some a ∧ min_values !! i = Some mn ∧
             max_values !! i = Some mx ∧ b = inside_axis a mn mx.
Proof.
  unfold inside_box. intros Hm Hb. apply mapM_Some_1 in Hm.
  destruct (Forall2_lookup_r _ _ _ _ _ Hm Hb) as ([k a] & Hz & Hf).
  apply lookup_zip_with_Some in Hz as (k' & a' & [= <- <-] & Hk & Ha).
  apply lookup_seq in Hk as [-> _]. simpl in Hf.
  destruct (min_values !! i) as [mn |]; [| done]. simpl in Hf.
  destruct (max_values !! i) as [mx |]; [| done]. simpl in Hf.
  injection Hf as <-. eauto 10.
Qed.

(** [inside_box] raises nothing when both bound lists cover every axis. *)
Lemma inside_box_total points min_values max_values :
  (length points <= length min_values)%nat →
  (length points <= length max_values)%nat →
  is_Some (inside_box points min_values max_values).
Proof.
  intros Hmin Hmax. unfold inside_box. apply mapM_is_Some_2.
  apply Forall_forall. intros [i a] Hin%list_elem_of_In.
  apply elem_of_zip_l in Hin as Hi. apply elem_of_seq in Hi. simpl.
  destruct (lookup_lt_is_Some_2 min_values i) as [mn ->]; [lia |].
  destruct (lookup_lt_is_Some_2 max_values i) as [mx ->]; [lia |].
  simpl. eauto.
Qed.

End clamp.

(** C3, as amended: when on every axis all windows share one length, which is not
    negative and smaller than [max - min], and both bound lists cover every axis,
    [inside_box] returns windows in place of the given ones, each of the length
    of the window it replaces and with both bounds in [[min, max)]. *)
Theorem inside_box_uniform_clamped points min_values max_values :
  uniform_windows points min_values max_values →
  (length points <= length min_values)%nat →
  (length points <= length max_values)%nat →
  ∃ out, inside_box points min_values max_values = Some out ∧
         Forall2 (fun a b => length b = length a) points out ∧
         clamped points min_values max_values out.
Proof.
  intros Hu Hmin Hmax.
  destruct (inside_box_total points min_values max_values Hmin Hmax) as [out Hout].
  exists out. split; [done |]. split.
  - apply Forall2_same_length_lookup_2.
    + unfold inside_box in Hout. apply length_mapM in Hout.
      rewrite length_zip_with, length_seq in Hout. lia.
    + intros i a b Ha Hb.
      destruct (inside_box_lookup _ _ _ _ _ _ Hout Hb) as (a' & mn & mx & Ha' & _ & _ & ->).
      rewrite Ha in Ha'. injection Ha' as <-. apply inside_axis_length.
  - intros i j a b w v mn mx Ha Hb Hmn Hmx Hw Hv.
    destruct (inside_box_lookup _ _ _ _ _ _ Hout Hb) as (a' & mn' & mx' & Ha' & Hmn' & Hmx' & ->).
    simplify_eq.
    destruct (Hu i a mn mx Ha Hmn Hmx) as (len & Hlen & Hall).
    rewrite (inside_axis_uniform_lookup a mn mx len j w Hlen Hall Hw) in Hv.
    injection Hv as <-.
    pose proof (proj1 (Forall_lookup _ _) Hall j w Hw) as Hl. simpl in Hl.
    rewrite Hl. by apply moved_within.
Qed.

Lemma inside_box_uniform_clamped_witness :
  ∃ out, inside_box [[(-3, 2); (8, 13); (4, 9)]; [(0, 5); (-1, 4); (7, 12)]] [0; 0] [10; 12]
         = Some out ∧
         Forall2 (fun a b => length b = length a)
                 [[(-3, 2); (8, 13); (4, 9)]; [(0, 5); (-1, 4); (7, 12)]] out ∧
         clamped [[(-3, 2); (8, 13); (4, 9)]; [(0, 5); (-1, 4); (7, 12)]] [0; 0] [10; 12] out.
Proof.
  apply (inside_box_uniform_clamped
           [[(-3, 2); (8, 13); (4, 9)]; [(0, 5); (-1, 4); (7, 12)]] [0; 0] [10; 12]).
  - intros i a mn mx. destruct i as [| [| i]]; simpl; try discriminate;
      intros [= <-] [= <-] [= <-]; exists 5; (split; [lia | repeat constructor]).
  - simpl. lia.
  - simpl. lia.
Defined.

(** C3 as it is worded fails: the length written into a moved window is that of
    the first window of the axis, so a window of another length changes length. *)
Lemma inside_box_mixed_lengths :
  inside_box [[(0, 5); (-1, 1)]] [0] [100] = Some [[(0, 5); (0, 5)]] ∧
  ¬ clamped [[(0, 5); (-1, 1)]] [0] [100] [[(0, 5); (0, 5)]].
Proof.
  split; [reflexivity |]. intros H.
  destruct (H 0%nat 1%nat [(0, 5); (-1, 1)] [(0, 5); (0, 5)] (-1, 1) (0, 5) 0 100
              eq_refl eq_refl eq_refl eq_refl eq_refl eq_refl) as [Hlen _].
  vm_compute in Hlen. discriminate.
Qed.

(** A window longer than the box is pushed below the minimum by the second block. *)
Example inside_box_long_window :
  inside_box [[(-1, 9)]] [0] [5] = Some [[(-6, 4)]] ∧
  ¬ clamped [[(-1, 9)]] [0] [5] [[(-6, 4)]].
Proof.
  split; [reflexivity |]. intros H.
  destruct (H 0%nat 0%nat [(-1, 9)] [(-6, 4)] (-1, 9) (-6, 4) 0 5
              eq_refl eq_refl eq_refl eq_refl eq_refl eq_refl) as [_ [[Hlo _] _]].
  simpl in Hlo. lia.
Qed.

(** A window whose upper bound is below its lower bound is not repaired either. *)
Example inside_box_negative_length :
  inside_box [[(-1, -3)]] [0] [10] = Some [[(0, -2)]].
Proof. reflexivity. Qed.

(** ** Window placement at the cube edge *)

Lemma trunc_nonpos q : (q <= 0)%Q → Np.trunc q <= 0.
Proof.
  intros H. unfold Np.trunc. unfold Qle in H. simpl in H.
  assert (Qnum q <= 0) as Hn by lia.
  rewrite <- (Z.opp_involutive (Qnum q)). rewrite Z.quot_opp_l by lia.
  pose proof (Z.quot_pos (- Qnum q) (Z.pos (Qden q))). lia.
Qed.

Lemma trunc_nonneg q : (0 <= q)%Q → 0 <= Np.trunc q.
Proof.
  intros H. unfold Np.trunc. unfold Qle in H. simpl in H. apply Z.quot_pos; lia.
Qed.

Lemma int_half_quot n : Np.int_half n = Z.quot n 2.
Proof. unfold Np.int_half, Np.trunc. simpl. by rewrite Z.mul_1_r. Qed.

Lemma int_half_nonneg n : 0 <= n → 0 <= Np.int_half n.
Proof. intros H. rewrite int_half_quot. apply Z.quot_pos; lia. Qed.

(** A draw below 1 puts the lower bound of a window centred at 0 at or below 0. *)
Lemma edge_draw r h :
  (0 <= r < 1)%Q → 0 <= h →
  (r * 2 * inject_Z (h - 0) + inject_Z 0 - inject_Z h - inject_Z (h - 0) <= 0)%Q.
Proof.
  intros [H0 H1] Hh. rewrite Z.sub_0_r.
  assert (0 <= inject_Z h)%Q as Hx by (unfold Qle; simpl; lia).
  generalize dependent (inject_Z h). intros x Hx.
  change (inject_Z 0) with 0%Q. nra.
Qed.

Lemma inside_axis_edge a total_length mx :
  0 <= total_length < mx →
  Forall (fun w : window => w.1 <= 0 ∧ w.2 = w.1 + total_length) a →
  Forall (fun w : window => w.1 = 0 ∧ window_length w = total_length)
         (inside_axis a 0 mx).
Proof.
  intros Hlen Ha. apply Forall_lookup. intros j v Hv.
  assert (Hall : Forall (fun w => window_length w = total_length) a).
  { eapply List.Forall_impl; [| exact Ha]. unfold window_length. intros w [_ ->]. lia. }
  destruct (a !! j) as [w |] eqn:Hw.
  - rewrite (inside_axis_uniform_lookup a 0 mx total_length j w) in Hv; [| lia | done..].
    injection Hv as <-.
    destruct (proj1 (Forall_lookup _ _) Ha j w Hw) as [Hlo Hhi].
    unfold moved, window_length.
    destruct (w.1 <? 0) eqn:E1; [simpl; lia |].
    destruct (mx <=? w.2) eqn:E2; simpl; lia.
  - apply lookup_ge_None in Hw. apply lookup_lt_Some in Hv.
    rewrite inside_axis_length in Hv. lia.
Qed.

(** C9, as amended: with the centre at (0, 0), no precaution, minimum bounds
    [[0, 0]], draws in [[0, 1)], a side length that is not negative and maximum
    bounds all greater than the side length, [random_center_box] returns, on
    every axis, one window per draw, each starting at 0 and of the side length. *)
Theorem random_center_box_edge rdn total_length max_values :
  unit_draws rdn →
  (Np.cols rdn <= 2)%nat →
  (Np.cols rdn <= length max_values)%nat →
  0 <= total_length →
  Forall (fun mx => total_length < mx) max_values →
  ∃ out, random_center_box rdn total_length [0; 0] 0 [0; 0] max_values = Some out ∧
         length out = Np.cols rdn ∧
         Forall (fun a => length a = Np.rows rdn) out ∧
         at_edge total_length out.
Proof.
  intros Hdraw Hdim Hmax Hlen Hbound. unfold random_center_box.
  set (f := fun i : nat => _).
  set (mk := fun i : nat =>
     (fun r => let lo := Np.trunc (r * 2 * inject_Z (Np.int_half total_length - 0)
                                   + inject_Z 0 - inject_Z (Np.int_half total_length)
                                   - inject_Z (Np.int_half total_length - 0))%Q in
               (lo, lo + total_length)) <$> Np.column rdn i).
  assert (Hcoord : mapM f (seq 0 (Np.cols rdn)) = Some (mk <$> seq 0 (Np.cols rdn))).
  { apply mapM_Some_2. apply Forall2_fmap_r, Forall_Forall2_diag.
    apply Forall_forall. intros i Hi%list_elem_of_In%elem_of_seq. unfold f.
    destruct i as [| [| i]]; simpl; [done | done | lia]. }
  rewrite Hcoord. simpl.
  set (coord := mk <$> seq 0 (Np.cols rdn)).
  assert (Hcl : length coord = Np.cols rdn) by (unfold coord; by rewrite length_fmap, length_seq).
  destruct (inside_box_total coord [0; 0] max_values) as [out Hout];
    [simpl; lia | lia |].
  exists out. split; [done |].
  assert (Hol : length out = Np.cols rdn).
  { unfold inside_box in Hout. apply length_mapM in Hout.
    rewrite length_zip_with, length_seq in Hout. lia. }
  split; [done |].
  assert (Hax : ∀ i b, out !! i = Some b →
            ∃ mx, max_values !! i = Some mx ∧ b = inside_axis (mk i) 0 mx).
  { intros i b Hb.
    destruct (inside_box_lookup _ _ _ _ _ _ Hout Hb) as (a & mn & mx & Ha & Hmn & Hmx & ->).
    unfold coord in Ha. rewrite list_lookup_fmap in Ha.
    destruct (seq 0 (Np.cols rdn) !! i) as [k |] eqn:Hk; [| done].
    apply lookup_seq in Hk as [-> _]. injection Ha as <-.
    destruct i as [| [| i]]; simpl in Hmn; try discriminate;
      injection Hmn as <-; eauto. }
  split.
  - apply Forall_lookup. intros i b Hb. destruct (Hax i b Hb) as (mx & _ & ->).
    rewrite inside_axis_length. unfold mk, Np.column.
    by rewrite !length_fmap, length_seq.
  - apply Forall_lookup. intros i b Hb. destruct (Hax i b Hb) as (mx & Hmx & ->).
    apply inside_axis_edge.
    + split; [done |]. by apply (proj1 (Forall_lookup _ _) Hbound i mx).
    + unfold mk, Np.column. rewrite <- list_fmap_compose.
      apply Forall_fmap, Forall_forall. intros j Hj%list_elem_of_In%elem_of_seq. simpl.
      split; [| done]. apply trunc_nonpos, edge_draw; [| by apply int_half_nonneg].
      apply Hdraw; [lia |]. apply lookup_lt_Some in Hb. lia.
Qed.

Lemma random_center_box_edge_witness :
  ∃ out, random_center_box (Np.Matrix 2 2 [0; 1 # 4; 1 # 2; 9 # 10]%Q) 5 [0; 0] 0 [0; 0] [8; 9]
         = Some out ∧
         length out = 2%nat ∧
         Forall (fun a => length a = 2%nat) out ∧
         at_edge 5 out.
Proof.
  apply (random_center_box_edge (Np.Matrix 2 2 [0; 1 # 4; 1 # 2; 9 # 10]%Q) 5 [8; 9]).
  - intros j i Hj Hi. simpl in Hj, Hi.
    destruct j as [| [| j]]; [| | lia]; (destruct i as [| [| i]]; [| | lia]);
      vm_compute; split; congruence.
  - simpl. lia.
  - simpl. lia.
  - lia.
  - repeat constructor.
Defined.

(** C9 as it is worded fails: a side length above the maximum bound has no place
    in the box, and the second block of [inside_box] moves the window to end at
    [max - 1], so that it starts below 0. *)
Lemma random_center_box_edge_large_side :
  random_center_box (Np.Matrix 1 2 [1 # 2; 1 # 2]%Q) 6 [0; 0] 0 [0; 0] [4; 4]
    = Some [[(-3, 3)]; [(-3, 3)]] ∧
  ¬ at_edge 6 [[(-3, 3)]; [(-3, 3)]].
Proof.
  split; [reflexivity |]. intros H.
  inversion H as [| a l Ha _]. inversion Ha as [| w l' [Hw _] _].
  simpl in Hw. lia.
Qed.

(** The same happens when the side length is the maximum bound: the window
    [[0, 4)] of a box of 4 pixels is moved to [[-1, 3)]. *)
Example random_center_box_edge_full_side :
  random_center_box (Np.Matrix 1 2 [1 # 2; 1 # 2]%Q) 4 [0; 0] 0 [0; 0] [4; 4]
    = Some [[(-1, 3)]; [(-1, 3)]].
Proof. reflexivity. Qed.

(** A side length below 0 leaves a window that starts above 0 untouched. *)
Example random_center_box_negative_side :
  random_center_box (Np.Matrix 1 2 [0; 0]%Q) (-2) [0; 0] 0 [0; 0] [10; 10]
    = Some [[(2, 0)]; [(2, 0)]].
Proof. reflexivity. Qed.

(** ** Spans and stamps *)

Lemma get_span_min p full_length small_length :
  get_span p full_length small_length =
    (Z.min p (Z.quot small_length 2), Z.min (full_length - p) (Z.quot small_length 2) + 1).
Proof.
  unfold get_span. rewrite int_half_quot.
  repeat case_bool_decide; f_equal; lia.
Qed.

(** The lower end of the destination range never leaves the cube, and the upper
    end exceeds it by one exactly when the stamp reaches the last index. *)
Lemma get_span_range p full_length small_length :
  0 <= p <= full_length → 0 <= small_length →
  let s := get_span p full_length small_length in
  0 <= p - s.1 ∧ p + s.2 <= full_length + 1 ∧
  (p + s.2 <= full_length ↔ p + Z.quot small_length 2 < full_length).
Proof.
  intros Hp Hs. rewrite get_span_min. simpl.
  assert (0 <= Z.quot small_length 2) by (apply Z.quot_pos; lia). lia.
Qed.

Lemma get_span_range_witness :
  0 <= 9 - (get_span 9 10 3).1 ∧ 9 + (get_span 9 10 3).2 <= 10 + 1 ∧
  (9 + (get_span 9 10 3).2 <= 10 ↔ 9 + Z.quot 3 2 < 10).
Proof. apply (get_span_range 9 10 3); lia. Defined.

(** C5 at a source on the last index of every axis: the destination range of a
    3-voxel stamp is [[8, 11)] in a cube of 10 voxels. *)
Theorem get_spans_overrun :
  get_spans [10; 10; 10] [3; 3; 3] [9; 9; 9] = [(1, 2); (1, 2); (1, 2)] ∧
  span_slices [9; 9; 9] (get_spans [10; 10; 10] [3; 3; 3] [9; 9; 9])
    = [(8, 11); (8, 11); (8, 11)] ∧
  ¬ spans_in_cube [10; 10; 10] [9; 9; 9] (get_spans [10; 10; 10] [3; 3; 3] [9; 9; 9]).
Proof.
  split; [reflexivity |]. split; [reflexivity |]. intros H.
  destruct (H 0%nat 9 10 (1, 2) eq_refl eq_refl eq_refl) as [_ Hup].
  simpl in Hup. lia.
Qed.

Lemma odd_mod2 m : Z.odd m = true ↔ m mod 2 = 1.
Proof. rewrite Zmod_odd. destruct (Z.odd m); split; (done || lia). Qed.

(** Forcing a number odd the way [dense_cube] does gives the next odd integer. *)
Lemma force_odd_next n :
  next_odd n (if bool_decide (n mod 2 = 0) then n + 1 else n).
Proof.
  unfold next_odd. rewrite odd_mod2.
  case_bool_decide as Hn.
  - split; [| split; [lia |]].
    + rewrite Z.add_mod by lia. rewrite Hn. reflexivity.
    + intros k Hk%odd_mod2 Hle.
      destruct (decide (k = n)) as [-> | Hne]; [lia | lia].
  - split; [| split; [lia | intros; lia]].
    pose proof (Z.mod_pos_bound n 2). lia.
Qed.

Lemma next_odd_unique n m m' : next_odd n m → next_odd n m' → m = m'.
Proof.
  intros (Ho & Hle & Hmin) (Ho' & Hle' & Hmin').
  pose proof (Hmin m' Ho' Hle'). pose proof (Hmin' m Ho Hle). lia.
Qed.

Lemma py_max_upper a b : (a <= py_max a b)%Q ∧ (b <= py_max a b)%Q.
Proof.
  unfold py_max. destruct (a ?= b)%Q eqn:E.
  - apply Qeq_alt in E. split; [apply Qle_refl |]. rewrite E. apply Qle_refl.
  - apply Qlt_alt in E. split; [by apply Qlt_le_weak | apply Qle_refl].
  - apply Qgt_alt in E. split; [apply Qle_refl | by apply Qlt_le_weak].
Qed.

Lemma py_max_one_of a b : py_max a b = a ∨ py_max a b = b.
Proof. unfold py_max. destruct (a ?= b)%Q; auto. Qed.

Lemma round_nonneg q : (0 <= q)%Q → 0 <= Np.round q.
Proof.
  intros Hq. unfold Np.round.
  assert (0 <= Qfloor q) as Hf by (change 0 with (Qfloor 0); by apply Qfloor_resp_le).
  destruct (_ ?= _)%Q; [destruct (Z.even _) | |]; lia.
Qed.

(** [np.round] is within one half of its argument. *)
Lemma round_near q : (Qabs (q - inject_Z (Np.round q)) <= 1 # 2)%Q.
Proof.
  unfold Np.round.
  pose proof (Qfloor_le q) as Hlo. pose proof (Qlt_floor q) as Hhi.
  rewrite inject_Z_plus in Hhi. change (inject_Z 1) with 1%Q in Hhi.
  apply Qabs_Qle_condition.
  destruct (_ ?= _)%Q eqn:E.
  - apply Qeq_alt in E. destruct (Z.even _).
    + rewrite E. split; done.
    + rewrite inject_Z_plus. change (inject_Z 1) with 1%Q. split; lra.
  - apply Qlt_alt in E. split; lra.
  - apply Qgt_alt in E. rewrite inject_Z_plus. change (inject_Z 1) with 1%Q.
    split; lra.
Qed.

Example round_ties :
  Np.round (1 # 2) = 0 ∧ Np.round (3 # 2) = 2 ∧ Np.round (5 # 2) = 2 ∧
  Np.round (-3 # 2) = -2 ∧ Np.round (27 # 10) = 3.
Proof. repeat split. Qed.

(** C8: for a row whose channel depth and radii are not negative, [dense_cube]
    returns a stamp of shape [(side, side, channels)] where [side] is the next
    odd integer at or after [round(2 * max(major, minor))], raised to 3 when it
    is smaller, hence odd and at least 3, and [channels] is the next odd integer
    at or after [round(n_channels)], hence odd and at least 1. *)
Theorem dense_cube_shape cross_section row :
  (0 <= n_channels row)%Q →
  (0 <= major_radius_pixels row)%Q →
  (0 <= minor_radius_pixels row)%Q →
  ∃ stamp side channels m,
    dense_cube cross_section row = Some stamp ∧
    shape stamp = [side; side; channels] ∧
    next_odd (Np.round (2 * py_max (major_radius_pixels row) (minor_radius_pixels row))) m ∧
    side = Z.max 3 m ∧
    Z.odd side = true ∧ 3 <= side ∧
    next_odd (Np.round (n_channels row)) channels ∧
    1 <= channels.
Proof.
  intros Hn Hmaj Hmin. unfold dense_cube.
  set (r := Np.round (2 * _)%Q). set (c := Np.round (n_channels row)).
  set (m := if bool_decide (r mod 2 = 0) then r + 1 else r).
  assert (Hc : 0 <= c) by by apply round_nonneg.
  assert (Hr : 0 <= r).
  { apply round_nonneg. pose proof (py_max_upper (major_radius_pixels row)
                                      (minor_radius_pixels row)) as [H1 _]. lra. }
  pose proof (force_odd_next r) as Hm. fold m in Hm.
  pose proof (force_odd_next c) as Hch.
  assert (Hc' : c + (if bool_decide (c mod 2 = 0) then 1 else 0)
                = if bool_decide (c mod 2 = 0) then c + 1 else c)
    by (case_bool_decide; lia).
  rewrite Hc'. set (ch := if bool_decide (c mod 2 = 0) then c + 1 else c) in *.
  destruct Hch as (Hodd & Hle & Hleast).
  rewrite bool_decide_eq_false_2 by lia.
  eexists _, (Z.max 3 m), ch, m. split; [reflexivity |]. simpl.
  split; [done |]. split; [done |]. split; [done |].
  destruct Hm as (Hmo & Hml & _).
  split; [| split; [lia | split; [done |]]].
  - destruct (Z.max_spec 3 m) as [[_ ->] | [_ ->]]; done.
  - apply odd_mod2 in Hodd. destruct (decide (ch = 0)) as [E | E]; [| lia].
    rewrite E in Hodd. done.
Qed.

Lemma dense_cube_shape_witness :
  ∃ stamp side channels m,
    dense_cube (fun _ _ _ _ => 1%Q) (CatalogRow 10 10 10 1 1 1 0) = Some stamp ∧
    shape stamp = [side; side; channels] ∧
    next_odd (Np.round (2 * py_max 1 1)) m ∧
    side = Z.max 3 m ∧
    Z.odd side = true ∧ 3 <= side ∧
    next_odd (Np.round 1) channels ∧
    1 <= channels.
Proof.
  apply (dense_cube_shape (fun _ _ _ _ => 1%Q) (CatalogRow 10 10 10 1 1 1 0));
    simpl; discriminate.
Defined.

Example dense_cube_sizes :
  shape <$> dense_cube (fun _ _ _ _ => 1%Q) (CatalogRow 0 0 0 (1 # 4) (1 # 5) 0 0)
    = Some [3; 3; 1] ∧
  shape <$> dense_cube (fun _ _ _ _ => 1%Q) (CatalogRow 0 0 0 (9 # 4) 2 (7 # 2) 0)
    = Some [5; 5; 5] ∧
  shape <$> dense_cube (fun _ _ _ _ => 1%Q) (CatalogRow 0 0 0 3 2 6 0)
    = Some [7; 7; 7].
Proof. repeat split. Qed.

(** ** The segmentation volume *)

Lemma for_range_inv {S : Type} (Inv : S → Prop) n start (body : Z → S → option S) s s' :
  Inv s →
  (∀ i t t', start <= i < start + Z.of_nat n → Inv t → body i t = Some t' → Inv t') →
  for_range n start body s = Some s' →
  Inv s'.
Proof.
  revert start s. induction n as [| n IH]; intros start s Hs Hstep Hrun; simpl in Hrun.
  - by injection Hrun as <-.
  - destruct (body start s) as [t |] eqn:Hb; [| done]. simpl in Hrun.
    apply (IH (start + 1) t); [| | done].
    + apply (Hstep start s t); [lia | done..].
    + intros i u u' Hi. apply Hstep. lia.
Qed.

(** An assignment to a block leaves every key outside the block as it was. *)
Lemma setitem_frame ranges key value data data' k :
  setitem ranges key value data = Some data' →
  (∀ suffix, k = key ++ suffix → ¬ in_ranges suffix ranges) →
  data' !! k = data !! k.
Proof.
  revert key value data data'.
  induction ranges as [| [start stop] rest IH]; intros key value data data' Hset Hout.
  - simpl in Hset. case_bool_decide; [done |]. injection Hset as <-.
    assert (key ≠ k) as Hne.
    { intros <-. apply (Hout []); [by rewrite app_nil_r | constructor]. }
    destruct (Qeq_bool _ _); [by apply lookup_delete_ne | by apply lookup_insert_ne].
  - cbn [setitem] in Hset. case_bool_decide; [done |].
    revert Hset. apply (for_range_inv (fun t => t !! k = data !! k)); [done |].
    intros i t t' Hi Ht Hbody.
    destruct (if bool_decide (0 < _) then _ else _) as [vi |]; [| done].
    simpl in Hbody. rewrite <- Ht. apply (IH _ _ _ _ Hbody).
    intros suffix -> Hin. apply (Hout ((start + i) :: suffix)).
    + by rewrite <- app_assoc.
    + constructor; [simpl; lia | done].
Qed.

Lemma Qltb_lt a b : Qltb a b = true ↔ (a < b)%Q.
Proof.
  unfold Qltb. rewrite Qlt_alt. destruct (a ?= b)%Q; split; (done || discriminate).
Qed.

Section volume_facts.

Variable cross_section : catalog_row → Z → Z → Z → Q.
Variable min_axis_pixels : Q.


(** A row writes inside its clipped span only, and a skipped row writes nothing. *)
Lemma paint_frame cube row cube' k :
  paint cross_section min_axis_pixels cube row = Some cube' →
  dok_shape cube' = dok_shape cube ∧
  ((too_small min_axis_pixels row = true ∨
    ∀ ranges, clipped_span cross_section (dok_shape cube) row = Some ranges → ¬ in_ranges k ranges) →
   dok_data cube' !! k = dok_data cube !! k).
Proof.
  unfold paint, clipped_span.
  destruct (too_small min_axis_pixels row) eqn:Hsmall.
  { intros [= <-]. done. }
  destruct (dense_cube cross_section row) as [stamp |]; [| done]. simpl.
  destruct (getslice stamp _) as [small |]; [| done]. simpl.
  unfold dok_setitem. case_bool_decide; [| done].
  destruct (setitem _ _ _ _) as [data' |] eqn:Hset; [| done]. simpl.
  intros [= <-]. simpl. split; [done |].
  intros [? | Hout]; [done |].
  apply (setitem_frame _ _ _ _ _ _ Hset). intros suffix ->. simpl.
  by apply Hout.
Qed.

Lemma for_each_paint_support df cube cube' :
  for_each (paint cross_section min_axis_pixels) cube df = Some cube' →
  dok_shape cube' = dok_shape cube ∧
  ∀ k, is_Some (dok_data cube' !! k) →
       is_Some (dok_data cube !! k) ∨ covered cross_section min_axis_pixels (dok_shape cube) df k.
Proof.
  revert cube. induction df as [| row df IH]; intros cube Hrun; simpl in Hrun.
  - injection Hrun as <-. auto.
  - destruct (paint cross_section min_axis_pixels cube row) as [cube1 |] eqn:Hp; [| done]. simpl in Hrun.
    destruct (IH cube1 Hrun) as [Hshape Hsupp].
    pose proof (paint_frame cube row cube1) as Hframe.
    destruct (Hframe [] Hp) as [Hs1 _]. split; [congruence |].
    intros k Hk. destruct (Hsupp k Hk) as [Hk1 | (r & ranges & Hr & Hbig & Hsp & Hin)].
    + destruct (Hframe k Hp) as [_ Hfr].
      destruct (too_small min_axis_pixels row) eqn:Hsmall.
      { left. rewrite <- Hfr; auto. }
      destruct (clipped_span cross_section (dok_shape cube) row) as [ranges |] eqn:Hsp.
      * destruct (decide (in_ranges k ranges)) as [Hin | Hout].
        -- right. exists row, ranges. split; [by left | done].
        -- left. rewrite <- Hfr; [done |]. right. intros ? [= <-]. done.
      * left. rewrite <- Hfr; [done |]. right. intros ? [=].
    + right. exists r, ranges. rewrite <- Hs1. split; [by right | done].
Qed.

Lemma for_each_paint_skip df cube :
  for_each (paint cross_section min_axis_pixels) cube (filter (fun row => too_small min_axis_pixels row = false) df)
    = for_each (paint cross_section min_axis_pixels) cube df.
Proof.
  revert cube. induction df as [| row df IH]; intros cube; [reflexivity |].
  rewrite filter_cons. destruct (decide (too_small min_axis_pixels row = false)) as [Hbig | Hsmall].
  - simpl. destruct (paint cross_section min_axis_pixels cube row); [apply IH | done].
  - rewrite IH. simpl.
    assert (paint cross_section min_axis_pixels cube row = Some cube) as ->; [| done].
    unfold paint. destruct (too_small min_axis_pixels row); [done | congruence].
Qed.

End volume_facts.

(** C7: when [create_from_df] returns a volume, it has the shape of the header,
    every voxel that is not 0 lies in the clipped span of a catalogue row with
    [2 * minor_radius_pixels] at or above [min_axis_pixels], so voxels outside
    every such span are 0, and the rows below the threshold contribute nothing:
    the volume built from the other rows alone is the same. *)
Theorem create_from_df_support cross_section min_axis_pixels df h cube :
  create_from_df cross_section min_axis_pixels df h = Some cube →
  dok_shape cube = [NAXIS1 h; NAXIS2 h; NAXIS3 h] ∧
  (∀ key, ¬ (voxel cube key == 0)%Q →
      ∃ row ranges,
        row ∈ df ∧
        (min_axis_pixels <= 2 * minor_radius_pixels row)%Q ∧
        clipped_span cross_section (dok_shape cube) row = Some ranges ∧
        in_ranges key ranges) ∧
  create_from_df cross_section min_axis_pixels
    (filter (fun row => too_small min_axis_pixels row = false) df) h = Some cube.
Proof.
  unfold create_from_df. intros Hrun.
  destruct (for_each_paint_support _ _ _ _ _ Hrun) as [Hshape Hsupp]. simpl in *.
  split; [done |]. split; [| by rewrite for_each_paint_skip].
  intros key Hne. unfold voxel in Hne.
  destruct (dok_data cube !! key) as [v |] eqn:Hv; [| by destruct Hne].
  destruct (Hsupp key) as [[? Hk] | (row & ranges & Hr & Hbig & Hsp & Hin)].
  - by rewrite Hv.
  - by rewrite lookup_empty in Hk.
  - exists row, ranges. split; [done |]. rewrite Hshape. split; [| done].
    apply Qnot_lt_le. intros Hlt%Qltb_lt. unfold too_small in Hbig. congruence.
Qed.

Lemma create_from_df_support_witness :
  ∃ cube,
    demo_volume = Some cube ∧
    dok_shape cube = [32; 32; 32] ∧
    (∀ key, ¬ (voxel cube key == 0)%Q →
        ∃ row ranges,
          row ∈ demo_rows ∧
          (1 <= 2 * minor_radius_pixels row)%Q ∧
          clipped_span (fun _ _ _ _ => 1%Q) (dok_shape cube) row = Some ranges ∧
          in_ranges key ranges) ∧
    create_from_df (fun _ _ _ _ => 1%Q) 1
      (filter (fun row => too_small 1 row = false) demo_rows) (Header 32 32 32)
    = Some cube.
Proof.
  destruct demo_volume as [cube |] eqn:E.
  - exists cube. split; [reflexivity |].
    exact (create_from_df_support (fun _ _ _ _ => 1%Q) 1 demo_rows (Header 32 32 32)
             cube E).
  - vm_compute in E. discriminate E.
Defined.

(** The scenario of one source at (10, 10, 10) with both radii 1 and one channel:
    the stamp is 3 × 3 × 1 and is written around the source. Which of its nine
    voxels are set is decided by the rasteriser; here all are. *)
Example create_from_df_block :
  (fun c => (dok_shape c, (fun kv : list Z * Q => kv.1) <$> map_to_list (dok_data c)))
    <$> create_from_df (fun _ _ _ _ => 1%Q) 0 [CatalogRow 10 10 10 1 1 1 0]
                       (Header 32 32 32)
  = Some ([32; 32; 32],
          [[11; 11; 10]; [10; 11; 10]; [9; 11; 10]; [11; 10; 10]; [10; 10; 10];
           [9; 10; 10]; [11; 9; 10]; [10; 9; 10]; [9; 9; 10]]).
Proof. by vm_compute. Qed.

(** At the last index of an axis the slice ends one past the cube and the write
    stops at the cube. *)
Example create_from_df_edge :
  clipped_span (fun _ _ _ _ => 1%Q) [32; 32; 32] (CatalogRow 31 0 31 1 1 3 0)
    = Some [(30, 32); (0, 2); (30, 32)] ∧
  span_slices [31; 0; 31] (get_spans [32; 32; 32] [3; 3; 3] [31; 0; 31])
    = [(30, 33); (0, 2); (30, 33)].
Proof. split; reflexivity. Qed.

(** ** The Randomizer *)

Section randomizer_facts.

Context `{Generators}.

(** Without a seed no call reads or writes the global generator, and the value
    returned depends on the counter and the arguments only. *)
Lemma run_call_quasi c ctr g :
  run_call c (MkRandomizer None ctr) g =
    (fun r : option Np.matrix * Randomizer * gstate => (r.1.1, r.1.2, g))
      <$> run_call c (MkRandomizer None ctr) g ∧
  ∀ g2, (fun r : option Np.matrix * Randomizer * gstate => r.1) <$> run_call c (MkRandomizer None ctr) g
        = (fun r : option Np.matrix * Randomizer * gstate => r.1) <$> run_call c (MkRandomizer None ctr) g2.
Proof.
  destruct c as [n d | n d | n d |]; simpl;
    unfold sample, rr_sample, reset_sample, reset, rand; simpl;
    try case_bool_decide; simpl; auto.
Qed.

Lemma run_call_quasi_seed c ctr g out self g' :
  run_call c (MkRandomizer None ctr) g = Some (out, self, g') →
  seed self = None ∧ g' = g.
Proof.
  destruct c as [n d | n d | n d |]; simpl;
    unfold sample, rr_sample, reset_sample, reset, rand; simpl;
    try case_bool_decide; simpl; intros [=]; subst; auto.
Qed.

Lemma run_calls_quasi cs ctr g1 g2 :
  (fun r : list (option Np.matrix) * Randomizer * gstate => r.1)
    <$> run_calls cs (MkRandomizer None ctr) g1
  = (fun r : list (option Np.matrix) * Randomizer * gstate => r.1)
      <$> run_calls cs (MkRandomizer None ctr) g2.
Proof.
  revert ctr g1 g2. induction cs as [| c cs IH]; intros ctr g1 g2; [done |].
  cbn [run_calls].
  destruct (run_call_quasi c ctr g1) as [_ Hc]. specialize (Hc g2).
  destruct (run_call c (MkRandomizer None ctr) g1) as [[[out1 s1] h1] |] eqn:E1,
           (run_call c (MkRandomizer None ctr) g2) as [[[out2 s2] h2] |] eqn:E2;
    simpl in Hc; try done.
  injection Hc as <- <-.
  apply run_call_quasi_seed in E1 as [Hs _]. destruct s1 as [sd c1]. simpl in Hs. subst sd.
  simpl. specialize (IH c1 h1 h2).
  destruct (run_calls cs _ h1) as [[[o1 t1] k1] |], (run_calls cs _ h2) as [[[o2 t2] k2] |];
    simpl in *; try done.
  by injection IH as <- <-.
Qed.

Lemma run_calls_quasi_seed cs ctr g outs self g' :
  run_calls cs (MkRandomizer None ctr) g = Some (outs, self, g') → seed self = None.
Proof.
  revert ctr g outs. induction cs as [| c cs IH]; intros ctr g outs; simpl.
  - by intros [= <- <- <-].
  - destruct (run_call c _ g) as [[[out s1] h1] |] eqn:E1; [| done]. simpl.
    apply run_call_quasi_seed in E1 as [Hs _]. destruct s1 as [sd c1]. simpl in Hs. subst sd.
    destruct (run_calls cs _ h1) as [[[o1 t1] k1] |] eqn:E; [| done]. simpl.
    intros [= <- <- <-]. by eapply IH.
Qed.

(** Without a seed the sequence of values is the same in every process. *)
Lemma quasi_reproducible cs : reproducible None cs.
Proof.
  intros g1 g2. unfold observe, init.
  pose proof (run_calls_quasi cs 0 g1 g2) as Hq.
  destruct (run_calls cs _ g1) as [[[o1 t1] k1] |], (run_calls cs _ g2) as [[[o2 t2] k2] |];
    simpl in *; try done.
  by injection Hq as <- _.
Qed.

(** With a seed the sequence is the same in every process once [reset()] has been
    called first. *)
Lemma seeded_reproducible_after_reset s cs : reproducible (Some s) (DoReset :: cs).
Proof.
  intros g1 g2. unfold observe, init. cbn [run_calls run_call]. unfold reset, reset_f.
  simpl. by destruct (np_random_seed s).
Qed.

End randomizer_facts.

(** The generator model gives the draws that numpy prints after
    [np.random.seed(0)]: 0.5488135039273248, 0.7151893663724195 and
    0.6027633760716439, and after [np.random.seed(42)]: 0.3745401188473625. *)
Example mt19937_first_draws :
  (MT19937.doubles 3 (MT19937.seed_state 0)).1
    = [617909072945749 # 1125899906842624; 6441853127788339 # 9007199254740992;
       5429209831737675 # 9007199254740992]%Q ∧
  (MT19937.doubles 1 (MT19937.seed_state 42)).1
    = [1686778739676283 # 4503599627370496]%Q ∧
  (MT19937.next (MT19937.seed_state 5489)).1 = 3499211612.
Proof. split; [| split]; by vm_compute. Qed.

(** C2, as amended: without a seed, [rr_sample(n, d)] returns the same block
    whatever calls were made before and however far the counter has advanced. *)
Theorem rr_sample_quasi_restarts `{Generators} cs g outs self g' n d :
  run_calls cs (init None) g = Some (outs, self, g') →
  block (rr_sample self n d g') = block (rr_sample (init None) n d g).
Proof.
  intros Hrun.
  apply run_calls_quasi_seed in Hrun. destruct self as [sd ctr]. simpl in Hrun. subst sd.
  unfold rr_sample, rand, init. simpl. by case_bool_decide.
Qed.

Lemma rr_sample_quasi_restarts_witness :
  @block MT19937.state
    (@rr_sample (numpy_generators origin_points) (MkRandomizer None 5) 2 3
       (MT19937.seed_state 1))
  = @block MT19937.state
      (@rr_sample (numpy_generators origin_points) (init None) 2 3 (MT19937.seed_state 1)).
Proof.
  apply (@rr_sample_quasi_restarts (numpy_generators origin_points)
           [Sample 2 1; RrSample 1 1; Sample 3 2] (MT19937.seed_state 1)
           [Some (origin_points 1 2 0); Some (origin_points 1 1 0);
            Some (origin_points 2 3 2)]).
  reflexivity.
Defined.

(** C2 as it is worded fails with a seed: [rr_sample] then draws from numpy's
    global generator, which every draw advances. After [np.random.seed(0)] a
    first [rr_sample(1, 1)] returns 0.5488135039273248, and after one
    [sample(1, 1)] it returns 0.7151893663724195. *)
Lemma rr_sample_seeded_advances :
  @observe (numpy_generators origin_points) (Some 0) [DoReset; RrSample 1 1]
           (MT19937.seed_state 1)
    = Some [None; Some (Np.Matrix 1 1 [617909072945749 # 1125899906842624]%Q)] ∧
  @observe (numpy_generators origin_points) (Some 0) [DoReset; Sample 1 1; RrSample 1 1]
           (MT19937.seed_state 1)
    = Some [None; Some (Np.Matrix 1 1 [617909072945749 # 1125899906842624]%Q);
            Some (Np.Matrix 1 1 [6441853127788339 # 9007199254740992]%Q)] ∧
  ¬ @rr_restarts (numpy_generators origin_points) (Some 0).
Proof.
  split; [by vm_compute |]. split; [by vm_compute |].
  intros Hrr.
  specialize (Hrr [Sample 1 1] (MT19937.seed_state 0)).
  destruct (@run_calls (numpy_generators origin_points) [Sample 1 1]
              (init (Some 0)) (MT19937.seed_state 0)) as [[[outs self] g'] |] eqn:E;
    [| by vm_compute in E].
  specialize (Hrr outs self g' 1 1 eq_refl).
  vm_compute in E. injection E as <- <- <-.
  vm_compute in Hrr. discriminate.
Qed.

(** C1 at seed 0: the seed is stored and never given to numpy, so [sample(1, 1)]
    returns the next draw of whatever state the global generator is in: in a
    process in the state that [np.random.seed(1)] leaves it is 0.417022004702574,
    in one in the state of [np.random.seed(2)] it is 0.43599490214200376, and in
    neither the 0.5488135039273248 that seed 0 gives after [reset()]. *)
Theorem sample_ignores_seed :
  @observe (numpy_generators origin_points) (Some 0) [Sample 1 1] (MT19937.seed_state 1)
    = Some [Some (Np.Matrix 1 1 [3756200289967619 # 9007199254740992]%Q)] ∧
  @observe (numpy_generators origin_points) (Some 0) [Sample 1 1] (MT19937.seed_state 2)
    = Some [Some (Np.Matrix 1 1 [490886619705541 # 1125899906842624]%Q)] ∧
  @observe (numpy_generators origin_points) (Some 0) [DoReset; Sample 1 1]
           (MT19937.seed_state 1)
    = Some [None; Some (Np.Matrix 1 1 [617909072945749 # 1125899906842624]%Q)] ∧
  ¬ @reproducible (numpy_generators origin_points) (Some 0) [Sample 1 1].
Proof.
  split; [by vm_compute |]. split; [by vm_compute |]. split; [by vm_compute |].
  intros Hr. specialize (Hr (MT19937.seed_state 1) (MT19937.seed_state 2)).
  vm_compute in Hr. discriminate.
Qed.

(** ** The label volume of [create_data_set] *)

Lemma index_inside n k : 0 <= k < n → Np.index n k = Some k.
Proof. intros Hk. unfold Np.index. by rewrite bool_decide_eq_true_2. Qed.

Lemma index_range n k i : Np.index n k = Some i → 0 <= i < n.
Proof.
  unfold Np.index. repeat case_bool_decide; intros [= <-]; lia.
Qed.

Lemma voxel_of_inside dimensions pos :
  inside_cube dimensions pos → voxel_of dimensions pos = Some (pos.2, pos.1.1, pos.1.2).
Proof.
  destruct dimensions as [[d0 d1] d2], pos as [[p0 p1] p2]. simpl.
  intros (H2 & H0 & H1). by rewrite !index_inside.
Qed.

(** The loop of [create_sourcemap]: the entries are those that were there and a 1
    at every voxel addressed, and there is at most one more entry per position. *)
Lemma create_sourcemap_loop dimensions positions sourcemap out :
  for_each (fun sourcemap pos =>
              key ← voxel_of dimensions pos;
              Some (Volume (vol_shape sourcemap) (<[key := 1]> (vol_cells sourcemap))))
           sourcemap positions = Some out →
  vol_shape out = vol_shape sourcemap ∧
  Forall (fun pos => is_Some (voxel_of dimensions pos)) positions ∧
  (∀ key, vol_cells out !! key =
          if decide (Exists (fun pos => voxel_of dimensions pos = Some key) positions)
          then Some 1 else vol_cells sourcemap !! key) ∧
  (size (vol_cells out) <= size (vol_cells sourcemap) + length positions)%nat.
Proof.
  revert sourcemap. induction positions as [| pos positions IH]; intros sourcemap Hrun;
    simpl in Hrun.
  - injection Hrun as <-. split; [done |]. split; [apply Forall_nil_2 |].
    split; [| simpl; lia].
    intros key. rewrite decide_False; [done |]. by intros ?%Exists_nil.
  - destruct (voxel_of dimensions pos) as [k0 |] eqn:Hk0; [| done]. simpl in Hrun.
    destruct (IH _ Hrun) as (Hshape & Hall & Hcells & Hsize). simpl in *.
    split; [done |]. split; [constructor; [by rewrite Hk0 | done] |]. split.
    + intros key. rewrite Hcells.
      destruct (decide (Exists (fun p => voxel_of dimensions p = Some key) positions))
        as [Hyes | Hno].
      * rewrite decide_True; [done |]. by right.
      * destruct (decide (k0 = key)) as [-> | Hne].
        -- rewrite lookup_insert_eq. rewrite decide_True; [done |]. by left.
        -- rewrite lookup_insert_ne by done. rewrite decide_False; [done |].
           intros [? | ?]%Exists_cons; [congruence | done].
    + etrans; [exact Hsize |].
      pose proof (map_size_insert k0 1 (vol_cells sourcemap)) as Hins.
      simpl. destruct (vol_cells sourcemap !! k0); simpl in Hins; unfold id in Hins; lia.
Qed.

(** When [create_sourcemap] returns a volume (no index was out of range),
    it has the given shape, every listed position addresses a voxel, the voxel
    [(z, x, y)] when the position lies inside the cube, the volume is 1 at every
    voxel that a listed position addresses and 0 at every other, and the number
    of its non-zero voxels is at most the number of positions. *)
Theorem create_sourcemap_marks positions dimensions sourcemap :
  create_sourcemap positions dimensions = Some sourcemap →
  vol_shape sourcemap = dimensions ∧
  (∀ pos, pos ∈ positions →
     is_Some (voxel_of dimensions pos) ∧
     (inside_cube dimensions pos →
      voxel_of dimensions pos = Some (pos.2, pos.1.1, pos.1.2))) ∧
  (∀ voxel,
     (∃ pos, pos ∈ positions ∧ voxel_of dimensions pos = Some voxel) →
     vol_item sourcemap voxel = 1) ∧
  (∀ voxel,
     (¬ ∃ pos, pos ∈ positions ∧ voxel_of dimensions pos = Some voxel) →
     vol_item sourcemap voxel = 0) ∧
  (count_nonzero sourcemap <= length positions)%nat.
Proof.
  intros Hrun.
  assert (for_each (fun sourcemap pos =>
              key ← voxel_of dimensions pos;
              Some (Volume (vol_shape sourcemap) (<[key := 1]> (vol_cells sourcemap))))
           (Volume dimensions ∅) positions = Some sourcemap) as Hloop.
  { unfold create_sourcemap in Hrun. destruct dimensions as [[d0 d1] d2].
    by case_bool_decide. }
  clear Hrun.
  apply create_sourcemap_loop in Hloop as (Hshape & Hall & Hcells & Hsize).
  cbn [vol_shape vol_cells] in *. split; [done |]. split; [| split; [| split]].
  - intros pos Hin. split; [| apply voxel_of_inside].
    by apply (proj1 (list.Forall_forall _ _) Hall).
  - intros voxel Hex. unfold vol_item. rewrite Hcells.
    rewrite decide_True; [done |]. by apply list.Exists_exists.
  - intros voxel Hno. unfold vol_item. rewrite Hcells, lookup_empty.
    rewrite decide_False; [done |]. by intros ?%list.Exists_exists.
  - unfold count_nonzero. rewrite map_size_empty in Hsize.
    etrans; [| exact Hsize]. apply map_subseteq_size, map_filter_subseteq.
Qed.

(** Positions inside a cube raise nothing. *)
Lemma create_sourcemap_total positions dimensions :
  0 <= dimensions.1.1 → 0 <= dimensions.1.2 → 0 <= dimensions.2 →
  Forall (inside_cube dimensions) positions →
  is_Some (create_sourcemap positions dimensions).
Proof.
  intros H0 H1 H2 Hall.
  assert (∀ sourcemap, is_Some (for_each (fun sourcemap pos =>
              key ← voxel_of dimensions pos;
              Some (Volume (vol_shape sourcemap) (<[key := 1]> (vol_cells sourcemap))))
           sourcemap positions)) as Hloop.
  { induction Hall as [| pos positions Hpos _ IH]; intros sourcemap; cbn [for_each];
      [eauto |].
    rewrite (voxel_of_inside _ _ Hpos). apply IH. }
  unfold create_sourcemap. destruct dimensions as [[d0 d1] d2]. simpl in H0, H1, H2.
  rewrite bool_decide_eq_false_2 by lia. apply Hloop.
Qed.

(** C10, with the condition it needs: for a cube shape without a negative
    length and positions that all lie inside the cube, [create_sourcemap]
    returns a volume of that shape which is 1 at the voxel [(z, x, y)] of every
    listed position and 0 at every other voxel, so that the number of its
    non-zero voxels is at most the number of positions. *)
Theorem create_sourcemap_inside positions dimensions :
  0 <= dimensions.1.1 → 0 <= dimensions.1.2 → 0 <= dimensions.2 →
  Forall (inside_cube dimensions) positions →
  ∃ sourcemap,
    create_sourcemap positions dimensions = Some sourcemap ∧
    vol_shape sourcemap = dimensions ∧
    marks_positions positions sourcemap.
Proof.
  intros H0 H1 H2 Hall.
  destruct (create_sourcemap_total positions dimensions H0 H1 H2 Hall)
    as [sourcemap Hrun].
  exists sourcemap. split; [done |].
  assert (for_each (fun sourcemap pos =>
              key ← voxel_of dimensions pos;
              Some (Volume (vol_shape sourcemap) (<[key := 1]> (vol_cells sourcemap))))
           (Volume dimensions ∅) positions = Some sourcemap) as Hloop.
  { unfold create_sourcemap in Hrun. destruct dimensions as [[d0 d1] d2].
    by case_bool_decide. }
  clear Hrun.
  apply create_sourcemap_loop in Hloop as (Hshape & _ & Hcells & Hsize).
  cbn [vol_shape vol_cells] in *. split; [done |].
  assert (∀ pos, pos ∈ positions →
            voxel_of dimensions pos = Some (pos.2, pos.1.1, pos.1.2)) as Hvoxel.
  { intros pos Hin. apply voxel_of_inside.
    by apply (proj1 (list.Forall_forall _ _) Hall). }
  split; [| split].
  - intros pos Hin. unfold vol_item. rewrite Hcells.
    rewrite decide_True; [done |]. apply list.Exists_exists.
    exists pos. split; [done |]. by apply Hvoxel.
  - intros voxel Hno. unfold vol_item. rewrite Hcells, lookup_empty.
    rewrite decide_False; [done |].
    intros (pos & Hin & Hpos)%list.Exists_exists. apply Hno. exists pos.
    split; [done |]. rewrite (Hvoxel pos Hin) in Hpos. by injection Hpos.
  - unfold count_nonzero. rewrite map_size_empty in Hsize.
    etrans; [| exact Hsize]. apply map_subseteq_size, map_filter_subseteq.
Qed.

Lemma create_sourcemap_inside_witness :
  ∃ sourcemap,
    create_sourcemap [(3, 4, 2); (0, 0, 0); (3, 4, 2)] (5, 6, 7) = Some sourcemap ∧
    vol_shape sourcemap = (5, 6, 7) ∧
    marks_positions [(3, 4, 2); (0, 0, 0); (3, 4, 2)] sourcemap.
Proof.
  apply (create_sourcemap_inside [(3, 4, 2); (0, 0, 0); (3, 4, 2)] (5, 6, 7));
    [simpl; lia | simpl; lia | simpl; lia |].
  repeat constructor; simpl; lia.
Defined.

(** Without that condition the volume is marked elsewhere: numpy reads a
    negative index from the end of its axis, so the position [(-1, 7, 5)] in a
    cube of [16 × 16 × 16] sets the voxel [(5, 15, 7)] on the opposite face,
    which is the voxel [(z, x, y)] of no listed position. *)
Lemma create_sourcemap_negative_wraps :
  ∃ sourcemap,
    create_sourcemap [(-1, 7, 5)] (16, 16, 16) = Some sourcemap ∧
    vol_item sourcemap (5, 15, 7) = 1 ∧
    (¬ ∃ pos, pos ∈ [(-1, 7, 5)] ∧ (5, 15, 7) = (pos.2, pos.1.1, pos.1.2)) ∧
    ¬ marks_positions [(-1, 7, 5)] sourcemap.
Proof.
  assert (¬ ∃ pos : Z * Z * Z,
              pos ∈ [(-1, 7, 5)] ∧ (5, 15, 7) = (pos.2, pos.1.1, pos.1.2)) as Hother.
  { intros (pos & Hin & Hpos). apply list_elem_of_singleton in Hin as ->.
    simpl in Hpos. discriminate Hpos. }
  eexists. split; [reflexivity |]. split; [reflexivity |]. split; [exact Hother |].
  intros (_ & Hblank & _). specialize (Hblank (5, 15, 7) Hother).
  vm_compute in Hblank. discriminate Hblank.
Qed.

Lemma create_sourcemap_marks_witness :
  ∃ sourcemap,
    create_sourcemap [(3, 4, 2); (0, 0, 0); (3, 4, 2)] (5, 6, 7) = Some sourcemap ∧
    vol_shape sourcemap = (5, 6, 7) ∧
    (∀ pos, pos ∈ [(3, 4, 2); (0, 0, 0); (3, 4, 2)] →
       is_Some (voxel_of (5, 6, 7) pos) ∧
       (inside_cube (5, 6, 7) pos →
        voxel_of (5, 6, 7) pos = Some (pos.2, pos.1.1, pos.1.2))) ∧
    (∀ voxel,
       (∃ pos, pos ∈ [(3, 4, 2); (0, 0, 0); (3, 4, 2)] ∧
               voxel_of (5, 6, 7) pos = Some voxel) →
       vol_item sourcemap voxel = 1) ∧
    (∀ voxel,
       (¬ ∃ pos, pos ∈ [(3, 4, 2); (0, 0, 0); (3, 4, 2)] ∧
                 voxel_of (5, 6, 7) pos = Some voxel) →
       vol_item sourcemap voxel = 0) ∧
    (count_nonzero sourcemap <= 3)%nat.
Proof.
  destruct (create_sourcemap [(3, 4, 2); (0, 0, 0); (3, 4, 2)] (5, 6, 7))
    as [sourcemap |] eqn:E.
  - exists sourcemap. split; [reflexivity |].
    exact (create_sourcemap_marks [(3, 4, 2); (0, 0, 0); (3, 4, 2)] (5, 6, 7) sourcemap E).
  - vm_compute in E. discriminate E.
Defined.

Example create_sourcemap_small :
  ∃ sourcemap,
    create_sourcemap [(3, 4, 2); (0, 0, 0); (3, 4, 2)] (5, 6, 7) = Some sourcemap ∧
    vol_item sourcemap (2, 3, 4) = 1 ∧ vol_item sourcemap (0, 0, 0) = 1 ∧
    vol_item sourcemap (3, 4, 2) = 0 ∧
    count_nonzero sourcemap = 2%nat.
Proof.
  eexists. split; [reflexivity |]. repeat split.
Qed.

(** A negative index counts from the end of its axis, and one past the end
    raises [IndexError]. *)
Example create_sourcemap_wraps :
  voxel_of (2, 2, 2) (0, 0, -1) = Some (1, 0, 0) ∧
  create_sourcemap [(0, 0, 2)] (2, 2, 2) = None.
Proof. split; reflexivity. Qed.

(** ** The dataset *)

Lemma same_shapes_refl d : same_shapes d d.
Proof. by intros key. Qed.

Lemma same_shapes_trans d0 d1 d2 :
  same_shapes d0 d1 → same_shapes d1 d2 → same_shapes d0 d2.
Proof. intros H01 H12 key. by rewrite H12, H01. Qed.

Lemma setrow_shape a counter value a' :
  setrow a counter value = Some a' → shape a' = shape a.
Proof.
  unfold setrow. destruct (shape a) as [| n rest] eqn:Hs; [done |].
  destruct (Np.index n counter); [| done]. simpl.
  destruct (broadcastable _ _); [| done]. by intros [= <-].
Qed.

(** An assignment to a row of an array of the dictionary keeps every shape. *)
Lemma data_setrow_shapes key counter value d d' :
  data_setrow key counter value d = Some d' → same_shapes d d'.
Proof.
  unfold data_setrow. destruct (d !! key) as [a |] eqn:Ha; [| done]. simpl.
  destruct (setrow a counter value) as [a' |] eqn:Hset; [| done]. simpl.
  intros [= <-] k. destruct (decide (key = k)) as [<- | Hne].
  - rewrite lookup_insert_eq, Ha. simpl. f_equal. by eapply setrow_shape.
  - by rewrite lookup_insert_ne.
Qed.

Section dataset_facts.

Context `{Generators}.
Variable all_world2pix : Q * Q * Q → Q * Q * Q.

Lemma put_source_shapes hi_data sourcemap f x y st st' :
  put_source hi_data sourcemap f x y st = Some st' →
  same_shapes (data st) (data st').
Proof.
  unfold put_source.
  destruct (data_setrow "image" _ _ _) as [d1 |] eqn:H1; [| done]. simpl.
  destruct (data_setrow "sourcemap" _ _ _) as [d2 |] eqn:H2; [| done]. simpl.
  destruct (data_setrow "position" _ _ _) as [d3 |] eqn:H3; [| done]. simpl.
  destruct (data_setrow "cluster" _ _ _) as [d4 |] eqn:H4; [| done]. simpl.
  intros [= <-]. simpl.
  apply data_setrow_shapes in H1, H2, H3, H4.
  eauto using same_shapes_trans.
Qed.

Lemma put_empty_shapes hi_data f x y st st' :
  put_empty hi_data f x y st = Some st' →
  same_shapes (data st) (data st').
Proof.
  unfold put_empty.
  destruct (data_setrow "image" _ _ _) as [d1 |] eqn:H1; [| done]. simpl.
  destruct (data_setrow "position" _ _ _) as [d3 |] eqn:H3; [| done]. simpl.
  destruct (data_setrow "cluster" _ _ _) as [d4 |] eqn:H4; [| done]. simpl.
  intros [= <-]. simpl.
  apply data_setrow_shapes in H1, H3, H4.
  eauto using same_shapes_trans.
Qed.

Lemma draw_source_shapes hi_data sourcemap positions lower_band upper_band part_size
    freq_points_f side_length precuation freq_band spatial_points i st st' :
  draw_source hi_data sourcemap positions lower_band upper_band part_size freq_points_f
              side_length precuation freq_band spatial_points i st = Some st' →
  same_shapes (data st) (data st').
Proof.
  unfold draw_source. destruct (cube_shape hi_data) as [[s0 s1] s2].
  intros Hrun. repeat (simplify_option_eq; try case_match).
  simpl.
  match goal with
  | Hloop : for_range _ _ _ _ = Some _ |- _ =>
      revert Hloop;
      apply (for_range_inv (fun t : locals gstate => same_shapes (data st) (data t)))
  end.
  - apply same_shapes_refl.
  - intros j t t' _ Ht.
    apply (for_range_inv (fun u : locals gstate => same_shapes (data st) (data u)));
      [done |].
    intros k u u' _ Hu Hput. repeat (simplify_option_eq; try case_match).
    eapply same_shapes_trans; [exact Hu |]. by eapply put_source_shapes.
Qed.

Lemma draw_empty_shapes hi_data sourcemap side_length freq_band freq_empty st st' :
  draw_empty hi_data sourcemap side_length freq_band freq_empty st = Some st' →
  same_shapes (data st) (data st').
Proof.
  unfold draw_empty. destruct (cube_shape hi_data) as [[s0 s1] s2].
  intros Hrun. repeat (simplify_option_eq; try case_match); simpl;
    try apply same_shapes_refl.
  match goal with
  | Hloop : for_range _ _ _ _ = Some _ |- _ =>
      revert Hloop;
      apply (for_range_inv (fun t : locals gstate => same_shapes (data st) (data t)))
  end.
  - apply same_shapes_refl.
  - intros k u u' _ Hu Hput. repeat (simplify_option_eq; try case_match).
    eapply same_shapes_trans; [exact Hu |]. by eapply put_empty_shapes.
Qed.

Lemma draw_empties_shapes fuel hi_data sourcemap side_length freq_band freq_empty
    n_points st st' :
  draw_empties fuel hi_data sourcemap side_length freq_band freq_empty n_points st
    = Some st' →
  same_shapes (data st) (data st').
Proof.
  revert st. induction fuel as [| fuel IH]; intros st; simpl;
    case_bool_decide; try done; try (intros [= <-]; apply same_shapes_refl).
  destruct (draw_empty _ _ _ _ _ st) as [st1 |] eqn:Hd; [| done]. simpl.
  intros Hrest. eapply same_shapes_trans; [by eapply draw_empty_shapes | by apply IH].
Qed.

(** The [while] loop returns only when the counter has reached [n_points]. *)
Lemma draw_empties_done fuel hi_data sourcemap side_length freq_band freq_empty
    n_points st st' :
  draw_empties fuel hi_data sourcemap side_length freq_band freq_empty n_points st
    = Some st' →
  n_points <= sample_counter st'.
Proof.
  revert st. induction fuel as [| fuel IH]; intros st; simpl;
    case_bool_decide; try done; try (intros [= <-]; lia).
  destruct (draw_empty _ _ _ _ _ st) as [st1 |] eqn:Hd; [| done]. simpl. apply IH.
Qed.

Lemma zeros_shape s a : zeros s = Some a → shape a = s ∧ Forall (fun n => 0 <= n) s.
Proof. unfold zeros. case_bool_decide; [| done]. by intros [= <-]. Qed.

Lemma allocate_shapes n_points n_sources freq_band side_length d :
  allocate n_points n_sources freq_band side_length = Some d →
  0 <= n_points ∧ dataset_arrays d n_points freq_band side_length ∧
  ∀ key, is_Some (d !! key) →
         key ∈ ["image"; "sourcemap"; "position"; "class"; "cluster"].
Proof.
  unfold allocate.
  destruct (zeros [n_points; freq_band; side_length; side_length]) as [a1 |] eqn:H1;
    [| done]. simpl.
  destruct (zeros [n_points; side_length; side_length]) as [a2 |] eqn:H2; [| done]. simpl.
  destruct (zeros [n_points; 3; 2]) as [a3 |] eqn:H3; [| done]. simpl.
  destruct (zeros [n_points]) as [a4 |] eqn:H4; [| done]. simpl.
  intros [= <-].
  apply zeros_shape in H1 as [S1 _], H2 as [S2 _], H3 as [S3 _], H4 as [S4 Hn].
  apply Forall_inv in Hn. split; [done |]. split.
  - unfold dataset_arrays.
    repeat (rewrite lookup_insert_ne by done). rewrite !lookup_insert_eq.
    repeat (rewrite lookup_insert_ne by done). rewrite !lookup_insert_eq.
    repeat (rewrite lookup_insert_ne by done). rewrite !lookup_insert_eq.
    simpl. rewrite Z.max_r by lia. repeat split; congruence.
  - intros key [a Ha].
    destruct (decide (key = "cluster")) as [-> | ?]; [apply list_elem_of_In; simpl; tauto |].
    rewrite lookup_insert_ne in Ha by done.
    destruct (decide (key = "class")) as [-> | ?]; [apply list_elem_of_In; simpl; tauto |].
    rewrite lookup_insert_ne in Ha by done.
    destruct (decide (key = "position")) as [-> | ?]; [apply list_elem_of_In; simpl; tauto |].
    rewrite lookup_insert_ne in Ha by done.
    destruct (decide (key = "sourcemap")) as [-> | ?]; [apply list_elem_of_In; simpl; tauto |].
    rewrite lookup_insert_ne in Ha by done.
    destruct (decide (key = "image")) as [-> | ?]; [apply list_elem_of_In; simpl; tauto |].
    rewrite lookup_insert_ne in Ha by done.
    by rewrite lookup_empty in Ha.
Qed.

(** The dictionary that [create_data_set] returns has the keys and the shapes of
    the one that lines 31 to 35 allocate. *)
Lemma create_data_set_shapes fuel df hi_data prob_galaxy side_length precuation freq_band
    spatial_points freq_points_f seed g d :
  create_data_set all_world2pix fuel df hi_data prob_galaxy side_length precuation
                  freq_band spatial_points freq_points_f seed g = Some d →
  ∃ n, 0 <= n ∧ dataset_arrays d n freq_band side_length ∧
       ∀ key, is_Some (d !! key) →
              key ∈ ["image"; "sourcemap"; "position"; "class"; "cluster"].
Proof.
  unfold create_data_set.
  destruct (create_sourcemap _ _) as [sourcemap |]; [| done]. simpl.
  destruct (part_sizes _ _ _) as [part_size |]; [| done]. simpl.
  destruct (freq_points_of _ _) as [fpf |]; [| done]. simpl.
  destruct (sample_counts _ _ _ _ _) as [[[n_sources freq_empty] n_points] |];
    [| done]. simpl.
  destruct (allocate _ _ _ _) as [arrays |] eqn:Halloc; [| done]. simpl.
  destruct (for_range _ _ _ _) as [st1 |] eqn:Hloop; [| done]. simpl.
  destruct (draw_empties _ _ _ _ _ _ _ _) as [st2 |] eqn:Hwhile; [| done]. simpl.
  intros [= <-].
  apply allocate_shapes in Halloc as (Hn & Harr & Hkeys).
  apply draw_empties_shapes in Hwhile.
  apply (for_range_inv (fun t : locals gstate => same_shapes arrays (data t))) in Hloop;
    [| apply same_shapes_refl |].
  2: { intros i t t' _ Ht Hd. eapply same_shapes_trans; [exact Ht |].
       by eapply draw_source_shapes. }
  pose proof (same_shapes_trans _ _ _ Hloop Hwhile) as Hall.
  exists n_points. split; [done |]. split.
  - unfold dataset_arrays in *. by rewrite !Hall.
  - intros key [a Ha]. apply Hkeys. specialize (Hall key). rewrite Ha in Hall.
    destruct (arrays !! key); [eauto | done].
Qed.

End dataset_facts.

(** C6, as amended: the dictionary that [create_data_set] returns holds the five
    arrays [image] of shape [N × freq_band × side_length × side_length],
    [sourcemap] of shape [N × side_length × side_length], [position] of shape
    [N × 3 × 2], [class] of length [N] and [cluster] of length [N], and no other
    entry: it has no [index] and no [dim]. *)
Theorem create_data_set_entries `{Generators} all_world2pix fuel df hi_data prob_galaxy
    side_length precuation freq_band spatial_points freq_points_f seed g d :
  create_data_set all_world2pix fuel df hi_data prob_galaxy side_length precuation
                  freq_band spatial_points freq_points_f seed g = Some d →
  (∃ n, 0 <= n ∧ dataset_arrays d n freq_band side_length) ∧
  (∀ key, is_Some (d !! key) →
          key ∈ ["image"; "sourcemap"; "position"; "class"; "cluster"]) ∧
  d !! "index" = None ∧ d !! "dim" = None.
Proof.
  intros Hrun. apply create_data_set_shapes in Hrun as (n & Hn & Harr & Hkeys).
  split; [eauto |]. split; [done |].
  split.
  - destruct (d !! "index") eqn:E; [| done].
    assert (is_Some (d !! "index")) as Hk%Hkeys by eauto.
    apply list_elem_of_In in Hk. simpl in Hk. intuition discriminate.
  - destruct (d !! "dim") eqn:E; [| done].
    assert (is_Some (d !! "dim")) as Hk%Hkeys by eauto.
    apply list_elem_of_In in Hk. simpl in Hk. intuition discriminate.
Qed.

Lemma demo_entries :
  entries <$> demo_data_set [wide_source; narrow_source] 2 10
    = Some (Some [12; 2; 4; 4], Some [12; 4; 4], Some [12; 3; 2], Some [12], Some [12],
            false, false).
Proof. by vm_compute. Qed.

Lemma create_data_set_entries_witness :
  ∃ d, demo_data_set [wide_source; narrow_source] 2 10 = Some d ∧
       (∃ n, 0 <= n ∧ dataset_arrays d n 2 4) ∧
       (∀ key, is_Some (d !! key) →
               key ∈ ["image"; "sourcemap"; "position"; "class"; "cluster"]) ∧
       d !! "index" = None ∧ d !! "dim" = None.
Proof.
  assert (returned (demo_data_set [wide_source; narrow_source] 2 10) = true) as Hr
    by (vm_compute; reflexivity).
  destruct (demo_data_set [wide_source; narrow_source] 2 10) as [d |] eqn:E;
    [| discriminate Hr].
  exists d. split; [reflexivity |].
  exact (@create_data_set_entries (numpy_generators origin_points) (fun t => t) 10
           [wide_source; narrow_source] demo_cube (1 # 2) 4 0 2 1 FreqDefault (Some 0)
           (MT19937.seed_state 1) d E).
Defined.

(** C6 as it is worded fails: the dataset of the small run has twelve samples in
    its five arrays, and neither [index] nor [dim]. *)
Lemma create_data_set_no_metadata :
  ∃ d, demo_data_set [wide_source; narrow_source] 2 10 = Some d ∧
       dataset_arrays d 12 2 4 ∧
       d !! "index" = None ∧ d !! "dim" = None ∧
       ¬ dataset_with_metadata d 12 2 4.
Proof.
  pose proof demo_entries as He.
  destruct (demo_data_set [wide_source; narrow_source] 2 10) as [d |]; [| done].
  exists d. split; [done |]. simpl in He. unfold entries in He.
  injection He as H1 H2 H3 H4 H5 H6 H7.
  assert (d !! "index" = None) as Hi by (by destruct (d !! "index")).
  assert (d !! "dim" = None) as Hd by (by destruct (d !! "dim")).
  split; [done |]. split; [done |]. split; [done |].
  intros (_ & [a Ha] & _). congruence.
Qed.

(** ** The number of frequency windows *)

Lemma zrange_length lo hi : length (zrange lo hi) = Z.to_nat (hi - lo).
Proof. unfold zrange. by rewrite length_fmap, length_seq. Qed.

Lemma zrange_lookup lo hi i :
  (i < Z.to_nat (hi - lo))%nat → zrange lo hi !! i = Some (lo + Z.of_nat i).
Proof.
  intros Hi. unfold zrange. rewrite list_lookup_fmap, lookup_seq_lt by done. done.
Qed.

Lemma foldr_min_le b rest v : v ∈ b :: rest → foldr Z.min b rest <= v.
Proof.
  induction rest as [| c rest IH]; simpl.
  - intros ->%list_elem_of_singleton. lia.
  - intros [-> | [-> | Hin]%elem_of_cons]%elem_of_cons.
    + etrans; [apply Z.le_min_r |]. apply IH. by left.
    + apply Z.le_min_l.
    + etrans; [apply Z.le_min_r |]. apply IH. by right.
Qed.

Lemma foldr_max_ge b rest v : v ∈ b :: rest → v <= foldr Z.max b rest.
Proof.
  induction rest as [| c rest IH]; simpl.
  - intros ->%list_elem_of_singleton. lia.
  - intros [-> | [-> | Hin]%elem_of_cons]%elem_of_cons.
    + etrans; [| apply Z.le_max_r]. apply IH. by left.
    + apply Z.le_max_l.
    + etrans; [| apply Z.le_max_r]. apply IH. by right.
Qed.

Lemma foldr_min_elem b rest : foldr Z.min b rest ∈ b :: rest.
Proof.
  induction rest as [| c rest IH]; simpl; [by left |].
  destruct (Z.min_spec c (foldr Z.min b rest)) as [[_ ->] | [_ ->]].
  - right. by left.
  - apply elem_of_cons in IH as [-> | IH]; [by left | by do 2 right].
Qed.

(** The default table starts at the smallest partition size: read at [b], it
    holds the count of the size [min + b]. *)
Lemma default_freq_points_offset b0 rest fpf b n :
  freq_points_of (b0 :: rest) FreqDefault = Some fpf →
  0 <= b →
  getitem fpf b = Some n →
  n = 2 * (foldr Z.min b0 rest + b) + 1.
Proof.
  simpl. intros [= <-] Hb. unfold getitem. rewrite length_fmap, zrange_length.
  destruct (Np.index _ b) as [i |] eqn:Hi; [| done]. simpl.
  assert (i = b) as ->.
  { unfold Np.index in Hi. repeat case_bool_decide; simplify_eq; lia. }
  apply index_range in Hi. rewrite list_lookup_fmap, zrange_lookup by lia.
  simpl. intros [= <-]. lia.
Qed.

(** When the catalogue has a source of partition size 0, every size [b] of the
    catalogue gets [2 b + 1] windows. *)
Lemma default_freq_points_from_zero b0 rest fpf b :
  freq_points_of (b0 :: rest) FreqDefault = Some fpf →
  foldr Z.min b0 rest = 0 →
  b ∈ b0 :: rest →
  getitem fpf b = Some (2 * b + 1).
Proof.
  simpl. intros [= <-] Hmin Hb. unfold getitem. rewrite length_fmap, zrange_length.
  pose proof (foldr_min_le b0 rest b Hb). pose proof (foldr_max_ge b0 rest b Hb).
  rewrite index_inside by lia. simpl.
  rewrite list_lookup_fmap, zrange_lookup by lia. simpl. f_equal. lia.
Qed.

Lemma bincount_length b0 rest counts :
  bincount (b0 :: rest) = Some counts →
  Forall (fun v => 0 <= v) (b0 :: rest) ∧
  length counts = Z.to_nat (foldr Z.max b0 rest + 1).
Proof.
  unfold bincount. case_bool_decide as Hall; [| done]. intros [= <-].
  split; [done |]. by rewrite length_fmap, zrange_length, Z.sub_0_r.
Qed.

Lemma mul_broadcast_lengths a b c :
  mul_broadcast a b = Some c →
  length a = length b ∨ length a = 1%nat ∨ length b = 1%nat.
Proof.
  unfold mul_broadcast. case_bool_decide; [auto |].
  destruct a as [| u [| ? ?]], b as [| v [| ? ?]]; simpl; auto; done.
Qed.

(** Line 24 multiplies the table with the counts of [np.bincount], which start at
    size 0. Where both that product and the read of the table on lines 48 and 51
    raise nothing, the number read for the size [b] is [2 b + 1]. *)
Lemma default_freq_points_count part_size fpf counts prod b n :
  freq_points_of part_size FreqDefault = Some fpf →
  bincount part_size = Some counts →
  mul_broadcast counts fpf = Some prod →
  b ∈ part_size →
  getitem fpf b = Some n →
  n = 2 * b + 1.
Proof.
  destruct part_size as [| b0 rest]; [done |].
  intros Hf Hc Hm Hb Hn.
  apply bincount_length in Hc as [Hall Hlc].
  pose proof (foldr_min_le b0 rest b Hb) as Hlo.
  pose proof (foldr_max_ge b0 rest b Hb) as Hhi.
  assert (0 <= foldr Z.min b0 rest) as Hmin.
  { apply (proj1 (list.Forall_forall _ _) Hall), foldr_min_elem. }
  assert (0 <= b) as Hb0 by lia.
  rewrite (default_freq_points_offset _ _ _ _ _ Hf Hb0 Hn).
  enough (foldr Z.min b0 rest = 0) by lia.
  apply mul_broadcast_lengths in Hm.
  assert (length fpf = Z.to_nat (foldr Z.max b0 rest + 1 - foldr Z.min b0 rest)) as Hlf.
  { simpl in Hf. injection Hf as <-. by rewrite length_fmap, zrange_length. }
  destruct Hm as [Hm | [Hm | Hm]]; [lia | lia |].
  unfold getitem in Hn. rewrite Hm in Hn.
  destruct (Np.index _ b) as [i |] eqn:Hi; [| done].
  unfold Np.index in Hi. repeat case_bool_decide; simplify_eq; lia.
Qed.

Lemma default_freq_points_count_witness :
  freq_points_of [1; 0; 2] FreqDefault = Some [1; 3; 5] ∧
  bincount [1; 0; 2] = Some [1; 1; 1] ∧
  mul_broadcast [1; 1; 1] [1; 3; 5] = Some [1; 3; 5] ∧
  getitem [1; 3; 5] 2 = Some 5 ∧
  5 = 2 * 2 + 1.
Proof.
  repeat (split; [reflexivity |]).
  apply (default_freq_points_count [1; 0; 2] [1; 3; 5] [1; 1; 1] [1; 3; 5] 2 5);
    try reflexivity.
  apply list_elem_of_In. simpl. tauto.
Defined.

(** C4 at a catalogue of one source whose line spans one partition: the table is
    [[3]], made for the sizes from 1 to 1, and [create_data_set] reads it at
    index 1, which raises [IndexError] before any frequency window is drawn. *)
Theorem create_data_set_single_partition :
  part_sizes [10] [6] 4 = Some [1] ∧
  freq_points_of [1] FreqDefault = Some [3] ∧
  sample_counts [1] [3] 1 (1 # 2) 1 = Some (3, 3, 6) ∧
  getitem [3] 1 = None ∧
  ∀ fuel, demo_data_set [wide_source] 4 fuel = None.
Proof.
  split; [reflexivity |]. split; [reflexivity |]. split; [reflexivity |].
  split; [reflexivity |]. intros fuel. vm_compute. reflexivity.
Qed.

(** With a second source of size 0 in the catalogue the run goes through. *)
Example create_data_set_two_partitions :
  part_sizes [10; 4] [6; 4] 4 = Some [1; 0] ∧
  freq_points_of [1; 0] FreqDefault = Some [1; 3] ∧
  getitem [1; 3] 1 = Some 3 ∧
  returned (demo_data_set [wide_source; narrow_source] 4 10) = true.
Proof.
  split; [reflexivity |]. split; [reflexivity |]. split; [reflexivity |].
  vm_compute. reflexivity.
Qed.

(** ** More on the boundary clamp *)

Lemma where_rows_nil test (a : list window) :
  Forall (fun w : window => test w.1 = false ∧ test w.2 = false) a →
  where_rows test a = [].
Proof.
  intros Ha. destruct (where_rows test a) as [| j hits] eqn:E; [done |].
  assert (j ∈ where_rows test a) as Hj by (rewrite E; by left).
  apply elem_of_where_rows in Hj as (w & Hw & Ht).
  destruct (proj1 (Forall_lookup _ _) Ha j w Hw) as [H1 H2].
  rewrite H1, H2 in Ht. done.
Qed.

(** An axis whose windows all fit is returned as it is. *)
Lemma inside_axis_fits (a : list window) mn mx :
  Forall (within mn mx) a → inside_axis a mn mx = a.
Proof.
  intros Ha. unfold inside_axis.
  rewrite (where_rows_nil (fun v => v <? mn) a).
  - simpl. rewrite (where_rows_nil (fun v => mx <=? v) a); [done |].
    eapply List.Forall_impl; [| exact Ha]. intros w [[_ H1] [_ H2]]. lia.
  - eapply List.Forall_impl; [| exact Ha]. intros w [[H1 _] [H2 _]]. lia.
Qed.

Lemma inside_axis_uniform_within (a : list window) mn mx :
  uniform_axis a mn mx → Forall (within mn mx) (inside_axis a mn mx).
Proof.
  intros (len & Hlen & Hall). apply Forall_lookup. intros j v Hv.
  destruct (a !! j) as [w |] eqn:Hw.
  - rewrite (inside_axis_uniform_lookup a mn mx len j w Hlen Hall Hw) in Hv.
    injection Hv as <-. apply moved_within; [done |].
    by apply (proj1 (Forall_lookup _ _) Hall j w).
  - apply lookup_ge_None in Hw. apply lookup_lt_Some in Hv.
    rewrite inside_axis_length in Hv. lia.
Qed.

Lemma inside_box_axes points min_values max_values out :
  (∀ i a mn mx, points !! i = Some a → min_values !! i = Some mn →
                max_values !! i = Some mx → out !! i = Some (inside_axis a mn mx)) →
  length out = length points →
  (length points <= length min_values)%nat →
  (length points <= length max_values)%nat →
  inside_box points min_values max_values = Some out.
Proof.
  intros Hax Hlen Hmin Hmax. unfold inside_box. apply mapM_Some_2.
  apply Forall2_same_length_lookup_2.
  - by rewrite length_zip_with, length_seq, Hlen, Nat.min_id.
  - intros i [k a] b Hz Hb.
    apply lookup_zip_with_Some in Hz as (k' & a' & [= <- <-] & Hk & Ha).
    apply lookup_seq in Hk as [-> Hi]. simpl in *.
    destruct (lookup_lt_is_Some_2 min_values i) as [mn Hmn]; [lia |].
    destruct (lookup_lt_is_Some_2 max_values i) as [mx Hmx]; [lia |].
    rewrite Hmn, Hmx. simpl. f_equal.
    specialize (Hax i a mn mx Ha Hmn Hmx). congruence.
Qed.

(** Windows that all lie within their bounds are left untouched by [inside_box],
    whatever their lengths. *)
Theorem inside_box_fits points min_values max_values :
  all_within points min_values max_values →
  (length points <= length min_values)%nat →
  (length points <= length max_values)%nat →
  inside_box points min_values max_values = Some points.
Proof.
  intros Hin Hmin Hmax. apply inside_box_axes; try done.
  intros i a mn mx Ha Hmn Hmx. rewrite Ha. f_equal. symmetry.
  apply inside_axis_fits. by eapply Hin.
Qed.

Lemma inside_box_fits_witness :
  inside_box [[(0, 5); (2, 3)]; [(7, 9)]] [0; 1] [10; 12] = Some [[(0, 5); (2, 3)]; [(7, 9)]].
Proof.
  apply (inside_box_fits [[(0, 5); (2, 3)]; [(7, 9)]] [0; 1] [10; 12]).
  - intros i a mn mx. destruct i as [| [| i]]; simpl; try discriminate;
      intros [= <-] [= <-] [= <-]; repeat constructor; simpl; lia.
  - simpl. lia.
  - simpl. lia.
Defined.

(** On windows of one length per axis that is smaller than the box, clamping
    again changes nothing. *)
Theorem inside_box_idempotent points min_values max_values out :
  uniform_windows points min_values max_values →
  inside_box points min_values max_values = Some out →
  inside_box out min_values max_values = Some out.
Proof.
  intros Hu Hout.
  assert (Hlen : length out = length points).
  { unfold inside_box in Hout. apply length_mapM in Hout.
    rewrite length_zip_with, length_seq in Hout. lia. }
  assert (Hmin : (length out <= length min_values)%nat).
  { destruct out as [| b out'] eqn:E; [simpl; lia |]. rewrite <- E in *.
    destruct (lookup_lt_is_Some_2 out (length out - 1)) as [c Hc];
      [rewrite E; simpl; lia |].
    destruct (inside_box_lookup _ _ _ _ _ _ Hout Hc) as (a & mn & mx & _ & Hmn & _).
    apply lookup_lt_Some in Hmn. lia. }
  assert (Hmax : (length out <= length max_values)%nat).
  { destruct out as [| b out'] eqn:E; [simpl; lia |]. rewrite <- E in *.
    destruct (lookup_lt_is_Some_2 out (length out - 1)) as [c Hc];
      [rewrite E; simpl; lia |].
    destruct (inside_box_lookup _ _ _ _ _ _ Hout Hc) as (a & mn & mx & _ & _ & Hmx & _).
    apply lookup_lt_Some in Hmx. lia. }
  apply inside_box_axes; try done.
  intros i b mn mx Hb Hmn Hmx. rewrite Hb. f_equal. symmetry. apply inside_axis_fits.
  destruct (inside_box_lookup _ _ _ _ _ _ Hout Hb) as (a & mn' & mx' & Ha & Hmn' & Hmx' & ->).
  simplify_eq. apply inside_axis_uniform_within. by eapply Hu.
Qed.

Lemma inside_box_idempotent_witness :
  inside_box [[(0, 5); (4, 9); (4, 9)]; [(0, 5); (0, 5); (6, 11)]] [0; 0] [10; 12]
    = Some [[(0, 5); (4, 9); (4, 9)]; [(0, 5); (0, 5); (6, 11)]].
Proof.
  apply (inside_box_idempotent
           [[(-3, 2); (8, 13); (4, 9)]; [(0, 5); (-1, 4); (6, 11)]] [0; 0] [10; 12]).
  - intros i a mn mx. destruct i as [| [| i]]; simpl; try discriminate;
      intros [= <-] [= <-] [= <-]; exists 5; (split; [lia | repeat constructor]).
  - reflexivity.
Defined.

(** ** Window placement *)






Lemma column_length (rdn : Np.matrix) (i : nat) :
  length (Np.column rdn i) = Np.rows rdn.
Proof. unfold Np.column. by rewrite length_fmap, length_seq. Qed.

Lemma random_in_interval_lookup rdn interval length out i b :
  random_in_interval rdn interval length = Some out → out !! i = Some b →
  ∃ iv, interval !! i = Some iv ∧ (i < Np.cols rdn)%nat ∧
        b = (fun r =>
               let lo := Np.trunc (r * inject_Z (Z.max (iv.2 - iv.1 - length) 0)
                                   + inject_Z iv.1 + inject_Z length / 2)%Q in
               (lo, lo + length)) <$> Np.column rdn i.
Proof.
  unfold random_in_interval. intros Hm Hb. apply mapM_Some_1 in Hm.
  destruct (Forall2_lookup_r _ _ _ _ _ Hm Hb) as (k & Hk & Hf).
  apply lookup_seq in Hk as [-> Hi]. simpl in Hf.
  destruct (interval !! i) as [iv |]; [| done]. simpl in Hf.
  injection Hf as <-. eauto.
Qed.



Lemma random_center_box_windows rdn total_length center_point precuation
    min_values max_values out :
  box_fits total_length min_values max_values →
  random_center_box rdn total_length center_point precuation min_values max_values
    = Some out →
  length out = Np.cols rdn ∧
  ∀ i b mn mx, out !! i = Some b → min_values !! i = Some mn →
               max_values !! i = Some mx →
               length b = Np.rows rdn ∧
               Forall (fun w => window_length w = total_length ∧ within mn mx w) b.
Proof.
  intros Hfit Hout. unfold random_center_box in Hout.
  destruct (mapM _ (seq 0 (Np.cols rdn))) as [coord |] eqn:Hc; [| done].
  simpl in Hout.
  assert (Hcl : length coord = Np.cols rdn).
  { apply length_mapM in Hc. by rewrite length_seq in Hc. }
  assert (Hol : length out = length coord).
  { unfold inside_box in Hout. apply length_mapM in Hout.
    rewrite length_zip_with, length_seq in Hout. lia. }
  split; [lia |]. intros i b mn mx Hb Hmn Hmx.
  destruct (inside_box_lookup _ _ _ _ _ _ Hout Hb)
    as (a & mn' & mx' & Ha & Hmn' & Hmx' & ->).
  simplify_eq. apply mapM_Some_1 in Hc.
  destruct (Forall2_lookup_r _ _ _ _ _ Hc Ha) as (k & Hk & Hf).
  apply lookup_seq in Hk as [-> Hi]. simpl in Hf.
  destruct (center_point !! i) as [c |]; [| done]. simpl in Hf.
  injection Hf as <-.
  set (f := fun r : Q => _).
  assert (Hlens : Forall (fun w : window => window_length w = total_length)
                         (f <$> Np.column rdn i)).
  { apply Forall_fmap, Forall_forall. intros r _. unfold f, window_length. simpl. lia. }
  split; [by rewrite inside_axis_length, length_fmap, column_length |].
  apply Forall_lookup. intros j v Hv.
  destruct ((f <$> Np.column rdn i) !! j) as [w |] eqn:Hw.
  - rewrite (inside_axis_uniform_lookup _ mn mx total_length j w
               (Hfit i mn mx Hmn Hmx) Hlens Hw) in Hv.
    injection Hv as <-. apply moved_within; [by eapply Hfit |].
    by apply (proj1 (Forall_lookup _ _) Hlens j w).
  - apply lookup_ge_None in Hw. apply lookup_lt_Some in Hv.
    rewrite inside_axis_length in Hv. lia.
Qed.

(** The windows returned by [random_center_box]: when the side length is not
    negative and smaller than the box on every axis, every axis holds one window
    per draw, each of the side length asked for and with both bounds inside
    the box. *)
Theorem random_center_box_within rdn total_length center_point precuation
    min_values max_values out :
  box_fits total_length min_values max_values →
  random_center_box rdn total_length center_point precuation min_values max_values
    = Some out →
  length out = Np.cols rdn ∧
  ∀ i b mn mx, out !! i = Some b → min_values !! i = Some mn →
               max_values !! i = Some mx →
               length b = Np.rows rdn ∧
               Forall (fun w => window_length w = total_length ∧ within mn mx w) b.
Proof. apply random_center_box_windows. Qed.

Lemma random_center_box_within_witness :
  length [[(2, 7); (4, 9)]; [(6, 11); (6, 11)]] = 2%nat ∧
  ∀ i b mn mx, [[(2, 7); (4, 9)]; [(6, 11); (6, 11)]] !! i = Some b →
               [0; 0] !! i = Some mn → [10; 12] !! i = Some mx →
               length b = 2%nat ∧
               Forall (fun w => window_length w = 5 ∧ within mn mx w) b.
Proof.
  apply (random_center_box_within (Np.Matrix 2 2 [0; 1 # 4; 1 # 2; 9 # 10]%Q) 5
           [6; 10] 0 [0; 0] [10; 12]).
  - intros i mn mx. destruct i as [| [| i]]; simpl; try discriminate;
      intros [= <-] [= <-]; lia.
  - reflexivity.
Defined.

(** ** More on the Randomizer *)

Section randomizer_more.

Context `{Generators}.

Lemma run_calls_app cs1 cs2 self g :
  run_calls (cs1 ++ cs2) self g =
    '(outs1, self, g) ← run_calls cs1 self g;
    '(outs2, self, g) ← run_calls cs2 self g;
    Some (outs1 ++ outs2, self, g).
Proof.
  revert self g. induction cs1 as [| c cs1 IH]; intros self g; simpl.
  - by destruct (run_calls cs2 self g) as [[[o s] h] |].
  - destruct (run_call c self g) as [[[out s1] h1] |]; [| done]. simpl.
    rewrite IH. destruct (run_calls cs1 s1 h1) as [[[o1 s2] h2] |]; [| done]. simpl.
    by destruct (run_calls cs2 s2 h2) as [[[o2 s3] h3] |].
Qed.

Lemma quasi_samples_run d ns ctr g :
  0 <= d → Forall (fun n => 0 <= n) ns →
  ∃ outs,
    run_calls ((fun n => Sample n d) <$> ns) (MkRandomizer None ctr) g
      = Some (outs, MkRandomizer None (ctr + zsum ns), g) ∧
    length outs = length ns ∧
    ∀ k n, ns !! k = Some n →
           outs !! k = Some (Some (i4_sobol_generate (Z.to_nat d) (Z.to_nat n)
                                                      (ctr + zsum (take k ns)))).
Proof.
  intros Hd Hns. revert ctr.
  induction Hns as [| n ns Hn _ IH]; intros ctr; simpl in *.
  - exists []. simpl. rewrite Z.add_0_r. repeat split. intros k n. by rewrite lookup_nil.
  - destruct (IH (ctr + n)) as (outs & Hrun & Hlen & Hk).
    exists (Some (i4_sobol_generate (Z.to_nat d) (Z.to_nat n) ctr) :: outs).
    cbn [fmap list_fmap run_calls run_call]. unfold sample, rand. simpl.
    case_bool_decide; [lia |]. simpl.
    change (list_fmap Z call (fun n => Sample n d) ns)
      with ((fun n => Sample n d) <$> ns).
    rewrite Hrun. simpl. split; [by rewrite Z.add_assoc |]. split; [by rewrite Hlen |].
    intros [| k] m; simpl.
    + intros [= <-]. do 3 f_equal. lia.
    + intros Hm. rewrite (Hk k m Hm). do 3 f_equal. lia.
Qed.

(** Without a seed, successive calls of [sample] walk along the Sobol sequence:
    each call returns the points that follow those of the calls before it, so no
    point is returned twice and none is left out. The dimension is one the
    library has direction numbers for, and the calls ask for fewer points in
    all than its table holds ([atmost = 2^30 - 1]). *)
Theorem quasi_samples_consecutive d ns g :
  1 <= d <= 40 → Forall (fun n => 0 <= n) ns → zsum ns < 2 ^ 30 - 1 →
  ∃ outs,
    observe None ((fun n => Sample n d) <$> ns) g = Some outs ∧
    length outs = length ns ∧
    ∀ k n, ns !! k = Some n →
           outs !! k = Some (Some (i4_sobol_generate (Z.to_nat d) (Z.to_nat n)
                                                      (zsum (take k ns)))).
Proof.
  intros [Hd _] Hns _.
  assert (0 <= d) as Hd0 by lia.
  destruct (quasi_samples_run d ns 0 g Hd0 Hns) as (outs & Hrun & Hlen & Hk).
  exists outs. unfold observe, init. rewrite Hrun. simpl. split; [done |].
  split; [done |]. intros k n Hn. rewrite (Hk k n Hn). by rewrite Z.add_0_l.
Qed.

(** Without a seed, [reset_sample] returns the first block of the sequence and
    leaves the counter at 0: the [sample] that follows it returns that block
    once more, whatever calls were made before. *)
Theorem quasi_reset_sample_repeats cs n d g outs self g' :
  run_calls (cs ++ [ResetSample n d; Sample n d]) (init None) g = Some (outs, self, g') →
  ∃ pre, outs = pre ++ [Some (i4_sobol_generate (Z.to_nat d) (Z.to_nat n) 0);
                        Some (i4_sobol_generate (Z.to_nat d) (Z.to_nat n) 0)] ∧
         length pre = length cs ∧ counter self = n.
Proof.
  rewrite run_calls_app. unfold init.
  destruct (run_calls cs (MkRandomizer None 0) g) as [[[pre s1] h1] |] eqn:E; [| done].
  simpl. pose proof (run_calls_quasi_seed _ _ _ _ _ _ E) as Hs.
  assert (length pre = length cs) as Hlen.
  { clear Hs. revert E. generalize (MkRandomizer None 0). revert g pre.
    induction cs as [| c cs IH]; intros g pre r; simpl.
    - intros [=]. by subst.
    - destruct (run_call c r g) as [[[o t] k] |]; [| done]. simpl.
      destruct (run_calls cs t k) as [[[os t2] k2] |] eqn:E2; [| done]. simpl.
      intros [=]. subst. simpl. f_equal. by eapply IH. }
  destruct s1 as [sd c1]. simpl in Hs. subst sd.
  unfold reset_sample, reset, reset_f, sample, rand. simpl.
  case_bool_decide; [done |]. simpl.
  intros [= <- <- <-]. exists pre. simpl. split; [done |]. split; [done | lia].
Qed.

End randomizer_more.

Lemma quasi_samples_consecutive_witness :
  ∃ outs,
    @observe (numpy_generators origin_points) None
             ((fun n => Sample n 2) <$> [3; 0; 2]) (MT19937.seed_state 1) = Some outs ∧
    length outs = 3%nat ∧
    ∀ k n, [3; 0; 2] !! k = Some n →
           outs !! k = Some (Some (origin_points 2 (Z.to_nat n) (zsum (take k [3; 0; 2])))).
Proof.
  apply (@quasi_samples_consecutive (numpy_generators origin_points) 2 [3; 0; 2]
           (MT19937.seed_state 1)).
  - lia.
  - repeat constructor; lia.
  - reflexivity.
Defined.

Lemma quasi_reset_sample_repeats_witness :
  ∃ pre, [Some (origin_points 1 2 0); Some (origin_points 2 3 0); Some (origin_points 2 3 0)]
         = pre ++ [Some (origin_points 2 3 0); Some (origin_points 2 3 0)] ∧
         length pre = 1%nat ∧ counter (MkRandomizer None 3) = 3.
Proof.
  apply (@quasi_reset_sample_repeats (numpy_generators origin_points) [Sample 2 1] 3 2
           (MT19937.seed_state 1) _ _ (MT19937.seed_state 1)).
  reflexivity.
Defined.

(** ** More on the label volume *)

Lemma create_sourcemap_loop_total dimensions positions sourcemap :
  Forall (fun pos => is_Some (voxel_of dimensions pos)) positions →
  is_Some (for_each (fun sourcemap pos =>
                       key ← voxel_of dimensions pos;
                       Some (Volume (vol_shape sourcemap)
                                    (<[key := 1]> (vol_cells sourcemap))))
                    sourcemap positions).
Proof.
  intros Hall. revert sourcemap.
  induction Hall as [| pos positions [key Hkey] _ IH]; intros sourcemap;
    cbn [for_each]; [eauto |].
  rewrite Hkey. simpl. apply IH.
Qed.

(** The label volume depends on the set of positions only: neither the order of
    the rows of the catalogue nor a position listed twice changes it, and the
    call raises for one list exactly when it raises for the other. *)
Theorem create_sourcemap_set positions1 positions2 dimensions :
  (∀ pos, pos ∈ positions1 ↔ pos ∈ positions2) →
  create_sourcemap positions1 dimensions = create_sourcemap positions2 dimensions.
Proof.
  intros Hsame. unfold create_sourcemap. destruct dimensions as [[d0 d1] d2].
  case_bool_decide; [done |].
  set (body := fun sourcemap pos => _).
  destruct (for_each body (Volume (d0, d1, d2) ∅) positions1) as [v1 |] eqn:E1,
           (for_each body (Volume (d0, d1, d2) ∅) positions2) as [v2 |] eqn:E2.
  - apply create_sourcemap_loop in E1 as (Hs1 & _ & Hc1 & _).
    apply create_sourcemap_loop in E2 as (Hs2 & _ & Hc2 & _).
    destruct v1 as [s1 c1], v2 as [s2 c2]. simpl in *. f_equal. f_equal; [congruence |].
    apply map_eq. intros key. rewrite Hc1, Hc2.
    destruct (decide (Exists _ positions1)) as [He1 | He1],
             (decide (Exists _ positions2)) as [He2 | He2]; try done.
    + exfalso. apply He2. apply list.Exists_exists in He1 as (pos & Hin & Hv).
      apply list.Exists_exists. exists pos. split; [by apply Hsame | done].
    + exfalso. apply He1. apply list.Exists_exists in He2 as (pos & Hin & Hv).
      apply list.Exists_exists. exists pos. split; [by apply Hsame | done].
  - exfalso. apply create_sourcemap_loop in E1 as (_ & Hall & _).
    destruct (create_sourcemap_loop_total (d0, d1, d2) positions2 (Volume (d0, d1, d2) ∅))
      as [v Hv]; [| unfold body in E2; congruence].
    apply list.Forall_forall. intros pos Hin.
    apply (proj1 (list.Forall_forall _ _) Hall). by apply Hsame.
  - exfalso. apply create_sourcemap_loop in E2 as (_ & Hall & _).
    destruct (create_sourcemap_loop_total (d0, d1, d2) positions1 (Volume (d0, d1, d2) ∅))
      as [v Hv]; [| unfold body in E1; congruence].
    apply list.Forall_forall. intros pos Hin.
    apply (proj1 (list.Forall_forall _ _) Hall). by apply Hsame.
  - done.
Qed.

Lemma create_sourcemap_set_witness :
  create_sourcemap [(3, 4, 2); (0, 0, 0); (3, 4, 2)] (5, 6, 7)
  = create_sourcemap [(0, 0, 0); (3, 4, 2)] (5, 6, 7).
Proof.
  apply (create_sourcemap_set [(3, 4, 2); (0, 0, 0); (3, 4, 2)] [(0, 0, 0); (3, 4, 2)]
           (5, 6, 7)).
  intros pos. rewrite !elem_of_cons, !elem_of_nil. tauto.
Defined.

(** ** The rows of the dataset *)

Lemma index_nonneg n k i : Np.index n k = Some i → 0 <= k → i = k ∧ k < n.
Proof. unfold Np.index. repeat case_bool_decide; intros [= <-] ?; lia. Qed.

Lemma setrow_item a counter value a' :
  setrow a counter value = Some a' → 0 <= counter →
  (∃ n rest, shape a = n :: rest ∧ counter < n) ∧
  (∀ r idx, r ≠ counter → item a' (r :: idx) = item a (r :: idx)) ∧
  (∀ idx, item a' (counter :: idx) = item value (broadcast_index (shape value) idx)).
Proof.
  unfold setrow. destruct (shape a) as [| n rest] eqn:Hs; [done |].
  destruct (Np.index n counter) as [c |] eqn:Hi; [| done]. simpl.
  destruct (broadcastable _ _); [| done]. intros [= <-] Hc.
  apply index_nonneg in Hi as [-> Hn]; [| done]. simpl. split; [eauto |]. split.
  - intros r idx Hr. by rewrite bool_decide_eq_false_2.
  - intros idx. by rewrite bool_decide_eq_true_2.
Qed.

Lemma rows_kept_refl c d : rows_kept c d d.
Proof. intros key a Ha. eauto. Qed.

Lemma rows_kept_trans c d0 d1 d2 :
  rows_kept c d0 d1 → rows_kept c d1 d2 → rows_kept c d0 d2.
Proof.
  intros H01 H12 key a2 Ha2.
  destruct (H12 key a2 Ha2) as (a1 & Ha1 & H1).
  destruct (H01 key a1 Ha1) as (a0 & Ha0 & H0).
  exists a0. split; [done |]. intros r idx Hr. by rewrite H1, H0.
Qed.

(** One assignment [data[key][counter] = value]. *)
Lemma data_setrow_facts key counter value d d' :
  data_setrow key counter value d = Some d' → 0 <= counter →
  rows_kept counter d d' ∧
  (∀ key', key' ≠ key → d' !! key' = d !! key') ∧
  (∃ a a' n rest, d !! key = Some a ∧ d' !! key = Some a' ∧
                  shape a = n :: rest ∧ counter < n ∧
                  ∀ idx, item a' (counter :: idx)
                         = item value (broadcast_index (shape value) idx)).
Proof.
  unfold data_setrow. destruct (d !! key) as [a |] eqn:Ha; [| done]. simpl.
  destruct (setrow a counter value) as [a' |] eqn:Hset; [| done]. simpl.
  intros [= <-] Hc.
  destruct (setrow_item _ _ _ _ Hset Hc) as ((n & rest & Hs & Hn) & Hkeep & Hnew).
  split; [| split].
  - intros key' b'. destruct (decide (key = key')) as [<- | Hne].
    + rewrite lookup_insert_eq. intros [= <-]. eauto.
    + rewrite lookup_insert_ne by done. eauto.
  - intros key' Hne. by rewrite lookup_insert_ne.
  - exists a, a', n, rest. by rewrite lookup_insert_eq.
Qed.

Lemma labelled_write a a' from c lo hi k :
  (∀ r idx, r ≠ c → item a' (r :: idx) = item a (r :: idx)) →
  (∀ idx, item a' (c :: idx) = inject_Z k) →
  lo <= k < hi →
  labelled a from c lo hi → labelled a' from (c + 1) lo hi.
Proof.
  intros Hkeep Hnew Hk Hl r Hr. destruct (decide (r = c)) as [-> | Hne].
  - exists k. eauto.
  - destruct (Hl r) as (k' & Hk' & Hv); [lia |]. exists k'. split; [done |].
    intros idx. by rewrite Hkeep.
Qed.

Lemma labelled_frame a a' from to lo hi c :
  (∀ r idx, r ≠ c → item a' (r :: idx) = item a (r :: idx)) →
  to <= c →
  labelled a from to lo hi → labelled a' from to lo hi.
Proof.
  intros Hkeep Hc Hl r Hr. destruct (Hl r Hr) as (k & Hk & Hv). exists k.
  split; [done |]. intros idx. rewrite Hkeep by lia. done.
Qed.

Lemma labelled_weaken a from to lo hi hi' :
  hi <= hi' → labelled a from to lo hi → labelled a from to lo hi'.
Proof.
  intros Hhi Hl r Hr. destruct (Hl r Hr) as (k & Hk & Hv). exists k. split; [lia | done].
Qed.

Lemma blank_write a a' c :
  (∀ r idx, r ≠ c → item a' (r :: idx) = item a (r :: idx)) →
  blank_from a c → blank_from a' (c + 1).
Proof. intros Hkeep Hb r idx Hr. rewrite Hkeep by lia. apply Hb. lia. Qed.

(** A loop whose body adds [c] to a counter adds [n * c] in [n] rounds. *)
Lemma for_range_count {S : Type} (f : S → Z) (c : Z) n start
    (body : Z → S → option S) s s' :
  (∀ i t t', body i t = Some t' → f t' = f t + c) →
  for_range n start body s = Some s' →
  f s' = f s + Z.of_nat n * c.
Proof.
  intros Hstep. revert start s. induction n as [| n IH]; intros start s; simpl.
  - intros [= <-]. lia.
  - destruct (body start s) as [t |] eqn:Hb; [| done]. simpl. intros Hrun.
    rewrite (IH _ _ Hrun), (Hstep _ _ _ Hb). lia.
Qed.

(** *** Counting the rows of the sources *)

Lemma foldr_max_elem b rest : foldr Z.max b rest ∈ b :: rest.
Proof.
  induction rest as [| c rest IH]; simpl; [by left |].
  destruct (Z.max_spec c (foldr Z.max b rest)) as [[_ ->] | [_ ->]].
  - apply elem_of_cons in IH as [-> | IH]; [by left | by do 2 right].
  - right. by left.
Qed.

Lemma getitem_nonneg l b n :
  getitem l b = Some n → 0 <= b →
  l !! Z.to_nat b = Some n ∧ b < Z.of_nat (length l).
Proof.
  unfold getitem. destruct (Np.index _ b) as [i |] eqn:Hi; [| done]. simpl.
  intros Hl Hb. apply index_nonneg in Hi as [-> Hlt]; done.
Qed.

Lemma zsum_app l1 l2 : zsum (l1 ++ l2) = zsum l1 + zsum l2.
Proof. unfold zsum. induction l1 as [| a l1 IH]; simpl; lia. Qed.

Lemma zsum_add_fmap {A : Type} (f h : A → Z) (l : list A) :
  zsum ((fun b => f b + h b) <$> l) = zsum (f <$> l) + zsum (h <$> l).
Proof.
  unfold zsum. induction l as [| a l IH]; [done |].
  rewrite !fmap_cons. cbn [foldr]. lia.
Qed.

Lemma zsum_ext {A : Type} (f h : A → Z) (l : list A) :
  (∀ a, a ∈ l → f a = h a) → zsum (f <$> l) = zsum (h <$> l).
Proof.
  unfold zsum. induction l as [| a l IH]; intros Hfh; [done |].
  rewrite !fmap_cons. cbn [foldr].
  rewrite (Hfh a) by (by left). rewrite IH; [done |]. intros b Hb. apply Hfh. by right.
Qed.

(** The sum over a list without repetition of a function that is 0 off [p]. *)
Lemma zsum_single (g : Z → Z) (p : Z) (l : list Z) :
  NoDup l →
  zsum ((fun b => if decide (p = b) then g b else 0) <$> l)
  = if decide (p ∈ l) then g p else 0.
Proof.
  unfold zsum. induction 1 as [| a l Ha Hl IH].
  - simpl. destruct (decide (p ∈ [])) as [Hin | _]; [by apply elem_of_nil in Hin | done].
  - rewrite fmap_cons. cbn [foldr]. rewrite IH.
    destruct (decide (p = a)) as [-> | Hne], (decide (_ ∈ l)) as [Hin | Hout],
             (decide (_ ∈ a :: l)) as [Hin' | Hout']; try lia; exfalso.
    + done.
    + done.
    + apply Hout'. by left.
    + apply Hout'. by right.
    + apply elem_of_cons in Hin' as [? | ?]; done.
Qed.

Lemma zrange_NoDup lo hi : NoDup (zrange lo hi).
Proof.
  unfold zrange. apply NoDup_fmap_2; [| apply NoDup_seq].
  intros i j Hij. lia.
Qed.

Lemma elem_of_zrange lo hi v : v ∈ zrange lo hi ↔ lo <= v < hi.
Proof.
  unfold zrange. rewrite list_elem_of_fmap. split.
  - intros (i & -> & Hi%elem_of_seq). lia.
  - intros Hv. exists (Z.to_nat (v - lo)). split; [lia |]. apply elem_of_seq. lia.
Qed.

(** A sum over the entries of a list is the sum over the values of the number
    of entries with that value times the term. *)
Lemma zsum_by_bins (g : Z → Z) (m : Z) (l : list Z) :
  Forall (fun b => 0 <= b < m) l →
  zsum (g <$> l)
  = zsum ((fun b => Z.of_nat (length (filter (fun v => v = b) l)) * g b) <$> zrange 0 m).
Proof.
  induction 1 as [| p l Hp Hl IH].
  - simpl. symmetry. etrans; [apply (zsum_ext _ (fun _ => 0)); intros; simpl; lia |].
    unfold zsum. induction (zrange 0 m) as [| a l' IH']; [done |].
    rewrite fmap_cons. cbn [foldr]. lia.
  - rewrite fmap_cons. unfold zsum at 1. cbn [foldr]. fold (zsum (g <$> l)). rewrite IH.
    etrans; [| symmetry; apply (zsum_ext _
      (fun b => (if decide (p = b) then g b else 0)
                + Z.of_nat (length (filter (fun v => v = b) l)) * g b))].
    + rewrite zsum_add_fmap, zsum_single by apply zrange_NoDup.
      destruct (decide (p ∈ zrange 0 m)) as [_ | Hout]; [done |].
      exfalso. apply Hout. by apply elem_of_zrange.
    + intros b _. rewrite filter_cons.
      destruct (decide (p = b)) as [-> | Hne]; simpl; lia.
Qed.

(** Line 24 against the reads of lines 48 and 51: when the table was made by
    [create_data_set] itself and every read of it went through, the sum of line
    24 is the sum of the numbers read, one per record. *)
Lemma total_is_sum_of_reads part_size freq_points_f fpf counts prod ns :
  no_table freq_points_f →
  freq_points_of part_size freq_points_f = Some fpf →
  bincount part_size = Some counts →
  mul_broadcast counts fpf = Some prod →
  Forall2 (fun b n => getitem fpf b = Some n) part_size ns →
  zsum prod = zsum ns.
Proof.
  intros Hno Hf Hc Hm Hreads.
  destruct part_size as [| b0 rest]; [by destruct freq_points_f |].
  set (ps := b0 :: rest) in *.
  set (mx := foldr Z.max b0 rest). set (mn := foldr Z.min b0 rest).
  pose proof Hc as Hc'. apply bincount_length in Hc' as [Hall Hlc]. fold mx in Hlc.
  assert (Hbounds : ∀ b, b ∈ ps → mn <= b <= mx ∧ 0 <= b).
  { intros b Hb. split; [split; [by apply foldr_min_le | by apply foldr_max_ge] |].
    by apply (proj1 (list.Forall_forall _ _) Hall). }
  assert (Hlf : length fpf = Z.to_nat (mx - mn + 1)).
  { destruct freq_points_f as [| n | ?]; [| | done]; simpl in Hf; injection Hf as <-.
    - rewrite length_fmap, zrange_length. fold mx mn. f_equal. lia.
    - by rewrite length_fmap, length_replicate. }
  assert (Hread : ∀ b, b ∈ ps → ∃ n, fpf !! Z.to_nat b = Some n ∧
                                     b < Z.of_nat (length fpf)).
  { intros b Hb. apply list_elem_of_lookup in Hb as [i Hi].
    destruct (Forall2_lookup_l _ _ _ _ _ Hreads Hi) as (n & _ & Hn).
    exists n. apply getitem_nonneg; [done |]. apply Hbounds.
    by apply list_elem_of_lookup_2 in Hi. }
  assert (Hmn : mn = 0).
  { destruct (Hbounds mx (foldr_max_elem b0 rest)) as [_ Hmx0].
    destruct (Hbounds mn (foldr_min_elem b0 rest)) as [[_ Hle] Hmn0].
    destruct (Hread mx (foldr_max_elem b0 rest)) as (n & _ & Hlt). lia. }
  assert (Hlen : length counts = length fpf) by (rewrite Hlc, Hlf; f_equal; lia).
  unfold mul_broadcast in Hm. rewrite bool_decide_eq_true_2 in Hm by done.
  injection Hm as <-.
  set (g := fun b : Z => default 0 (fpf !! Z.to_nat b)).
  assert (Hns : ns = g <$> ps).
  { apply list_eq. intros i. rewrite list_lookup_fmap.
    destruct (ps !! i) as [b |] eqn:Hi; simpl.
    - destruct (Forall2_lookup_l _ _ _ _ _ Hreads Hi) as (n & Hn & Hget).
      rewrite Hn. f_equal. unfold g.
      apply getitem_nonneg in Hget as [-> _]; [done |].
      apply Hbounds. by apply list_elem_of_lookup_2 in Hi.
    - apply lookup_ge_None. apply lookup_ge_None in Hi.
      by rewrite <- (Forall2_length Hreads). }
  rewrite Hns. rewrite (zsum_by_bins g (mx + 1)).
  2: { apply list.Forall_forall. intros b Hb. destruct (Hbounds b Hb). lia. }
  f_equal. unfold bincount in Hc. rewrite bool_decide_eq_true_2 in Hc by done.
  injection Hc as <-. fold mx.
  apply list_eq. intros i. rewrite lookup_zip_with, !list_lookup_fmap.
  destruct (zrange 0 (mx + 1) !! i) as [b |] eqn:Hi; simpl; [| done].
  assert (Hb : b = Z.of_nat i ∧ (i < length fpf)%nat).
  { apply lookup_lt_Some in Hi as Hlt. rewrite zrange_length in Hlt.
    rewrite zrange_lookup in Hi by done. injection Hi as <-. lia. }
  destruct Hb as [-> Hi'].
  destruct (lookup_lt_is_Some_2 fpf i Hi') as [n Hn]. rewrite Hn. simpl.
  unfold g. rewrite Nat2Z.id, Hn. done.
Qed.

Section rows.

Context `{Generators}.

Lemma put_source_facts hi_data sourcemap f x y st st' :
  put_source hi_data sourcemap f x y st = Some st' → 0 <= sample_counter st →
  sample_counter st' = sample_counter st + 1 ∧ cluster st' = cluster st ∧
  rows_kept (sample_counter st) (data st) (data st') ∧
  data st' !! "class" = data st !! "class" ∧
  (∀ a', data st' !! "cluster" = Some a' →
         ∀ idx, item a' (sample_counter st :: idx) = inject_Z (cluster st)) ∧
  (∃ a n rest, data st !! "image" = Some a ∧ shape a = n :: rest ∧
               sample_counter st < n).
Proof.
  unfold put_source. intros Hrun Hc.
  destruct (data_setrow "image" _ _ _) as [d1 |] eqn:H1; [| done]. simpl in Hrun.
  destruct (data_setrow "sourcemap" _ _ _) as [d2 |] eqn:H2; [| done]. simpl in Hrun.
  destruct (data_setrow "position" _ _ _) as [d3 |] eqn:H3; [| done]. simpl in Hrun.
  destruct (data_setrow "cluster" _ _ _) as [d4 |] eqn:H4; [| done]. simpl in Hrun.
  injection Hrun as <-. simpl.
  apply data_setrow_facts in H1 as (K1 & O1 & (a1 & b1 & n1 & r1 & A1 & _ & S1 & N1 & _));
    [| done].
  apply data_setrow_facts in H2 as (K2 & O2 & _); [| done].
  apply data_setrow_facts in H3 as (K3 & O3 & _); [| done].
  apply data_setrow_facts in H4 as (K4 & O4 & (a4 & b4 & n4 & r4 & _ & B4 & _ & _ & V4));
    [| done].
  split; [done |]. split; [done |]. split; [eauto using rows_kept_trans |].
  split; [| split; [| by exists a1, n1, r1]].
  - rewrite O4, O3, O2, O1 by done. done.
  - intros a'. rewrite B4. intros [= <-] idx. by rewrite V4.
Qed.

Lemma put_empty_facts hi_data f x y st st' :
  put_empty hi_data f x y st = Some st' → 0 <= sample_counter st →
  sample_counter st' = sample_counter st + 1 ∧ cluster st' = cluster st ∧
  rows_kept (sample_counter st) (data st) (data st') ∧
  data st' !! "class" = data st !! "class" ∧
  data st' !! "sourcemap" = data st !! "sourcemap" ∧
  (∀ a', data st' !! "cluster" = Some a' →
         ∀ idx, item a' (sample_counter st :: idx) = inject_Z (cluster st)) ∧
  (∃ a n rest, data st !! "image" = Some a ∧ shape a = n :: rest ∧
               sample_counter st < n).
Proof.
  unfold put_empty. intros Hrun Hc.
  destruct (data_setrow "image" _ _ _) as [d1 |] eqn:H1; [| done]. simpl in Hrun.
  destruct (data_setrow "position" _ _ _) as [d3 |] eqn:H3; [| done]. simpl in Hrun.
  destruct (data_setrow "cluster" _ _ _) as [d4 |] eqn:H4; [| done]. simpl in Hrun.
  injection Hrun as <-. simpl.
  apply data_setrow_facts in H1 as (K1 & O1 & (a1 & b1 & n1 & r1 & A1 & _ & S1 & N1 & _));
    [| done].
  apply data_setrow_facts in H3 as (K3 & O3 & _); [| done].
  apply data_setrow_facts in H4 as (K4 & O4 & (a4 & b4 & n4 & r4 & _ & B4 & _ & _ & V4));
    [| done].
  split; [done |]. split; [done |]. split; [eauto using rows_kept_trans |].
  split; [| split; [| split; [| by exists a1, n1, r1]]].
  - rewrite O4, O3, O1 by done. done.
  - rewrite O4, O3, O1 by done. done.
  - intros a'. rewrite B4. intros [= <-] idx. by rewrite V4.
Qed.

Lemma put_source_counter hi_data sourcemap f x y st st' :
  put_source hi_data sourcemap f x y st = Some st' →
  sample_counter st' = sample_counter st + 1.
Proof.
  unfold put_source. intros Hrun.
  destruct (data_setrow "image" _ _ _) as [d1 |]; [| done]. simpl in Hrun.
  destruct (data_setrow "sourcemap" _ _ _) as [d2 |]; [| done]. simpl in Hrun.
  destruct (data_setrow "position" _ _ _) as [d3 |]; [| done]. simpl in Hrun.
  destruct (data_setrow "cluster" _ _ _) as [d4 |]; [| done]. simpl in Hrun.
  by injection Hrun as <-.
Qed.

Lemma put_empty_counter hi_data f x y st st' :
  put_empty hi_data f x y st = Some st' →
  sample_counter st' = sample_counter st + 1.
Proof.
  unfold put_empty. intros Hrun.
  destruct (data_setrow "image" _ _ _) as [d1 |]; [| done]. simpl in Hrun.
  destruct (data_setrow "position" _ _ _) as [d3 |]; [| done]. simpl in Hrun.
  destruct (data_setrow "cluster" _ _ _) as [d4 |]; [| done]. simpl in Hrun.
  by injection Hrun as <-.
Qed.

Lemma image_rows (d d' : gmap string ndarray) n_points rest a n rest' :
  shape <$> d !! "image" = Some (n_points :: rest) →
  d !! "image" = Some a → shape a = n :: rest' →
  same_shapes d d' →
  n = n_points ∧ shape <$> d' !! "image" = Some (n_points :: rest).
Proof.
  intros Hs Ha Hsa Hsame. rewrite Ha in Hs. simpl in Hs. rewrite Hsa in Hs.
  injection Hs as -> ->. split; [done |]. rewrite Hsame, Ha. simpl. by rewrite Hsa.
Qed.

Lemma put_source_rows class n_points hi hi_data sourcemap f x y st st' :
  put_source hi_data sourcemap f x y st = Some st' →
  0 <= cluster st < hi →
  source_rows class n_points hi st → source_rows class n_points hi st'.
Proof.
  intros Hput Hk ([Hc0 Hc1] & Hclass & [rest Himg] & Hmap & Hclu).
  pose proof (put_source_shapes _ _ _ _ _ _ _ Hput) as Hsame.
  destruct (put_source_facts _ _ _ _ _ _ _ Hput Hc0)
    as (Hc & _ & Hkept & Hcl & Hnew & (a & n & rest' & Ha & Hsa & Hn)).
  destruct (image_rows _ _ _ _ _ _ _ Himg Ha Hsa Hsame) as [-> Himg'].
  unfold source_rows. rewrite Hc. split; [lia |]. split; [congruence |].
  split; [eauto |]. split.
  - intros a' Ha'. destruct (Hkept _ _ Ha') as (a0 & Ha0 & Hk0).
    eapply blank_write; eauto.
  - intros a' Ha'. destruct (Hkept _ _ Ha') as (a0 & Ha0 & Hk0).
    eapply labelled_write; eauto.
Qed.

Lemma rr_sample_size (r : Randomizer) n d g x :
  rr_sample r n d g = Some x → 0 <= n ∧ 0 <= d.
Proof.
  unfold rr_sample, rand. case_bool_decide; [done |]. intros _. lia.
Qed.

(** The body of the loop over the catalogue, taken apart. *)
Lemma draw_source_unfold hi_data sourcemap positions lower_band upper_band part_size
    freq_points_f side_length precuation freq_band spatial_points i st st' :
  draw_source hi_data sourcemap positions lower_band upper_band part_size freq_points_f
              side_length precuation freq_band spatial_points i st = Some st' →
  ∃ b n r g (freq x y : list (Z * Z)) st2,
    part_size !! Z.to_nat i = Some b ∧ getitem freq_points_f b = Some n ∧
    0 <= n ∧ 0 <= spatial_points ∧
    for_range (Z.to_nat spatial_points) 0
      (fun j st =>
         for_range (Z.to_nat n) 0
           (fun k st =>
              f ← freq !! Z.to_nat k;
              xj ← x !! Z.to_nat j;
              yj ← y !! Z.to_nat j;
              put_source hi_data sourcemap f xj yj st)
           st)
      (Locals (data st) (sample_counter st) (cluster st) r g) = Some st2 ∧
    st' = Locals (data st2) (sample_counter st2) (cluster st2 + 1) (rnd st2)
                 (np_state st2).
Proof.
  unfold draw_source. destruct (cube_shape hi_data) as [[s0 s1] s2].
  destruct (lower_band !! _) as [l_band |]; [| done]. simpl.
  destruct (upper_band !! _) as [u_band |]; [| done]. simpl.
  destruct (positions !! _) as [source_pos |]; [| done]. simpl.
  destruct (rr_sample (rnd st) _ _ _) as [[[rdn r] g] |] eqn:Hr1; [| done]. simpl.
  destruct (random_center_box _ _ _ _ _ _) as [xy |]; [| done]. simpl.
  destruct (unpack2 xy) as [[x y] |]; [| done]. simpl.
  destruct (part_size !! _) as [b |] eqn:Hb; [| done]. simpl.
  destruct (getitem _ b) as [n |] eqn:Hn; [| done]. simpl.
  destruct (rr_sample r n 1 g) as [[[rdn2 r2] g2] |] eqn:Hr2; [| done]. simpl.
  destruct (random_in_interval _ _ _ ≫= head) as [freq |]; [| done]. simpl.
  destruct (for_range _ _ _ _) as [st2 |] eqn:Hloop; [| done]. simpl.
  intros [= <-]. apply rr_sample_size in Hr1 as [Hsp _], Hr2 as [Hn0 _].
  exists b, n, r2, g2, freq, x, y, st2. done.
Qed.

Lemma draw_source_rows class n_points hi_data sourcemap positions lower_band upper_band
    part_size freq_points_f side_length precuation freq_band spatial_points i st st' :
  draw_source hi_data sourcemap positions lower_band upper_band part_size freq_points_f
              side_length precuation freq_band spatial_points i st = Some st' →
  0 <= cluster st →
  source_rows class n_points (cluster st) st →
  source_rows class n_points (cluster st') st' ∧
  cluster st' = cluster st + 1 ∧
  ∃ b n, part_size !! Z.to_nat i = Some b ∧ getitem freq_points_f b = Some n ∧
         sample_counter st' = sample_counter st + spatial_points * n.
Proof.
  intros Hrun Hk Hinv.
  destruct (draw_source_unfold _ _ _ _ _ _ _ _ _ _ _ _ _ _ Hrun)
    as (b & n & r & g & freq & x & y & st2 & Hb & Hn & Hn0 & Hsp & Hloop & ->).
  simpl.
  set (K := cluster st) in *.
  assert (Hst2 : cluster st2 = K ∧ source_rows class n_points (K + 1) st2).
  { revert Hloop.
    apply (for_range_inv
             (fun t : locals gstate => cluster t = K ∧ source_rows class n_points (K + 1) t)).
    - split; [done |]. destruct Hinv as (? & ? & ? & ? & Hclu).
      repeat split; simpl; try done; try lia.
      intros a Ha. eapply labelled_weaken; [| by apply Hclu]. lia.
    - intros j t t' _ Ht.
      apply (for_range_inv
               (fun u : locals gstate =>
                  cluster u = K ∧ source_rows class n_points (K + 1) u)); [done |].
      intros k u u' _ [Hku Hu] Hput.
      destruct (freq !! Z.to_nat k) as [f |]; [| done]. simpl in Hput.
      destruct (x !! Z.to_nat j) as [xj |]; [| done]. simpl in Hput.
      destruct (y !! Z.to_nat j) as [yj |]; [| done]. simpl in Hput.
      destruct Hu as (Hc & Hrest).
      destruct (put_source_facts _ _ _ _ _ _ _ Hput (proj1 Hc)) as (_ & Hk' & _).
      split; [lia |]. eapply put_source_rows; [exact Hput | lia | by split]. }
  destruct Hst2 as [HK Hrows]. rewrite HK.
  split; [| split; [done |]].
  - unfold source_rows in *. simpl. done.
  - exists b, n. split; [done |]. split; [done |].
    apply (for_range_count sample_counter (Z.of_nat (Z.to_nat n))) in Hloop.
    + simpl in Hloop. lia.
    + intros j t t' Hin.
      apply (for_range_count sample_counter 1) in Hin; [lia |].
      intros k u u' Hput.
      destruct (freq !! Z.to_nat k) as [f |]; [| done]. simpl in Hput.
      destruct (x !! Z.to_nat j) as [xj |]; [| done]. simpl in Hput.
      destruct (y !! Z.to_nat j) as [yj |]; [| done]. simpl in Hput.
      by eapply put_source_counter.
Qed.

(** The loop over the catalogue: the rows it writes, the cluster number it
    leaves, and the number of rows, read by read of the table. *)
Lemma sources_loop class n_points hi_data sourcemap positions lower_band upper_band
    part_size freq_points_f side_length precuation freq_band spatial_points m start
    st st' :
  for_range m start
    (draw_source hi_data sourcemap positions lower_band upper_band part_size
                 freq_points_f side_length precuation freq_band spatial_points)
    st = Some st' →
  0 <= start → 0 <= cluster st →
  source_rows class n_points (cluster st) st →
  source_rows class n_points (cluster st') st' ∧
  cluster st' = cluster st + Z.of_nat m ∧
  ∃ ns, Forall2 (fun b n => getitem freq_points_f b = Some n)
                (take m (drop (Z.to_nat start) part_size)) ns ∧
        sample_counter st' = sample_counter st + spatial_points * zsum ns.
Proof.
  revert start st. induction m as [| m IH]; intros start st Hrun Hs Hk Hinv.
  - simpl in Hrun. injection Hrun as <-. split; [done |]. split; [lia |].
    exists []. split; [constructor | simpl; lia].
  - simpl in Hrun.
    destruct (draw_source _ _ _ _ _ _ _ _ _ _ _ start st) as [t |] eqn:Hd; [| done].
    simpl in Hrun.
    destruct (draw_source_rows _ _ _ _ _ _ _ _ _ _ _ _ _ _ _ _ Hd Hk Hinv)
      as (Hinv1 & Hk1 & b & n & Hb & Hn & Hc1).
    destruct (IH (start + 1) t Hrun) as (Hinv2 & Hk2 & ns & Hns & Hc2);
      [lia | lia | done |].
    split; [done |]. split; [lia |]. exists (n :: ns). split.
    + rewrite (drop_S _ _ _ Hb). simpl. constructor; [done |].
      replace (S (Z.to_nat start)) with (Z.to_nat (start + 1)) by lia. done.
    + rewrite Hc2, Hc1. unfold zsum. simpl. lia.
Qed.

Lemma put_empty_rows class n_points n_sources n_records hi hi_data f x y st st' :
  put_empty hi_data f x y st = Some st' →
  0 <= n_sources → n_records <= cluster st < hi →
  empty_rows class n_points n_sources n_records hi st →
  empty_rows class n_points n_sources n_records hi st'.
Proof.
  intros Hput Hns Hk ([Hc0 Hc1] & Hclass & [rest Himg] & Hmap & Hclu).
  pose proof (put_empty_shapes _ _ _ _ _ _ Hput) as Hsame.
  destruct (put_empty_facts _ _ _ _ _ _ Hput ltac:(lia))
    as (Hc & _ & Hkept & Hcl & Hsm & Hnew & (a & n & rest' & Ha & Hsa & Hn)).
  destruct (image_rows _ _ _ _ _ _ _ Himg Ha Hsa Hsame) as [-> Himg'].
  unfold empty_rows. rewrite Hc. split; [lia |]. split; [congruence |].
  split; [eauto |]. split.
  - intros a'. rewrite Hsm. apply Hmap.
  - intros a' Ha'. destruct (Hkept _ _ Ha') as (a0 & Ha0 & Hk0).
    destruct (Hclu a0 Ha0) as [Hl1 Hl2]. split.
    + eapply labelled_frame; eauto.
    + eapply labelled_write; eauto.
Qed.

Lemma draw_empty_rows class n_points n_sources n_records hi_data sourcemap side_length
    freq_band freq_empty st st' :
  draw_empty hi_data sourcemap side_length freq_band freq_empty st = Some st' →
  0 <= n_sources → n_records <= cluster st →
  empty_rows class n_points n_sources n_records (cluster st) st →
  n_records <= cluster st' ∧
  empty_rows class n_points n_sources n_records (cluster st') st'.
Proof.
  unfold draw_empty. destruct (cube_shape hi_data) as [[s0 s1] s2].
  intros Hrun Hns Hk Hinv.
  repeat (simplify_option_eq; try case_match); simpl; [| done].
  set (K := cluster st) in *.
  match goal with
  | Hloop : for_range _ _ _ _ = Some ?t |- _ =>
      assert (cluster t = K ∧ empty_rows class n_points n_sources n_records (K + 1) t)
        as [HK Hrows];
      [revert Hloop;
       apply (for_range_inv
                (fun u : locals gstate =>
                   cluster u = K ∧ empty_rows class n_points n_sources n_records (K + 1) u))
      |]
  end.
  - split; [done |]. destruct Hinv as (? & ? & ? & ? & Hclu).
    unfold empty_rows. simpl. repeat (split; [done |]).
    intros a Ha. destruct (Hclu a Ha) as [Hl1 Hl2]. split; [done |].
    eapply labelled_weaken; [| exact Hl2]. lia.
  - intros k u u' _ [Hku Hu] Hput.
    repeat (simplify_option_eq; try case_match).
    match goal with
    | Hp : put_empty _ _ _ _ _ = Some _ |- _ =>
        pose proof (put_empty_facts _ _ _ _ _ _ Hp
                      ltac:(destruct Hu as ([? ?] & _); lia)) as (_ & Hk' & _);
        split; [lia |]; eapply put_empty_rows; [exact Hp | lia | lia | done]
    end.
  - rewrite HK. split; [lia |]. unfold empty_rows in *. simpl. done.
Qed.

(** The [while] loop keeps the rows of the sources and fills the rows after
    them, up to the last one. *)
Lemma draw_empties_rows class n_sources n_records fuel hi_data sourcemap side_length
    freq_band freq_empty n_points st st' :
  draw_empties fuel hi_data sourcemap side_length freq_band freq_empty n_points st
    = Some st' →
  0 <= n_sources → n_records <= cluster st →
  empty_rows class n_points n_sources n_records (cluster st) st →
  empty_rows class n_points n_sources n_records (cluster st') st' ∧
  sample_counter st' = n_points.
Proof.
  revert st. induction fuel as [| fuel IH]; intros st; simpl;
    case_bool_decide as Hlt; try done.
  - intros [= <-] _ _ Hinv. split; [done |]. destruct Hinv as ([_ ?] & _). lia.
  - destruct (draw_empty _ _ _ _ _ st) as [st1 |] eqn:Hd; [| done]. simpl.
    intros Hrest Hns Hk Hinv.
    destruct (draw_empty_rows _ _ _ _ _ _ _ _ _ _ _ Hd Hns Hk Hinv) as [Hk1 Hinv1].
    by apply (IH st1).
  - intros [= <-] _ _ Hinv. split; [done |]. destruct Hinv as ([_ ?] & _). lia.
Qed.

(** The arrays that lines 31 to 35 allocate. *)
Lemma allocate_rows n_points n_sources freq_band side_length d :
  allocate n_points n_sources freq_band side_length = Some d →
  ∃ class,
    d !! "class" = Some class ∧
    (∀ r, item class [r] = if bool_decide (r < n_sources) then 1%Q else 0%Q) ∧
    ∀ (r : Randomizer) (g : gstate),
      source_rows (Some class) n_points 0 (Locals d 0 0 r g).
Proof.
  intros Halloc. pose proof Halloc as Hsh. apply (allocate_shapes (fun t => t)) in Hsh as (Hn & Harr & _).
  unfold allocate in Halloc.
  destruct (zeros [n_points; freq_band; side_length; side_length]) as [a1 |] eqn:H1;
    [| done]. simpl in Halloc.
  destruct (zeros [n_points; side_length; side_length]) as [a2 |] eqn:H2; [| done].
  simpl in Halloc.
  destruct (zeros [n_points; 3; 2]) as [a3 |] eqn:H3; [| done]. simpl in Halloc.
  destruct (zeros [n_points]) as [a4 |] eqn:H4; [| done]. simpl in Halloc.
  injection Halloc as <-.
  eexists. split; [by rewrite lookup_insert_ne, lookup_insert_eq |].
  split; [done |]. intros r g. unfold source_rows. simpl.
  split; [lia |].
  split; [by rewrite lookup_insert_ne, lookup_insert_eq |].
  split; [destruct Harr as (Hi & _); eauto |]. split.
  - intros a. repeat (rewrite lookup_insert_ne by done). rewrite lookup_insert_eq.
    intros [= <-]. unfold zeros in H2. case_bool_decide; [| done].
    injection H2 as <-. by intros i idx _.
  - intros a _ i Hi. lia.
Qed.

Lemma part_sizes_length upper_band lower_band freq_band part_size :
  part_sizes upper_band lower_band freq_band = Some part_size →
  length part_size = min (length upper_band) (length lower_band).
Proof.
  unfold part_sizes. case_bool_decide; [done |]. intros [= <-].
  by rewrite length_zip_with.
Qed.

End rows.

(** The rows of the dataset, when the table of counts was not supplied: the
    first [n_sources] rows are the positive samples, with class 1 and the
    number of their record as cluster; all rows after them are negative samples,
    with class 0, a cluster number that is no record's, and an empty source
    map. *)
Theorem create_data_set_rows `{Generators} all_world2pix fuel df hi_data prob_galaxy
    side_length precuation freq_band spatial_points freq_points_f seed g d :
  no_table freq_points_f →
  create_data_set all_world2pix fuel df hi_data prob_galaxy side_length precuation
                  freq_band spatial_points freq_points_f seed g = Some d →
  ∃ n_points n_sources,
    0 <= n_sources <= n_points ∧
    dataset_arrays d n_points freq_band side_length ∧
    (∀ r, 0 <= r < n_sources → positive_row d (Z.of_nat (length df)) r) ∧
    (∀ r, n_sources <= r < n_points → negative_row d (Z.of_nat (length df)) r).
Proof.
  intros Hno. unfold create_data_set.
  destruct (create_sourcemap _ _) as [sourcemap |]; [| done]. simpl.
  destruct (part_sizes _ _ _) as [part_size |] eqn:Hps; [| done]. simpl.
  destruct (freq_points_of _ _) as [fpf |] eqn:Hf; [| done]. simpl.
  destruct (sample_counts _ _ _ _ _) as [[[n_sources freq_empty] n_points] |] eqn:Hsc;
    [| done]. simpl.
  destruct (allocate _ _ _ _) as [arrays |] eqn:Halloc; [| done]. simpl.
  destruct (for_range _ _ _ _) as [st1 |] eqn:Hloop; [| done]. simpl.
  destruct (draw_empties _ _ _ _ _ _ _ _) as [st2 |] eqn:Hwhile; [| done]. simpl.
  intros [= <-].
  (* the shapes *)
  pose proof Halloc as Hsh0. apply (allocate_shapes all_world2pix) in Hsh0 as (Hn & Harr & _).
  pose proof (draw_empties_shapes _ _ _ _ _ _ _ _ _ Hwhile) as Hsh2.
  pose proof Hloop as Hsh1.
  apply (for_range_inv (fun t : locals gstate => same_shapes arrays (data t))) in Hsh1;
    [| apply same_shapes_refl |].
  2: { intros i t t' _ Ht Hd. eapply same_shapes_trans; [exact Ht |].
       by eapply draw_source_shapes. }
  pose proof (same_shapes_trans _ _ _ Hsh1 Hsh2) as Hall.
  assert (Hshapes : dataset_arrays (data st2) n_points freq_band side_length).
  { unfold dataset_arrays in *. by rewrite !Hall. }
  (* the loop over the catalogue *)
  destruct (allocate_rows _ _ _ _ _ Halloc) as (class & Hclass & Hitem & Hrows0).
  destruct (sources_loop _ _ _ _ _ _ _ _ _ _ _ _ _ _ _ _ _ Hloop ltac:(lia) ltac:(simpl; lia)
              (Hrows0 _ _)) as (Hrows1 & Hk1 & ns & Hns & Hc1).
  simpl in Hk1, Hc1.
  apply part_sizes_length in Hps as Hlen. rewrite !length_fmap, Nat.min_id in Hlen.
  rewrite drop_0, <- Hlen, firstn_all in Hns.
  unfold sample_counts in Hsc.
  destruct (bincount part_size) as [counts |] eqn:Hbc; [| done]. simpl in Hsc.
  destruct (mul_broadcast counts fpf) as [prod |] eqn:Hmul; [| done]. simpl in Hsc.
  case_bool_decide; [done |]. destruct (Qeq_bool _ _); [done |].
  injection Hsc as Hsrc _ _.
  pose proof (total_is_sum_of_reads _ _ _ _ _ _ Hno Hf Hbc Hmul Hns) as Htotal.
  assert (Hcount : sample_counter st1 = n_sources) by (rewrite Hc1, <- Hsrc, Htotal; lia).
  (* the while loop *)
  destruct Hrows1 as ([Hc0 Hc2] & Hcl1 & Himg1 & Hmap1 & Hclu1).
  destruct (draw_empties_rows (Some class) n_sources (Z.of_nat (length df)) _ _ _ _ _ _ _ _ _
              Hwhile) as (Hrows2 & Hfinal); [lia | lia | |].
  { unfold empty_rows. rewrite Hcount in *. rewrite Hk1 in *.
    split; [lia |]. split; [done |]. split; [done |]. split; [done |].
    intros a Ha. split; [by apply Hclu1 |]. intros r Hr. lia. }
  destruct Hrows2 as (_ & Hcl2 & _ & Hmap2 & Hclu2).
  exists n_points, n_sources. rewrite Hcount in *.
  split; [lia |]. split; [done |].
  destruct Hshapes as (_ & Hsm & _ & _ & Hcs).
  destruct (data st2 !! "sourcemap") as [smap |] eqn:Esm; [| done].
  destruct (data st2 !! "cluster") as [clu |] eqn:Ecl; [| done].
  destruct (Hclu2 clu eq_refl) as [Hpos Hneg]. rewrite Hfinal in Hneg. split.
  - intros r Hr. destruct (Hpos r Hr) as (k & Hk & Hv).
    exists class, clu, k. rewrite Hitem, bool_decide_eq_true_2 by lia. done.
  - intros r Hr. destruct (Hneg r Hr) as (k & Hk & Hv).
    exists class, clu, smap, k. rewrite Hitem, bool_decide_eq_false_2 by lia.
    repeat (split; [done || lia |]). intros idx. apply Hmap2; [done | lia].
Qed.

Lemma create_data_set_rows_witness :
  ∃ d, demo_data_set [wide_source; narrow_source] 2 10 = Some d ∧
       ∃ n_points n_sources,
         0 <= n_sources <= n_points ∧
         dataset_arrays d n_points 2 4 ∧
         (∀ r, 0 <= r < n_sources → positive_row d 2 r) ∧
         (∀ r, n_sources <= r < n_points → negative_row d 2 r).
Proof.
  assert (returned (demo_data_set [wide_source; narrow_source] 2 10) = true) as Hr
    by (vm_compute; reflexivity).
  destruct (demo_data_set [wide_source; narrow_source] 2 10) as [d |] eqn:E;
    [| discriminate Hr].
  exists d. split; [reflexivity |].
  exact (@create_data_set_rows (numpy_generators origin_points) (fun t => t) 10
           [wide_source; narrow_source] demo_cube (1 # 2) 4 0 2 1 FreqDefault (Some 0)
           (MT19937.seed_state 1) d I E).
Defined.

(** ** What the segmentation volume holds *)

Lemma for_each_app {A S : Type} (f : S → A → option S) (s : S) (l1 l2 : list A) :
  for_each f s (l1 ++ l2) = for_each f s l1 ≫= fun s1 => for_each f s1 l2.
Proof.
  revert s. induction l1 as [| a l1 IH]; intros s; simpl; [done |].
  destruct (f s a) as [s' |]; simpl; [apply IH | done].
Qed.

Lemma for_range_split {St : Type} n start (body : Z → St → option St) s s' (i : nat) :
  for_range n start body s = Some s' → (i < n)%nat →
  ∃ s1 s2, for_range i start body s = Some s1 ∧
           body (start + Z.of_nat i) s1 = Some s2 ∧
           for_range (n - i - 1) (start + Z.of_nat i + 1) body s2 = Some s'.
Proof.
  revert n start s. induction i as [| i IH]; intros n start s Hrun Hi.
  - destruct n as [| n]; [lia |]. simpl in Hrun.
    destruct (body start s) as [t |] eqn:Hb; [| done]. simpl in Hrun.
    exists s, t. simpl. rewrite Z.add_0_r, Nat.sub_0_r. done.
  - destruct n as [| n]; [lia |]. simpl in Hrun.
    destruct (body start s) as [t |] eqn:Hb; [| done]. simpl in Hrun.
    destruct (IH n (start + 1) t Hrun) as (s1 & s2 & H1 & H2 & H3); [lia |].
    exists s1, s2. simpl. rewrite Hb. simpl.
    replace (start + Z.of_nat (S i)) with (start + 1 + Z.of_nat i) by lia.
    done.
Qed.

(** An assignment to a block: the entry it leaves at a key of the block. *)
Lemma setitem_written ranges key value data data' suffix :
  setitem ranges key value data = Some data' →
  length (shape value) = length ranges →
  in_ranges suffix ranges →
  data' !! (key ++ suffix) =
    (if Qeq_bool (item value (stamp_index (shape value) ranges suffix)) 0 then None
     else Some (item value (stamp_index (shape value) ranges suffix))).
Proof.
  revert key value data data' suffix.
  induction ranges as [| [start stop] rest IH];
    intros key value data data' suffix Hset Hlen Hin.
  - apply Forall2_nil_inv_r in Hin as ->. rewrite app_nil_r.
    destruct (shape value) as [| ? ?] eqn:Hs; [| done].
    simpl in Hset. rewrite Hs in Hset. simpl in Hset. injection Hset as <-. simpl.
    destruct (Qeq_bool _ _); [by rewrite lookup_delete_eq | by rewrite lookup_insert_eq].
  - apply Forall2_cons_inv_r in Hin as (k & suffix' & [Hk1 Hk2] & Hin' & ->).
    simpl in Hk1, Hk2.
    destruct (shape value) as [| n shape'] eqn:Hs; [done |]. simpl in Hlen.
    cbn [setitem] in Hset. rewrite Hs in Hset.
    set (vmd := Z.of_nat _ - Z.of_nat _) in Hset.
    assert (vmd = 0) as Hvmd by (unfold vmd; simpl; lia).
    clearbody vmd. subst vmd.
    rewrite (bool_decide_eq_false_2 (0 < 0)) in Hset by lia.
    destruct (for_range_split _ _ _ _ _ (Z.to_nat (k - start)) Hset)
      as (s1 & s2 & _ & Hbody & Hpost); [lia |].
    cbv beta in Hbody. rewrite Z2Nat.id, Z.add_0_l in Hbody by lia.
    replace (start + (k - start)) with k in Hbody by lia.
    assert (data' !! (key ++ k :: suffix') = s2 !! (key ++ k :: suffix')) as ->.
    { revert Hpost.
      apply (for_range_inv (fun t => t !! (key ++ k :: suffix')
                                     = s2 !! (key ++ k :: suffix'))); [done |].
      intros i t t' Hi Ht Hb.
      destruct (if bool_decide _ then _ else sub value i) as [vi |]; [| done].
      simpl in Hb. rewrite <- Ht. apply (setitem_frame _ _ _ _ _ _ Hb).
      intros sfx Heq _. rewrite <- app_assoc in Heq. apply app_inv_head in Heq.
      simpl in Heq. injection Heq as Heq _. lia. }
    simpl in Hbody. simpl. destruct (decide (n = 1)) as [-> | Hne].
    + rewrite (bool_decide_eq_true_2 (Some 1 = Some 1)) in Hbody by done.
      rewrite (bool_decide_eq_true_2 (1 = 1)) by done.
      unfold sub in Hbody. rewrite Hs in Hbody.
      rewrite (bool_decide_eq_true_2 (0 <= 0 < 1)) in Hbody by lia. simpl in Hbody.
      rewrite (cons_middle k), app_assoc.
      rewrite (IH _ _ _ _ suffix' Hbody); simpl; [done | lia | done].
    + rewrite (bool_decide_eq_false_2 (Some n = Some 1)) in Hbody by congruence.
      rewrite (bool_decide_eq_false_2 (n = 1)) by done.
      unfold sub in Hbody. rewrite Hs in Hbody.
      destruct (bool_decide (0 <= k - start < n)); [| done]. simpl in Hbody.
      rewrite (cons_middle k), app_assoc.
      rewrite (IH _ _ _ _ suffix' Hbody); simpl; [done | lia | done].
Qed.

Lemma slice_ranges_length shape slices :
  (length slices <= length shape)%nat →
  length (slice_ranges shape slices) = length shape.
Proof.
  intros Hl. unfold slice_ranges.
  rewrite length_app, length_zip_with, length_fmap, length_drop. lia.
Qed.

Lemma getslice_shape_length a slices small :
  getslice a slices = Some small → length (shape small) = length (shape a).
Proof.
  unfold getslice. case_bool_decide; [| done]. intros [= <-]. simpl.
  by rewrite length_fmap, slice_ranges_length.
Qed.

Section stored_facts.

Variable cross_section : catalog_row → Z → Z → Z → Q.
Variable min_axis_pixels : Q.

(** The stamp of a row: a square of odd side, at least 3, repeated over an odd
    number of channels. *)
Lemma dense_cube_stamp row stamp :
  dense_cube cross_section row = Some stamp →
  ∃ side depth,
    shape stamp = [side; side; depth] ∧
    3 <= side ∧ side = 2 * (side ÷ 2) + 1 ∧
    0 <= depth ∧ depth = 2 * (depth ÷ 2) + 1 ∧
    ∀ i j k, item stamp [i; j; k] = cross_section row side i j.
Proof.
  assert (Hodd : ∀ n, (if bool_decide (n mod 2 = 0) then n + 1 else n) mod 2 = 1).
  { intros n. pose proof (Z.mod_pos_bound n 2).
    destruct (bool_decide (n mod 2 = 0)) eqn:Hn.
    - apply bool_decide_eq_true in Hn. rewrite Z.add_mod by lia. rewrite Hn. reflexivity.
    - apply bool_decide_eq_false in Hn. lia. }
  assert (Hodd' : ∀ n, (n + if bool_decide (n mod 2 = 0) then 1 else 0) mod 2 = 1).
  { intros n. pose proof (Z.mod_pos_bound n 2).
    destruct (bool_decide (n mod 2 = 0)) eqn:Hn.
    - apply bool_decide_eq_true in Hn. rewrite Z.add_mod by lia. rewrite Hn. reflexivity.
    - apply bool_decide_eq_false in Hn. rewrite Z.add_0_r. lia. }
  assert (Hhalf : ∀ n, 0 <= n → n mod 2 = 1 → n = 2 * (n ÷ 2) + 1).
  { intros n Hn Hm. rewrite Z.quot_div_nonneg by lia.
    pose proof (Z.div_mod n 2). lia. }
  unfold dense_cube.
  set (q := Np.round (2 * py_max (major_radius_pixels row) (minor_radius_pixels row))%Q).
  set (m := Np.round (n_channels row)).
  specialize (Hodd q). specialize (Hodd' m).
  set (side := if bool_decide (q mod 2 = 0) then q + 1 else q) in *.
  set (depth := m + (if bool_decide (m mod 2 = 0) then 1 else 0)) in *.
  destruct (bool_decide (depth < 0)) eqn:Hneg; [done |].
  apply bool_decide_eq_false in Hneg. intros [= <-]. simpl.
  exists (Z.max 3 side), depth. split; [reflexivity |].
  split; [lia |]. split.
  - apply Hhalf; [lia |].
    destruct (Z.max_spec 3 side) as [[_ ->] | [_ ->]]; [done | reflexivity].
  - split; [lia |]. split; [| done]. apply Hhalf; [lia | done].
Qed.

(** A row that passes the size test leaves, at every key of its clipped span,
    the entry of its stamp that belongs to the key. *)
Lemma paint_written cube row cube' key v ranges :
  paint cross_section min_axis_pixels cube row = Some cube' →
  too_small min_axis_pixels row = false →
  length (dok_shape cube) = 3%nat →
  painted_value cross_section (dok_shape cube) row key = Some v →
  clipped_span cross_section (dok_shape cube) row = Some ranges →
  in_ranges key ranges →
  (voxel cube' key == v)%Q.
Proof.
  unfold paint, painted_value, clipped_span. intros Hp Hbig Hlen Hv Hr Hin.
  rewrite Hbig in Hp.
  destruct (dense_cube cross_section row) as [stamp |] eqn:Hd; [| done].
  simpl in Hp, Hv, Hr. injection Hr as <-.
  destruct (getslice stamp _) as [small |] eqn:Hg; [| done]. simpl in Hp, Hv.
  injection Hv as <-.
  unfold dok_setitem in Hp. case_bool_decide as Hsl; [| done].
  destruct (setitem _ _ _ _) as [data' |] eqn:Hset; [| done]. simpl in Hp.
  injection Hp as <-. unfold voxel. simpl.
  pose proof (setitem_written _ [] _ _ _ key Hset) as Hw. simpl in Hw.
  rewrite Hw; [| | done].
  - destruct (Qeq_bool _ 0) eqn:Hz; simpl; [| reflexivity].
    apply Qeq_bool_eq in Hz. by rewrite Hz.
  - rewrite (getslice_shape_length _ _ _ Hg), slice_ranges_length by done.
    destruct (dense_cube_stamp _ _ Hd) as (side & depth & -> & _). by rewrite Hlen.
Qed.

(** Rows whose clipped span does not hold the key leave its entry alone. *)
Lemma for_each_paint_frame df cube cube' key :
  for_each (paint cross_section min_axis_pixels) cube df = Some cube' →
  ¬ covered cross_section min_axis_pixels (dok_shape cube) df key →
  dok_shape cube' = dok_shape cube ∧ dok_data cube' !! key = dok_data cube !! key.
Proof.
  revert cube. induction df as [| row df IH]; intros cube Hrun Hout; simpl in Hrun.
  - by injection Hrun as <-.
  - destruct (paint cross_section min_axis_pixels cube row) as [cube1 |] eqn:Hp;
      [| done]. simpl in Hrun.
    destruct (paint_frame _ _ _ _ _ key Hp) as [Hs1 Hfr].
    destruct (IH cube1 Hrun) as [Hs2 Hd2].
    { rewrite Hs1. intros (r & ranges & Hr & Hbig & Hsp & Hin). apply Hout.
      exists r, ranges. split; [by right | done]. }
    split; [congruence |]. rewrite Hd2. apply Hfr.
    destruct (too_small min_axis_pixels row) eqn:Hbig; [by left | right].
    intros ranges Hsp Hin. apply Hout. exists row, ranges. split; [by left | done].
Qed.

(** The entry of the volume at a key is the one written by the last row whose
    clipped span holds the key. *)
Lemma for_each_paint_last pre row post h cube key v ranges :
  create_from_df cross_section min_axis_pixels (pre ++ row :: post) h = Some cube →
  too_small min_axis_pixels row = false →
  painted_value cross_section (cube_shape_of h) row key = Some v →
  clipped_span cross_section (cube_shape_of h) row = Some ranges →
  in_ranges key ranges →
  ¬ covered cross_section min_axis_pixels (cube_shape_of h) post key →
  (voxel cube key == v)%Q.
Proof.
  unfold create_from_df. rewrite for_each_app. intros Hrun Hbig Hv Hr Hin Hout.
  destruct (for_each _ _ pre) as [cube0 |] eqn:Hpre; [| done]. simpl in Hrun.
  destruct (paint cross_section min_axis_pixels cube0 row) as [cube1 |] eqn:Hp;
    [| done]. simpl in Hrun.
  destruct (for_each_paint_support _ _ _ _ _ Hpre) as [Hs0 _]. simpl in Hs0.
  destruct (paint_frame _ _ _ _ _ key Hp) as [Hs1 _].
  destruct (for_each_paint_frame _ _ _ key Hrun) as [_ Hd].
  { by rewrite Hs1, Hs0. }
  assert ((voxel cube1 key == v)%Q) as Hw.
  { eapply paint_written; [exact Hp | done | by rewrite Hs0 | by rewrite Hs0 |
                           by rewrite Hs0 | done]. }
  unfold voxel in *. by rewrite Hd.
Qed.

End stored_facts.

(** Overlapping stamps: the entry of the volume at a key is the entry of the
    clipped stamp of the last row of the catalogue whose span holds the key,
    also where that entry is 0 and an earlier row had written a 1. *)
Theorem create_from_df_last_write cross_section min_axis_pixels pre row post h cube key
    v ranges :
  create_from_df cross_section min_axis_pixels (pre ++ row :: post) h = Some cube →
  too_small min_axis_pixels row = false →
  painted_value cross_section (cube_shape_of h) row key = Some v →
  clipped_span cross_section (cube_shape_of h) row = Some ranges →
  in_ranges key ranges →
  ¬ covered cross_section min_axis_pixels (cube_shape_of h) post key →
  (voxel cube key == v)%Q.
Proof. apply for_each_paint_last. Qed.

Lemma get_span_interior p full_length small_length :
  Np.int_half small_length <= p < full_length - Np.int_half small_length →
  get_span p full_length small_length
  = (Np.int_half small_length, Np.int_half small_length + 1).
Proof.
  intros Hp. unfold get_span.
  rewrite (bool_decide_eq_false_2 (p - _ < 0)) by lia.
  rewrite (bool_decide_eq_false_2 (p + _ > _)) by lia. done.
Qed.

Lemma slice_inside n a b : 0 <= a <= n → 0 <= b <= n → Np.slice n a b = (a, b).
Proof.
  intros Ha Hb. unfold Np.slice, Np.clip.
  rewrite (bool_decide_eq_false_2 (a < 0)), (bool_decide_eq_false_2 (b < 0)) by lia.
  f_equal; lia.
Qed.

Lemma clip_inside n a : 0 <= a <= n → Np.clip n a = a.
Proof.
  intros Ha. unfold Np.clip. rewrite (bool_decide_eq_false_2 (a < 0)) by lia. lia.
Qed.

Section interior_facts.

Variable cross_section : catalog_row → Z → Z → Z → Q.
Variable min_axis_pixels : Q.

#[local] Arguments Np.int_half : simpl never.
#[local] Arguments get_span : simpl never.
#[local] Arguments Np.clip : simpl never.

(** The stamp of a row whose stamp lies within the cube: nothing is cut off it,
    and it is written to the block around the position of the row. *)
Lemma interior_stamp h row stamp side depth i j k :
  dense_cube cross_section row = Some stamp →
  shape stamp = [side; side; depth] →
  interior h row side depth →
  0 <= i < side → 0 <= j < side → 0 <= k < depth →
  let key := [x row - Np.int_half side + i; y row - Np.int_half side + j;
              z row - Np.int_half depth + k] in
  painted_value cross_section (cube_shape_of h) row key
    = Some (cross_section row side i j) ∧
  ∃ ranges, clipped_span cross_section (cube_shape_of h) row = Some ranges ∧
            in_ranges key ranges.
Proof.
  intros Hd Hshape (Hx & Hy & Hz) Hi Hj Hk key.
  destruct (dense_cube_stamp _ _ _ Hd) as (side' & depth' & Hs' & Hside & Hhs & Hdepth
                                           & Hhd & Hitem).
  rewrite Hshape in Hs'. injection Hs' as Hs1 _ Hs3. subst side' depth'.
  rewrite <- int_half_quot in Hhs, Hhd.
  set (hs := Np.int_half side) in *. set (hd := Np.int_half depth) in *.
  assert (Hspans : get_spans (cube_shape_of h) [side; side; depth] [x row; y row; z row]
                   = [(hs, hs + 1); (hs, hs + 1); (hd, hd + 1)]).
  { unfold get_spans, cube_shape_of. simpl. by rewrite !get_span_interior. }
  split.
  - unfold painted_value. rewrite Hd. simpl. rewrite Hshape, Hspans. simpl.
    fold hs hd. unfold getslice. rewrite Hshape. simpl.
    rewrite Hitem. rewrite !(clip_inside side), !(clip_inside (NAXIS1 h)),
      !(clip_inside (NAXIS2 h)) by lia.
    rewrite (bool_decide_eq_false_2 (Z.max 0 _ = 1)) by lia.
    do 2 f_equal; lia.
  - unfold clipped_span. rewrite Hd. simpl. rewrite Hshape, Hspans. simpl.
    unfold slice_ranges, cube_shape_of, Np.slice. simpl.
    rewrite !(clip_inside (NAXIS1 h)), !(clip_inside (NAXIS2 h)),
      !(clip_inside (NAXIS3 h)) by lia.
    eexists. split; [reflexivity |].
    unfold key. repeat constructor; simpl; lia.
Qed.

End interior_facts.

(** A row whose stamp lies within the cube and that passes the size test: where
    no later row writes, the volume holds the rasterised cross-section of the
    row, pixel by pixel, on each of its channels. *)
Theorem create_from_df_interior cross_section min_axis_pixels pre row post h cube stamp
    side depth i j k :
  create_from_df cross_section min_axis_pixels (pre ++ row :: post) h = Some cube →
  too_small min_axis_pixels row = false →
  dense_cube cross_section row = Some stamp →
  shape stamp = [side; side; depth] →
  interior h row side depth →
  0 <= i < side → 0 <= j < side → 0 <= k < depth →
  ¬ covered cross_section min_axis_pixels (cube_shape_of h) post
      [x row - Np.int_half side + i; y row - Np.int_half side + j;
       z row - Np.int_half depth + k] →
  (voxel cube [x row - Np.int_half side + i; y row - Np.int_half side + j;
               z row - Np.int_half depth + k]%Z
   == cross_section row side i j)%Q.
Proof.
  intros Hrun Hbig Hd Hshape Hint Hi Hj Hk Hout.
  destruct (interior_stamp cross_section h row stamp side depth i j k
              Hd Hshape Hint Hi Hj Hk) as (Hv & ranges & Hr & Hin).
  by eapply for_each_paint_last.
Qed.

Lemma create_from_df_last_write_witness :
  ∃ cube,
    create_from_df centre_pixel 1
      ([CatalogRow 10 10 10 1 1 1 0] ++ CatalogRow 11 10 10 1 1 1 0 :: [])
      (Header 32 32 32) = Some cube ∧
    (voxel cube [10; 10; 10]%Z == 0)%Q.
Proof.
  destruct (create_from_df centre_pixel 1
              ([CatalogRow 10 10 10 1 1 1 0] ++ CatalogRow 11 10 10 1 1 1 0 :: [])
              (Header 32 32 32)) as [cube |] eqn:E.
  - exists cube. split; [reflexivity |].
    apply (create_from_df_last_write centre_pixel 1 [CatalogRow 10 10 10 1 1 1 0]
             (CatalogRow 11 10 10 1 1 1 0) [] (Header 32 32 32) cube [10; 10; 10] 0
             [(10, 13); (9, 12); (10, 11)] E).
    + reflexivity.
    + reflexivity.
    + reflexivity.
    + repeat constructor; simpl; lia.
    + intros (r & ranges & Hr & _). by apply elem_of_nil in Hr.
  - vm_compute in E. discriminate E.
Defined.

Lemma create_from_df_interior_witness :
  ∃ cube,
    create_from_df centre_pixel 1 ([] ++ CatalogRow 10 10 10 1 1 1 0 :: [])
      (Header 32 32 32) = Some cube ∧
    (voxel cube [10 - Np.int_half 3 + 1; 10 - Np.int_half 3 + 1;
                 10 - Np.int_half 1 + 0]%Z
     == centre_pixel (CatalogRow 10 10 10 1 1 1 0) 3 1 1)%Q.
Proof.
  destruct (create_from_df centre_pixel 1 ([] ++ CatalogRow 10 10 10 1 1 1 0 :: [])
              (Header 32 32 32)) as [cube |] eqn:E.
  - exists cube. split; [reflexivity |].
    destruct (dense_cube centre_pixel (CatalogRow 10 10 10 1 1 1 0)) as [stamp |] eqn:Hd;
      [| vm_compute in Hd; discriminate Hd].
    apply (create_from_df_interior centre_pixel 1 [] (CatalogRow 10 10 10 1 1 1 0) []
             (Header 32 32 32) cube stamp 3 1 1 1 0 E).
    + reflexivity.
    + exact Hd.
    + injection Hd as <-. reflexivity.
    + vm_compute. intuition discriminate.
    + lia.
    + lia.
    + lia.
    + intros (r & ranges & Hr & _). by apply elem_of_nil in Hr.
  - vm_compute in E. discriminate E.
Defined.

(** ** The dataset without a seed *)

Lemma for_range_map {St : Type} (h : St → St) (Inv : St → Prop) n start
    (body : Z → St → option St) s :
  Inv s →
  (∀ i t, Inv t → body i (h t) = h <$> body i t) →
  (∀ i t t', Inv t → body i t = Some t' → Inv t') →
  for_range n start body (h s) = h <$> for_range n start body s.
Proof.
  intros Hs Hmap Hinv. revert start s Hs.
  induction n as [| n IH]; intros start s Hs; simpl; [done |].
  rewrite (Hmap _ _ Hs). destruct (body start s) as [t |] eqn:Hb; simpl; [| done].
  apply IH. by eapply Hinv.
Qed.

Section quasi.

Context `{Generators}.

#[local] Arguments inside_box : simpl never.
#[local] Arguments random_center_box : simpl never.
#[local] Arguments random_in_interval : simpl never.

Lemma put_source_state hi_data sourcemap f x y g (st : locals gstate) :
  put_source hi_data sourcemap f x y (with_state g st)
  = with_state g <$> put_source hi_data sourcemap f x y st.
Proof.
  unfold put_source, with_state. simpl.
  destruct (data_setrow "image" _ _ _) as [d1 |]; [| done]. simpl.
  destruct (data_setrow "sourcemap" _ _ _) as [d2 |]; [| done]. simpl.
  destruct (data_setrow "position" _ _ _) as [d3 |]; [| done]. simpl.
  by destruct (data_setrow "cluster" _ _ _) as [d4 |].
Qed.

Lemma put_empty_state hi_data f x y g (st : locals gstate) :
  put_empty hi_data f x y (with_state g st)
  = with_state g <$> put_empty hi_data f x y st.
Proof.
  unfold put_empty, with_state. simpl.
  destruct (data_setrow "image" _ _ _) as [d1 |]; [| done]. simpl.
  destruct (data_setrow "position" _ _ _) as [d3 |]; [| done]. simpl.
  by destruct (data_setrow "cluster" _ _ _) as [d4 |].
Qed.

Lemma put_source_rnd hi_data sourcemap f x y (st st' : locals gstate) :
  put_source hi_data sourcemap f x y st = Some st' → rnd st' = rnd st.
Proof.
  unfold put_source. intros Hrun.
  destruct (data_setrow "image" _ _ _) as [d1 |]; [| done]. simpl in Hrun.
  destruct (data_setrow "sourcemap" _ _ _) as [d2 |]; [| done]. simpl in Hrun.
  destruct (data_setrow "position" _ _ _) as [d3 |]; [| done]. simpl in Hrun.
  destruct (data_setrow "cluster" _ _ _) as [d4 |]; [| done]. simpl in Hrun.
  by injection Hrun as <-.
Qed.

Lemma put_empty_rnd hi_data f x y (st st' : locals gstate) :
  put_empty hi_data f x y st = Some st' → rnd st' = rnd st.
Proof.
  unfold put_empty. intros Hrun.
  destruct (data_setrow "image" _ _ _) as [d1 |]; [| done]. simpl in Hrun.
  destruct (data_setrow "position" _ _ _) as [d3 |]; [| done]. simpl in Hrun.
  destruct (data_setrow "cluster" _ _ _) as [d4 |]; [| done]. simpl in Hrun.
  by injection Hrun as <-.
Qed.

(** Without a seed [rr_sample] and [sample] leave the generator alone. *)
Lemma rr_sample_quasi (r : Randomizer) n d g :
  seed r = None →
  rr_sample r n d g
  = if bool_decide (n < 0 ∨ d < 0) then None
    else Some (i4_sobol_generate (Z.to_nat d) (Z.to_nat n) 0, r, g).
Proof.
  intros Hs. unfold rr_sample, rand. rewrite Hs. by case_bool_decide.
Qed.

Lemma sample_quasi (r : Randomizer) n d g :
  seed r = None →
  sample r n d g
  = if bool_decide (n < 0 ∨ d < 0) then None
    else Some (i4_sobol_generate (Z.to_nat d) (Z.to_nat n) (counter r),
               MkRandomizer None (counter r + n), g).
Proof.
  intros Hs. unfold sample, rand. rewrite Hs. by case_bool_decide.
Qed.

Lemma draw_source_state hi_data sourcemap positions lower_band upper_band part_size
    freq_points_f side_length precuation freq_band spatial_points i g
    (st : locals gstate) :
  seed (rnd st) = None →
  draw_source hi_data sourcemap positions lower_band upper_band part_size freq_points_f
              side_length precuation freq_band spatial_points i (with_state g st)
  = with_state g
      <$> draw_source hi_data sourcemap positions lower_band upper_band part_size
                      freq_points_f side_length precuation freq_band spatial_points i st
  ∧ ∀ st', draw_source hi_data sourcemap positions lower_band upper_band part_size
                       freq_points_f side_length precuation freq_band spatial_points i st
           = Some st' → seed (rnd st') = None.
Proof.
  intros Hq. unfold draw_source. destruct (cube_shape hi_data) as [[s0 s1] s2].
  destruct (lower_band !! _) as [l_band |]; [| done]. simpl.
  destruct (upper_band !! _) as [u_band |]; [| done]. simpl.
  destruct (positions !! _) as [source_pos |]; [| done]. simpl.
  rewrite !(rr_sample_quasi (rnd st)) by done.
  case_bool_decide; [done |]. simpl.
  destruct (random_center_box _ _ _ _ _ _) as [xy |]; [| done]. simpl.
  destruct (unpack2 xy) as [[x y] |]; [| done]. simpl.
  destruct (part_size !! _) as [b |]; [| done]. simpl.
  destruct (getitem _ b) as [n |]; [| done]. simpl.
  rewrite !(rr_sample_quasi (rnd st)) by done.
  case_bool_decide; [done |]. simpl.
  destruct (random_in_interval _ _ _ ≫= head) as [freq |]; [| done]. simpl.
  set (body := fun (j : Z) (st : locals gstate) => for_range _ _ _ st).
  set (st0 := Locals (data st) (sample_counter st) (cluster st) (rnd st) (np_state st)).
  change (Locals (data st) (sample_counter st) (cluster st) (rnd st) g)
    with (with_state g st0).
  rewrite (for_range_map (with_state g) (fun t => rnd t = rnd st) _ _ body st0);
    [| done | |].
  - split.
    + by destruct (for_range _ _ body st0) as [st2 |].
    + intros st'. destruct (for_range _ _ body st0) as [st2 |] eqn:Hloop; [| done].
      simpl. intros [= <-]. simpl.
      assert (rnd st2 = rnd st) as ->; [| done].
      revert Hloop. apply (for_range_inv (fun t : locals gstate => rnd t = rnd st));
        [done |].
      intros j t t' _ Ht. unfold body.
      apply (for_range_inv (fun u : locals gstate => rnd u = rnd st)); [done |].
      intros k u u' _ Hu Hput.
      destruct (freq !! Z.to_nat k) as [f |]; [| done]. simpl in Hput.
      destruct (x !! Z.to_nat j) as [xj |]; [| done]. simpl in Hput.
      destruct (y !! Z.to_nat j) as [yj |]; [| done]. simpl in Hput.
      apply put_source_rnd in Hput. congruence.
  - intros j t _. unfold body.
    apply (for_range_map (with_state g) (fun _ => True)); [done | | done].
    intros k u _.
    destruct (freq !! Z.to_nat k) as [f |]; [| done]. simpl.
    destruct (x !! Z.to_nat j) as [xj |]; [| done]. simpl.
    destruct (y !! Z.to_nat j) as [yj |]; [| done]. simpl.
    apply put_source_state.
  - intros j t t' Ht. unfold body.
    apply (for_range_inv (fun u : locals gstate => rnd u = rnd st)); [done |].
    intros k u u' _ Hu Hput.
    destruct (freq !! Z.to_nat k) as [f |]; [| done]. simpl in Hput.
    destruct (x !! Z.to_nat j) as [xj |]; [| done]. simpl in Hput.
    destruct (y !! Z.to_nat j) as [yj |]; [| done]. simpl in Hput.
    apply put_source_rnd in Hput. congruence.
Qed.

Lemma draw_empty_state hi_data sourcemap side_length freq_band freq_empty g
    (st : locals gstate) :
  seed (rnd st) = None →
  draw_empty hi_data sourcemap side_length freq_band freq_empty (with_state g st)
  = with_state g <$> draw_empty hi_data sourcemap side_length freq_band freq_empty st
  ∧ ∀ st', draw_empty hi_data sourcemap side_length freq_band freq_empty st = Some st' →
           seed (rnd st') = None.
Proof.
  intros Hq. unfold draw_empty. destruct (cube_shape hi_data) as [[s0 s1] s2].
  simpl. rewrite !(sample_quasi (rnd st)) by done.
  case_bool_decide; [done |]. simpl.
  destruct (_ !! 0%nat) as [l_band |]; [| done]. simpl.
  rewrite !(rr_sample_quasi (MkRandomizer None _)) by done.
  case_bool_decide; [done |]. simpl.
  destruct (random_in_interval _ _ _ ≫= head) as [freq |]; [| done]. simpl.
  set (freq2 := inside_axis freq 0 s0).
  destruct (random_center_box _ _ _ _ _ _) as [xy |]; [| done]. simpl.
  destruct (unpack2 xy) as [[x y] |]; [| done]. simpl.
  destruct (x !! 0%nat) as [x0 |]; [| done]. simpl.
  destruct (y !! 0%nat) as [y0 |]; [| done]. simpl.
  destruct (freq2 ≫= (fun w : Z * Z => [w.1; w.2])) as [| v vs]; [done |].
  simpl. case_bool_decide; [| split; [done | by intros st' [= <-]]].
  set (r := MkRandomizer None (counter (rnd st) + 1)).
  set (body := fun (i : Z) (st : locals gstate) => _).
  set (st0 := Locals (data st) (sample_counter st) (cluster st) r (np_state st)).
  change (Locals (data st) (sample_counter st) (cluster st) r g)
    with (with_state g st0).
  rewrite (for_range_map (with_state g) (fun _ => True) _ _ body st0); [| done | | done].
  - split.
    + by destruct (for_range _ _ body st0) as [st2 |].
    + intros st'. destruct (for_range _ _ body st0) as [st2 |] eqn:Hloop; [| done].
      simpl. intros [= <-]. simpl.
      assert (rnd st2 = r) as ->; [| done].
      revert Hloop. apply (for_range_inv (fun t : locals gstate => rnd t = r)); [done |].
      intros k u u' _ Hu. unfold body.
      destruct (freq2 !! Z.to_nat k) as [f |]; [| done]. simpl. intros Hput.
      apply put_empty_rnd in Hput. congruence.
  - intros k u _. unfold body.
    destruct (freq2 !! Z.to_nat k) as [f |]; [| done]. simpl.
    apply put_empty_state.
Qed.

Lemma draw_empties_state fuel hi_data sourcemap side_length freq_band freq_empty n_points
    g (st : locals gstate) :
  seed (rnd st) = None →
  draw_empties fuel hi_data sourcemap side_length freq_band freq_empty n_points
               (with_state g st)
  = with_state g
      <$> draw_empties fuel hi_data sourcemap side_length freq_band freq_empty n_points st.
Proof.
  revert st. induction fuel as [| fuel IH]; intros st Hq; simpl;
    case_bool_decide; try done.
  destruct (draw_empty_state hi_data sourcemap side_length freq_band freq_empty g st Hq)
    as [-> Hnext].
  destruct (draw_empty _ _ _ _ _ st) as [st1 |]; [| done]. simpl.
  apply IH. by apply Hnext.
Qed.

End quasi.

(** Without a seed the dataset is the same in every process: the state of
    numpy's global generator is neither read nor written, also by a run that
    raises or does not end. *)
Theorem create_data_set_quasi_reproducible `{Generators} all_world2pix fuel df hi_data
    prob_galaxy side_length precuation freq_band spatial_points freq_points_f g1 g2 :
  create_data_set all_world2pix fuel df hi_data prob_galaxy side_length precuation
                  freq_band spatial_points freq_points_f None g1
  = create_data_set all_world2pix fuel df hi_data prob_galaxy side_length precuation
                    freq_band spatial_points freq_points_f None g2.
Proof.
  unfold create_data_set.
  destruct (create_sourcemap _ _) as [sourcemap |]; [| done]. simpl.
  destruct (part_sizes _ _ _) as [part_size |]; [| done]. simpl.
  destruct (freq_points_of _ _) as [fpf |]; [| done]. simpl.
  destruct (sample_counts _ _ _ _ _) as [[[n_sources freq_empty] n_points] |];
    [| done]. simpl.
  destruct (allocate _ _ _ _) as [arrays |]; [| done]. simpl.
  set (body := draw_source _ _ _ _ _ _ _ _ _ _ _).
  set (st0 := Locals arrays 0 0 (init None) g2).
  change (Locals arrays 0 0 (init None) g1) with (with_state g1 st0).
  rewrite (for_range_map (with_state g1) (fun t => seed (rnd t) = None) _ _ body st0);
    [| done | |].
  - destruct (for_range _ _ body st0) as [st1 |] eqn:Hloop; [| done]. simpl.
    rewrite draw_empties_state.
    + by destruct (draw_empties _ _ _ _ _ _ _ st1) as [st2 |].
    + revert Hloop.
      apply (for_range_inv (fun t : locals gstate => seed (rnd t) = None)); [done |].
      intros i t t' _ Ht Hd. by eapply (draw_source_state).
  - intros i t Ht. by apply draw_source_state.
  - intros i t t' Ht Hd. by eapply (draw_source_state).
Qed.

(** With a seed the dataset follows the state in which the process finds
    numpy's generator: the same call, made after [np.random.seed(1)] and after
    [np.random.seed(2)], cuts its first sample at frequency 7 and at
    frequency 8. *)
Example create_data_set_seeded_follows_state :
  (fun d => (fun a => item a [0; 0; 0]) <$> d !! "position")
    <$> demo_data_set [wide_source; narrow_source] 2 10 = Some (Some 7%Q) ∧
  (fun d => (fun a => item a [0; 0; 0]) <$> d !! "position")
    <$> @create_data_set (numpy_generators origin_points) (fun t => t) 10
          [wide_source; narrow_source] demo_cube (1 # 2) 4 0 2 1 FreqDefault (Some 0)
          (MT19937.seed_state 2) = Some (Some 8%Q).
Proof. split; by vm_compute. Qed.

(** ** The segmentation volume of a catalogue inside the cube *)

Lemma for_range_total {St : Type} n start (body : Z → St → option St) s :
  (∀ i t, start <= i < start + Z.of_nat n → is_Some (body i t)) →
  is_Some (for_range n start body s).
Proof.
  revert start s. induction n as [| n IH]; intros start s Hbody; simpl; [eauto |].
  destruct (Hbody start s) as [t Ht]; [lia |]. rewrite Ht. simpl.
  apply IH. intros i u Hi. apply Hbody. lia.
Qed.

(** An assignment to a block raises nothing when, on every axis, the value is
    at least as long as the block or has extent 1. *)
Lemma setitem_total ranges key value data :
  Forall2 (fun e (r : Z * Z) => r.2 - r.1 <= e ∨ e = 1) (shape value) ranges →
  is_Some (setitem ranges key value data).
Proof.
  revert key value data.
  induction ranges as [| [start stop] rest IH]; intros key value data Hfit.
  - apply Forall2_nil_inv_r in Hfit. simpl. rewrite Hfit. simpl. eauto.
  - apply Forall2_cons_inv_r in Hfit as (e & shape' & He & Hrest & Hs). simpl in He.
    cbn [setitem]. rewrite Hs.
    set (vmd := Z.of_nat _ - Z.of_nat _).
    assert (vmd = 0) as Hvmd.
    { unfold vmd. simpl. apply Forall2_length in Hrest. lia. }
    clearbody vmd. subst vmd.
    rewrite (bool_decide_eq_false_2 (0 < 0)) by lia.
    apply for_range_total. intros i t Hi. simpl.
    destruct (decide (e = 1)) as [-> | Hne].
    + rewrite (bool_decide_eq_true_2 (Some 1 = Some 1)) by done.
      unfold sub. rewrite Hs. rewrite (bool_decide_eq_true_2 (0 <= 0 < 1)) by lia.
      simpl. by apply IH.
    + rewrite (bool_decide_eq_false_2 (Some e = Some 1)) by congruence.
      unfold sub. rewrite Hs. rewrite (bool_decide_eq_true_2 (0 <= i < e)) by lia.
      simpl. by apply IH.
Qed.

(** On one axis: the part of the stamp that is kept is at least as long as the
    part of the cube that it is written to. *)
Lemma axis_fits p full_length small_length :
  0 <= p <= full_length →
  small_length = 2 * Np.int_half small_length + 1 → 0 <= small_length →
  (Np.slice full_length (p - (get_span p full_length small_length).1)
                        (p + (get_span p full_length small_length).2)).2
  - (Np.slice full_length (p - (get_span p full_length small_length).1)
                          (p + (get_span p full_length small_length).2)).1
  <= Z.max 0
       ((Np.slice small_length
           (Np.int_half small_length - (get_span p full_length small_length).1)
           (Np.int_half small_length + (get_span p full_length small_length).2)).2
        - (Np.slice small_length
             (Np.int_half small_length - (get_span p full_length small_length).1)
             (Np.int_half small_length + (get_span p full_length small_length).2)).1).
Proof.
  intros Hp Hodd Hn. rewrite get_span_min. rewrite <- int_half_quot.
  set (h := Np.int_half small_length) in *.
  assert (0 <= h) by lia. unfold Np.slice, Np.clip. simpl.
  repeat case_bool_decide; lia.
Qed.

Section total.

Variable cross_section : catalog_row → Z → Z → Z → Q.
Variable min_axis_pixels : Q.

#[local] Arguments Np.int_half : simpl never.
#[local] Arguments get_span : simpl never.
#[local] Arguments Np.slice : simpl never.
#[local] Arguments setitem : simpl never.

Lemma dense_cube_total row :
  (0 <= n_channels row)%Q → is_Some (dense_cube cross_section row).
Proof.
  intros Hn. unfold dense_cube. pose proof (round_nonneg _ Hn) as Hr.
  rewrite bool_decide_eq_false_2; [eauto |].
  case_bool_decide; lia.
Qed.

(** A row at a position of the cube raises nothing. *)
Lemma paint_total cube row n1 n2 n3 :
  dok_shape cube = [n1; n2; n3] →
  0 <= x row <= n1 → 0 <= y row <= n2 → 0 <= z row <= n3 →
  (0 <= n_channels row)%Q →
  is_Some (paint cross_section min_axis_pixels cube row).
Proof.
  intros Hshape Hx Hy Hz Hn. unfold paint.
  destruct (too_small min_axis_pixels row); [eauto |].
  destruct (dense_cube_total row Hn) as [stamp Hd]. rewrite Hd. simpl.
  destruct (dense_cube_stamp _ _ _ Hd)
    as (side & depth & Hs & Hside & Hhs & Hdepth & Hhd & _).
  rewrite <- int_half_quot in Hhs, Hhd.
  rewrite Hs, Hshape. unfold getslice. rewrite Hs. simpl.
  unfold dok_setitem. rewrite Hshape. simpl.
  apply fmap_is_Some. apply setitem_total. simpl.
  repeat constructor; simpl; apply axis_fits; (lia || done).
Qed.

Lemma for_each_paint_total df cube n1 n2 n3 :
  dok_shape cube = [n1; n2; n3] →
  Forall (fun row => 0 <= x row <= n1 ∧ 0 <= y row <= n2 ∧ 0 <= z row <= n3 ∧
                     (0 <= n_channels row)%Q) df →
  is_Some (for_each (paint cross_section min_axis_pixels) cube df).
Proof.
  intros Hshape Hall. revert cube Hshape.
  induction Hall as [| row df (Hx & Hy & Hz & Hn) _ IH]; intros cube Hshape;
    simpl; [eauto |].
  destruct (paint_total cube row n1 n2 n3 Hshape Hx Hy Hz Hn) as [cube1 Hp].
  rewrite Hp. simpl. apply IH.
  destruct (paint_frame _ _ _ _ _ [] Hp) as [-> _]. done.
Qed.

End total.

(** [create_from_df] raises nothing on a catalogue whose rows all lie at a
    position of the cube (the index one past the last one included) and have a
    channel depth that is not negative, whatever their radii, angles, and
    overlaps. *)
Theorem create_from_df_total cross_section min_axis_pixels df h :
  Forall (fun row => 0 <= x row <= NAXIS1 h ∧ 0 <= y row <= NAXIS2 h ∧
                     0 <= z row <= NAXIS3 h ∧ (0 <= n_channels row)%Q) df →
  is_Some (create_from_df cross_section min_axis_pixels df h).
Proof.
  intros Hall. unfold create_from_df.
  by apply (for_each_paint_total _ _ _ _ (NAXIS1 h) (NAXIS2 h) (NAXIS3 h)).
Qed.

Lemma create_from_df_total_witness :
  is_Some (create_from_df centre_pixel 1
             [CatalogRow 0 32 31 3 2 6 0; CatalogRow 10 10 10 1 1 1 0;
              CatalogRow 32 0 0 1 (1 # 4) 1 0]
             (Header 32 32 32)).
Proof.
  apply (create_from_df_total centre_pixel 1
           [CatalogRow 0 32 31 3 2 6 0; CatalogRow 10 10 10 1 1 1 0;
            CatalogRow 32 0 0 1 (1 # 4) 1 0]
           (Header 32 32 32)).
  repeat constructor; simpl; (lia || by vm_compute).
Defined.

(** ** The share of positive samples *)



(** ** Calls that raise *)

Lemma sample_counts_no_rows part_size freq_points_f prob_galaxy spatial_points :
  sample_counts part_size freq_points_f 0 prob_galaxy spatial_points = None.
Proof.
  unfold sample_counts. destruct (bincount part_size) as [counts |]; [| done]. simpl.
  by destruct (mul_broadcast counts freq_points_f) as [prod |].
Qed.

Lemma sample_counts_no_galaxy part_size freq_points_f df_size prob_galaxy spatial_points :
  (prob_galaxy == 0)%Q →
  sample_counts part_size freq_points_f df_size prob_galaxy spatial_points = None.
Proof.
  intros Hp. unfold sample_counts.
  destruct (bincount part_size) as [counts |]; [| done]. simpl.
  destruct (mul_broadcast counts freq_points_f) as [prod |]; [| done]. simpl.
  case_bool_decide; [done |].
  assert (Qeq_bool (prob_galaxy * inject_Z (Np.trunc (inject_Z (zsum prod)
                                                        / inject_Z df_size))) 0 = true)
    as ->; [| done].
  apply Qeq_eq_bool. rewrite Hp. ring.
Qed.

(** [create_data_set] raises on a catalogue without rows, whatever the other
    arguments are, and for a [prob_galaxy] of 0: no dataset is returned. *)
Theorem create_data_set_rejects `{Generators} all_world2pix fuel df hi_data prob_galaxy
    side_length precuation freq_band spatial_points freq_points_f seed g :
  df = [] ∨ (prob_galaxy == 0)%Q →
  create_data_set all_world2pix fuel df hi_data prob_galaxy side_length precuation
                  freq_band spatial_points freq_points_f seed g = None.
Proof.
  intros Hbad. unfold create_data_set.
  destruct (create_sourcemap _ _) as [sourcemap |]; [| done]. simpl.
  destruct (part_sizes _ _ _) as [part_size |]; [| done]. simpl.
  destruct (freq_points_of _ _) as [fpf |]; [| done]. simpl.
  destruct Hbad as [-> | Hp].
  - simpl. by rewrite sample_counts_no_rows.
  - by rewrite sample_counts_no_galaxy.
Qed.

Lemma create_data_set_rejects_witness :
  @create_data_set (numpy_generators origin_points) (fun t => t) 10
    [wide_source; narrow_source] demo_cube 0 4 0 2 1 FreqDefault (Some 0)
    (MT19937.seed_state 1) = None.
Proof.
  apply (@create_data_set_rejects (numpy_generators origin_points) (fun t => t) 10
           [wide_source; narrow_source] demo_cube 0 4 0 2 1 FreqDefault (Some 0)
           (MT19937.seed_state 1)).
  right. reflexivity.
Defined.

(** ** The windows recorded in the dataset *)

Section windows.

Context `{Generators}.

#[local] Arguments inside_box : simpl never.
#[local] Arguments random_center_box : simpl never.
#[local] Arguments random_in_interval : simpl never.

Lemma put_source_position hi_data sourcemap f x y (st st' : locals gstate) :
  put_source hi_data sourcemap f x y st = Some st' → 0 <= sample_counter st →
  ∀ a', data st' !! "position" = Some a' → position_row a' (sample_counter st) f x y.
Proof.
  unfold put_source. intros Hrun Hc.
  destruct (data_setrow "image" _ _ _) as [d1 |] eqn:H1; [| done]. simpl in Hrun.
  destruct (data_setrow "sourcemap" _ _ _) as [d2 |] eqn:H2; [| done]. simpl in Hrun.
  destruct (data_setrow "position" _ _ _) as [d3 |] eqn:H3; [| done]. simpl in Hrun.
  destruct (data_setrow "cluster" _ _ _) as [d4 |] eqn:H4; [| done]. simpl in Hrun.
  injection Hrun as <-. simpl.
  apply data_setrow_facts in H3 as (_ & _ & (a3 & b3 & n3 & r3 & _ & B3 & _ & _ & V3));
    [| done].
  apply data_setrow_facts in H4 as (_ & O4 & _); [| done].
  intros a'. rewrite O4, B3 by done. intros [= <-].
  unfold position_row. rewrite !V3. by cbv.
Qed.

Lemma put_empty_position hi_data f x y (st st' : locals gstate) :
  put_empty hi_data f x y st = Some st' → 0 <= sample_counter st →
  ∀ a', data st' !! "position" = Some a' → position_row a' (sample_counter st) f x y.
Proof.
  unfold put_empty. intros Hrun Hc.
  destruct (data_setrow "image" _ _ _) as [d1 |] eqn:H1; [| done]. simpl in Hrun.
  destruct (data_setrow "position" _ _ _) as [d3 |] eqn:H3; [| done]. simpl in Hrun.
  destruct (data_setrow "cluster" _ _ _) as [d4 |] eqn:H4; [| done]. simpl in Hrun.
  injection Hrun as <-. simpl.
  apply data_setrow_facts in H3 as (_ & _ & (a3 & b3 & n3 & r3 & _ & B3 & _ & _ & V3));
    [| done].
  apply data_setrow_facts in H4 as (_ & O4 & _); [| done].
  intros a'. rewrite O4, B3 by done. intros [= <-].
  unfold position_row. rewrite !V3. by cbv.
Qed.

Lemma position_row_kept a a' c r f x y :
  (∀ r idx, r ≠ c → item a' (r :: idx) = item a (r :: idx)) →
  r ≠ c → position_row a r f x y → position_row a' r f x y.
Proof.
  intros Hkeep Hr (H1 & H2 & H3 & H4 & H5 & H6). unfold position_row.
  rewrite !Hkeep by done. done.
Qed.


Lemma broadcast_index3 a b c i j k :
  0 <= i < a → 0 <= j < b → 0 <= k < c →
  broadcast_index [a; b; c] [i; j; k] = [i; j; k].
Proof.
  intros Hi Hj Hk. unfold broadcast_index. simpl.
  repeat case_bool_decide; repeat f_equal; lia.
Qed.

Lemma broadcast_index2 b c j k :
  0 <= j < b → 0 <= k < c → broadcast_index [b; c] [j; k] = [j; k].
Proof.
  intros Hj Hk. unfold broadcast_index. simpl.
  repeat case_bool_decide; repeat f_equal; lia.
Qed.

(** The slice of the cube in a patch whose frequency window lies in the cube. *)
Lemma cube_slice_block hi_data freq_band side_length s0 s1 s2 f x y :
  cube_shape hi_data = (s0, s1, s2) →
  0 <= freq_band → 0 <= side_length →
  patch freq_band side_length s1 s2 f x y → in_band s0 f →
  shape (cube_slice hi_data f x y) = [freq_band; side_length; side_length] ∧
  ∀ i j k, item (cube_slice hi_data f x y) [i; j; k]
           = cube_item hi_data (f.1 + i) (x.1 + j) (y.1 + k).
Proof.
  intros Hshape Hfb Hsl (Hf & Hx & [Hx1 Hx2] & Hy & [Hy1 Hy2]) [Hf1 Hf2].
  unfold window_length in *. unfold cube_slice. rewrite Hshape.
  rewrite !slice_inside by lia. simpl. split; [| done].
  repeat f_equal; lia.
Qed.

Lemma volume_slice_block sourcemap freq_band side_length s0 s1 s2 f x y :
  vol_shape sourcemap = (s0, s1, s2) →
  0 <= freq_band → 0 <= side_length →
  patch freq_band side_length s1 s2 f x y → in_band s0 f →
  shape (volume_sum_axis0 sourcemap f x y) = [side_length; side_length] ∧
  ∀ j k, item (volume_sum_axis0 sourcemap f x y) [j; k]
         = inject_Z (zsum ((fun i => vol_item sourcemap (i, x.1 + j, y.1 + k))
                             <$> zrange f.1 f.2)).
Proof.
  intros Hshape Hfb Hsl (Hf & Hx & [Hx1 Hx2] & Hy & [Hy1 Hy2]) [Hf1 Hf2].
  unfold window_length in *. unfold volume_sum_axis0. rewrite Hshape.
  rewrite !slice_inside by lia. simpl. split; [| done].
  repeat f_equal; lia.
Qed.

Lemma put_source_written hi_data sourcemap f x y (st st' : locals gstate) :
  put_source hi_data sourcemap f x y st = Some st' → 0 <= sample_counter st →
  (∀ a', data st' !! "image" = Some a' →
         ∀ idx, item a' (sample_counter st :: idx)
                = item (cube_slice hi_data f x y)
                       (broadcast_index (shape (cube_slice hi_data f x y)) idx)) ∧
  (∀ a', data st' !! "sourcemap" = Some a' →
         ∀ idx, item a' (sample_counter st :: idx)
                = item (volume_sum_axis0 sourcemap f x y)
                       (broadcast_index (shape (volume_sum_axis0 sourcemap f x y)) idx)).
Proof.
  unfold put_source. intros Hrun Hc.
  destruct (data_setrow "image" _ _ _) as [d1 |] eqn:H1; [| done]. simpl in Hrun.
  destruct (data_setrow "sourcemap" _ _ _) as [d2 |] eqn:H2; [| done]. simpl in Hrun.
  destruct (data_setrow "position" _ _ _) as [d3 |] eqn:H3; [| done]. simpl in Hrun.
  destruct (data_setrow "cluster" _ _ _) as [d4 |] eqn:H4; [| done]. simpl in Hrun.
  injection Hrun as <-. simpl.
  apply data_setrow_facts in H1 as (_ & _ & (a1 & b1 & n1 & r1 & _ & B1 & _ & _ & V1));
    [| done].
  apply data_setrow_facts in H2 as (_ & O2 & (a2 & b2 & n2 & r2 & _ & B2 & _ & _ & V2));
    [| done].
  apply data_setrow_facts in H3 as (_ & O3 & _); [| done].
  apply data_setrow_facts in H4 as (_ & O4 & _); [| done].
  split.
  - intros a'. rewrite O4, O3, O2, B1 by done. by intros [= <-].
  - intros a'. rewrite O4, O3, B2 by done. by intros [= <-].
Qed.

Lemma put_empty_written hi_data f x y (st st' : locals gstate) :
  put_empty hi_data f x y st = Some st' → 0 <= sample_counter st →
  ∀ a', data st' !! "image" = Some a' →
        ∀ idx, item a' (sample_counter st :: idx)
               = item (cube_slice hi_data f x y)
                      (broadcast_index (shape (cube_slice hi_data f x y)) idx).
Proof.
  unfold put_empty. intros Hrun Hc.
  destruct (data_setrow "image" _ _ _) as [d1 |] eqn:H1; [| done]. simpl in Hrun.
  destruct (data_setrow "position" _ _ _) as [d3 |] eqn:H3; [| done]. simpl in Hrun.
  destruct (data_setrow "cluster" _ _ _) as [d4 |] eqn:H4; [| done]. simpl in Hrun.
  injection Hrun as <-. simpl.
  apply data_setrow_facts in H1 as (_ & _ & (a1 & b1 & n1 & r1 & _ & B1 & _ & _ & V1));
    [| done].
  apply data_setrow_facts in H3 as (_ & O3 & _); [| done].
  apply data_setrow_facts in H4 as (_ & O4 & _); [| done].
  intros a'. rewrite O4, O3, B1 by done. by intros [= <-].
Qed.

Lemma sample_row_kept hi_data sourcemap freq_band side_length s0 s1 s2 c d d' r :
  rows_kept c d d' → r ≠ c →
  sample_row hi_data sourcemap freq_band side_length s0 s1 s2 d r →
  sample_row hi_data sourcemap freq_band side_length s0 s1 s2 d' r.
Proof.
  intros Hkept Hr (f & x & y & Hpatch & Hpos & Hin). exists f, x, y.
  split; [done |]. split.
  - intros a' Ha'. destruct (Hkept _ _ Ha') as (a & Ha & Hk).
    eapply position_row_kept; eauto.
  - intros Hband. destruct (Hin Hband) as [Himg Hlab]. split.
    + intros a' Ha'. destruct (Hkept _ _ Ha') as (a & Ha & Hk).
      intros i j k Hi Hj Hk'. rewrite Hk by done. by apply Himg.
    + intros a' Ha'. destruct (Hkept _ _ Ha') as (a & Ha & Hk).
      intros j k Hj Hk'. rewrite Hk by done. by apply Hlab.
Qed.

(** One more row: what [put_source] and [put_empty] have in common. *)
Lemma sample_rows_step hi_data sourcemap freq_band side_length s0 s1 s2 n_points
    (st st' : locals gstate) :
  sample_counter st' = sample_counter st + 1 →
  rows_kept (sample_counter st) (data st) (data st') →
  same_shapes (data st) (data st') →
  (∃ a n rest, data st !! "image" = Some a ∧ shape a = n :: rest ∧
               sample_counter st < n) →
  sample_row hi_data sourcemap freq_band side_length s0 s1 s2 (data st')
             (sample_counter st) →
  sample_rows hi_data sourcemap freq_band side_length s0 s1 s2 n_points st →
  sample_rows hi_data sourcemap freq_band side_length s0 s1 s2 n_points st'.
Proof.
  intros Hc Hkept Hsame (a & n & rest' & Ha & Hsa & Hn) Hnew
         ([Hc0 Hc1] & [rest Himg] & Hblank & Hrows).
  destruct (image_rows _ _ _ _ _ _ _ Himg Ha Hsa Hsame) as [-> Himg'].
  unfold sample_rows. rewrite Hc. split; [lia |]. split; [eauto |]. split.
  - intros a' Ha'. destruct (Hkept _ _ Ha') as (a0 & Ha0 & Hk0).
    eapply blank_write; eauto.
  - intros r Hr. destruct (decide (r = sample_counter st)) as [-> | Hne]; [done |].
    eapply sample_row_kept; [done | done |]. apply Hrows. lia.
Qed.

Lemma put_source_sample hi_data sourcemap freq_band side_length s0 s1 s2 n_points f x y
    (st st' : locals gstate) :
  put_source hi_data sourcemap f x y st = Some st' →
  cube_shape hi_data = (s0, s1, s2) → vol_shape sourcemap = (s0, s1, s2) →
  0 <= freq_band → 0 <= side_length →
  patch freq_band side_length s1 s2 f x y →
  sample_rows hi_data sourcemap freq_band side_length s0 s1 s2 n_points st →
  sample_rows hi_data sourcemap freq_band side_length s0 s1 s2 n_points st'.
Proof.
  intros Hput Hcube Hvol Hfb Hsl Hpatch Hrows. pose proof Hrows as ([Hc0 _] & _).
  destruct (put_source_facts _ _ _ _ _ _ _ Hput Hc0) as (Hc & _ & Hkept & _ & _ & Himg).
  destruct (put_source_written _ _ _ _ _ _ _ Hput Hc0) as [Wimg Wmap].
  eapply sample_rows_step; eauto using put_source_shapes.
  exists f, x, y. split; [done |]. split; [by eapply put_source_position |].
  intros Hband. split.
  - intros a Ha i j k Hi Hj Hk.
    destruct (cube_slice_block _ _ _ _ _ _ _ _ _ Hcube Hfb Hsl Hpatch Hband) as [Hs Hv].
    rewrite (Wimg a Ha), Hs, broadcast_index3 by done. apply Hv.
  - intros a Ha j k Hj Hk.
    destruct (volume_slice_block _ _ _ _ _ _ _ _ _ Hvol Hfb Hsl Hpatch Hband) as [Hs Hv].
    rewrite (Wmap a Ha), Hs, broadcast_index2 by done. apply Hv.
Qed.

Lemma put_empty_sample hi_data sourcemap freq_band side_length s0 s1 s2 n_points f x y
    (st st' : locals gstate) :
  put_empty hi_data f x y st = Some st' →
  cube_shape hi_data = (s0, s1, s2) →
  0 <= freq_band → 0 <= side_length →
  patch freq_band side_length s1 s2 f x y →
  (∀ i j k, f.1 <= i < f.2 → 0 <= j < side_length → 0 <= k < side_length →
            vol_item sourcemap (i, x.1 + j, y.1 + k) = 0) →
  sample_rows hi_data sourcemap freq_band side_length s0 s1 s2 n_points st →
  sample_rows hi_data sourcemap freq_band side_length s0 s1 s2 n_points st'.
Proof.
  intros Hput Hcube Hfb Hsl Hpatch Hempty Hrows.
  pose proof Hrows as ([Hc0 _] & _ & Hblank & _).
  destruct (put_empty_facts _ _ _ _ _ _ Hput Hc0)
    as (Hc & _ & Hkept & _ & Hsm & _ & Himg).
  pose proof (put_empty_written _ _ _ _ _ _ Hput Hc0) as Wimg.
  eapply sample_rows_step; eauto using put_empty_shapes.
  exists f, x, y. split; [done |]. split; [by eapply put_empty_position |].
  intros Hband. split.
  - intros a Ha i j k Hi Hj Hk.
    destruct (cube_slice_block _ _ _ _ _ _ _ _ _ Hcube Hfb Hsl Hpatch Hband) as [Hs Hv].
    rewrite (Wimg a Ha), Hs, broadcast_index3 by done. apply Hv.
  - intros a. rewrite Hsm. intros Ha j k Hj Hk.
    rewrite (Hblank a Ha) by lia.
    rewrite (zsum_ext _ (fun _ => 0)).
    + assert (∀ l : list Z, zsum ((fun _ => 0) <$> l) = 0) as ->; [| done].
      intros l. unfold zsum. induction l as [| ? l IH]; [done |].
      rewrite fmap_cons. cbn [foldr]. lia.
    + intros i Hi%elem_of_zrange. by apply Hempty.
Qed.

(** The windows of [random_center_box] in the image plane. *)
Lemma plane_windows rdn side_length center_point precuation s1 s2 xy x y :
  0 <= side_length < s1 → side_length < s2 →
  random_center_box rdn side_length center_point precuation [0; 0] [s1; s2] = Some xy →
  unpack2 xy = Some (x, y) →
  Forall (fun w => window_length w = side_length ∧ within 0 s1 w) x ∧
  Forall (fun w => window_length w = side_length ∧ within 0 s2 w) y.
Proof.
  intros Hs1 Hs2 Hbox Hxy.
  destruct xy as [| x' [| y' [| ? ?]]]; try done. injection Hxy as -> ->.
  assert (Hfit : box_fits side_length [0; 0] [s1; s2]).
  { intros i mn mx. destruct i as [| [| i]]; simpl; try done; intros [= <-] [= <-]; lia. }
  destruct (random_center_box_windows _ _ _ _ _ _ _ Hfit Hbox) as [_ Hw].
  split.
  - by destruct (Hw 0%nat x 0 s1 eq_refl eq_refl eq_refl).
  - by destruct (Hw 1%nat y 0 s2 eq_refl eq_refl eq_refl).
Qed.

(** The windows of [random_in_interval] have the length asked for. *)
Lemma band_windows rdn interval freq_band freq :
  random_in_interval rdn interval freq_band ≫= head = Some freq →
  Forall (fun w => window_length w = freq_band) freq.
Proof.
  destruct (random_in_interval rdn interval freq_band) as [out |] eqn:Hout; [| done].
  simpl. destruct out as [| b out]; [done |]. simpl. intros [= ->].
  destruct (random_in_interval_lookup _ _ _ _ 0%nat freq Hout eq_refl)
    as (iv & _ & _ & ->).
  apply Forall_fmap, Forall_forall. intros r _. unfold window_length. simpl. lia.
Qed.


Lemma zsum_zero (l : list Z) :
  Forall (fun v => 0 <= v) l → zsum l = 0 → Forall (fun v => v = 0) l.
Proof.
  unfold zsum. induction 1 as [| v l Hv Hl IH]; simpl; intros Hsum; constructor.
  - assert (0 <= foldr Z.add 0 l); [| lia].
    clear -Hl. induction Hl as [| w l Hw _ IH]; simpl; lia.
  - apply IH. assert (0 <= foldr Z.add 0 l); [| lia].
    clear -Hl. induction Hl as [| w l Hw _ IH]; simpl; lia.
Qed.

(** The test of line 69: where the sum over a block of the label volume is 0,
    no voxel of the block is marked. *)
Lemma empty_region sourcemap s0 s1 s2 (bounds x0 y0 : Z * Z) :
  vol_shape sourcemap = (s0, s1, s2) → marks sourcemap →
  0 <= bounds.1 <= s0 → 0 <= bounds.2 <= s0 →
  within 0 s1 x0 → within 0 s2 y0 →
  volume_sum sourcemap bounds x0 y0 = 0 →
  ∀ i j k, bounds.1 <= i < bounds.2 → x0.1 <= j < x0.2 → y0.1 <= k < y0.2 →
           vol_item sourcemap (i, j, k) = 0.
Proof.
  intros Hshape Hmarks Hb1 Hb2 [Hx1 Hx2] [Hy1 Hy2] Hsum i j k Hi Hj Hk.
  unfold volume_sum in Hsum. rewrite Hshape in Hsum.
  rewrite !slice_inside in Hsum by lia. simpl in Hsum.
  apply zsum_zero in Hsum.
  - apply (proj1 (list.Forall_forall _ _) Hsum).
    apply list_elem_of_bind. exists i. split; [| by apply elem_of_zrange].
    apply list_elem_of_bind. exists j. split; [| by apply elem_of_zrange].
    apply list_elem_of_bind. exists k. split; [| by apply elem_of_zrange].
    by left.
  - apply list.Forall_forall. intros v Hv.
    apply list_elem_of_bind in Hv as (i' & Hv & _).
    apply list_elem_of_bind in Hv as (j' & Hv & _).
    apply list_elem_of_bind in Hv as (k' & Hv & _).
    apply list_elem_of_singleton in Hv as ->.
    destruct (Hmarks (i', j', k')) as [-> | ->]; lia.
Qed.

Lemma draw_source_sample hi_data sourcemap positions lower_band upper_band part_size
    freq_points_f side_length precuation freq_band spatial_points i s0 s1 s2 n_points
    (st st' : locals gstate) :
  draw_source hi_data sourcemap positions lower_band upper_band part_size freq_points_f
              side_length precuation freq_band spatial_points i st = Some st' →
  cube_shape hi_data = (s0, s1, s2) → vol_shape sourcemap = (s0, s1, s2) →
  0 <= side_length < s1 → side_length < s2 → 0 <= freq_band →
  sample_rows hi_data sourcemap freq_band side_length s0 s1 s2 n_points st →
  sample_rows hi_data sourcemap freq_band side_length s0 s1 s2 n_points st'.
Proof.
  unfold draw_source. intros Hrun Hshape Hvol Hs1 Hs2 Hfb Hrows. rewrite Hshape in Hrun.
  destruct (lower_band !! _) as [l_band |]; [| done]. simpl in Hrun.
  destruct (upper_band !! _) as [u_band |]; [| done]. simpl in Hrun.
  destruct (positions !! _) as [source_pos |]; [| done]. simpl in Hrun.
  destruct (rr_sample (rnd st) _ _ _) as [[[rdn r] g] |]; [| done]. simpl in Hrun.
  destruct (random_center_box _ _ _ _ _ _) as [xy |] eqn:Hbox; [| done]. simpl in Hrun.
  destruct (unpack2 xy) as [[x y] |] eqn:Hxy; [| done]. simpl in Hrun.
  destruct (part_size !! _) as [b |]; [| done]. simpl in Hrun.
  destruct (getitem _ b) as [n |]; [| done]. simpl in Hrun.
  destruct (rr_sample r n 1 g) as [[[rdn2 r2] g2] |]; [| done]. simpl in Hrun.
  destruct (random_in_interval _ _ _ ≫= head) as [freq |] eqn:Hfreq; [| done].
  simpl in Hrun.
  destruct (for_range _ _ _ _) as [st2 |] eqn:Hloop; [| done]. simpl in Hrun.
  injection Hrun as <-.
  destruct (plane_windows _ _ _ _ _ _ _ _ _ Hs1 Hs2 Hbox Hxy) as [Hx Hy].
  pose proof (band_windows _ _ _ _ Hfreq) as Hf.
  assert (sample_rows hi_data sourcemap freq_band side_length s0 s1 s2 n_points st2)
    as Hst2; [| done].
  revert Hloop.
  apply (for_range_inv
           (sample_rows hi_data sourcemap freq_band side_length s0 s1 s2 n_points));
    [done |].
  intros j t t' _ Ht.
  apply (for_range_inv
           (sample_rows hi_data sourcemap freq_band side_length s0 s1 s2 n_points));
    [done |].
  intros k u u' _ Hu Hput.
  destruct (freq !! Z.to_nat k) as [f |] eqn:Ef; [| done]. simpl in Hput.
  destruct (x !! Z.to_nat j) as [xj |] eqn:Ex; [| done]. simpl in Hput.
  destruct (y !! Z.to_nat j) as [yj |] eqn:Ey; [| done]. simpl in Hput.
  eapply put_source_sample; [exact Hput | done | done | done | lia | | done].
  pose proof (proj1 (Forall_lookup _ _) Hf _ _ Ef).
  destruct (proj1 (Forall_lookup _ _) Hx _ _ Ex).
  destruct (proj1 (Forall_lookup _ _) Hy _ _ Ey). done.
Qed.

Lemma draw_empty_sample hi_data sourcemap side_length freq_band freq_empty s0 s1 s2
    n_points (st st' : locals gstate) :
  draw_empty hi_data sourcemap side_length freq_band freq_empty st = Some st' →
  cube_shape hi_data = (s0, s1, s2) → vol_shape sourcemap = (s0, s1, s2) →
  marks sourcemap →
  0 <= side_length < s1 → side_length < s2 → 0 <= freq_band < s0 →
  sample_rows hi_data sourcemap freq_band side_length s0 s1 s2 n_points st →
  sample_rows hi_data sourcemap freq_band side_length s0 s1 s2 n_points st'.
Proof.
  unfold draw_empty. intros Hrun Hshape Hvol Hmarks Hs1 Hs2 Hs0 Hrows.
  rewrite Hshape in Hrun.
  destruct (sample (rnd st) 1 3 _) as [[[s r] g] |]; [| done]. simpl in Hrun.
  destruct (_ !! 0%nat) as [l_band |]; [| done]. simpl in Hrun.
  destruct (rr_sample r freq_empty 1 g) as [[[rdn r2] g2] |]; [| done]. simpl in Hrun.
  destruct (random_in_interval _ _ _ ≫= head) as [freq |] eqn:Hfreq; [| done].
  simpl in Hrun.
  set (freq2 := inside_axis freq 0 s0) in Hrun.
  destruct (random_center_box _ _ _ _ _ _) as [xy |] eqn:Hbox; [| done]. simpl in Hrun.
  destruct (unpack2 xy) as [[x y] |] eqn:Hxy; [| done]. simpl in Hrun.
  destruct (x !! 0%nat) as [x0 |] eqn:Ex; [| done]. simpl in Hrun.
  destruct (y !! 0%nat) as [y0 |] eqn:Ey; [| done]. simpl in Hrun.
  destruct (freq2 ≫= (fun w : Z * Z => [w.1; w.2])) as [| v vs] eqn:Hb;
    [by simpl in Hrun |].
  simpl in Hrun. case_bool_decide as Hsum; [| by injection Hrun as <-].
  destruct (for_range _ _ _ _) as [st2 |] eqn:Hloop; [| done]. simpl in Hrun.
  injection Hrun as <-.
  destruct (plane_windows _ _ _ _ _ _ _ _ _ Hs1 Hs2 Hbox Hxy) as [Hx Hy].
  destruct (proj1 (Forall_lookup _ _) Hx _ _ Ex) as [Hx0 Hxin].
  destruct (proj1 (Forall_lookup _ _) Hy _ _ Ey) as [Hy0 Hyin].
  pose proof (band_windows _ _ _ _ Hfreq) as Hf.
  assert (Hf2 : Forall (fun w => window_length w = freq_band ∧ within 0 s0 w) freq2).
  { apply Forall_lookup. intros j w Hw. unfold freq2 in Hw.
    destruct (freq !! j) as [w0 |] eqn:Hw0.
    - rewrite (inside_axis_uniform_lookup freq 0 s0 freq_band j w0 ltac:(lia) Hf Hw0) in Hw.
      injection Hw as <-. apply moved_within; [lia |].
      by apply (proj1 (Forall_lookup _ _) Hf j w0).
    - apply lookup_ge_None in Hw0. apply lookup_lt_Some in Hw.
      rewrite inside_axis_length in Hw. lia. }
  assert (Hends : ∀ e, e ∈ v :: vs → 0 <= e < s0).
  { intros e He. rewrite <- Hb in He. apply list_elem_of_bind in He as (w & He & Hw).
    destruct (proj1 (list.Forall_forall _ _) Hf2 w Hw) as [_ [Hw1 Hw2]].
    apply elem_of_cons in He as [-> | He]; [done |].
    apply list_elem_of_singleton in He as ->. done. }
  pose proof (Hends _ (foldr_min_elem v vs)) as Hmin.
  pose proof (Hends _ (foldr_max_elem v vs)) as Hmax.
  pose proof (empty_region sourcemap s0 s1 s2 (foldr Z.min v vs, foldr Z.max v vs) x0 y0
                Hvol Hmarks ltac:(simpl; lia) ltac:(simpl; lia) Hxin Hyin Hsum)
    as Hempty. simpl in Hempty.
  assert (sample_rows hi_data sourcemap freq_band side_length s0 s1 s2 n_points st2)
    as Hst2; [| done].
  revert Hloop.
  apply (for_range_inv
           (sample_rows hi_data sourcemap freq_band side_length s0 s1 s2 n_points));
    [done |].
  intros k u u' _ Hu Hput.
  destruct (freq2 !! Z.to_nat k) as [f |] eqn:Ef; [| done]. simpl in Hput.
  destruct (proj1 (Forall_lookup _ _) Hf2 _ _ Ef) as [Hfl Hfin].
  assert (f.1 ∈ v :: vs ∧ f.2 ∈ v :: vs) as [Hf1 Hf2'].
  { rewrite <- Hb. split; apply list_elem_of_bind; exists f;
      (split; [| by eapply list_elem_of_lookup_2]).
    - by left.
    - right. by left. }
  pose proof (foldr_min_le v vs _ Hf1). pose proof (foldr_max_ge v vs _ Hf2').
  eapply put_empty_sample; [exact Hput | done | lia | lia | done | | done].
  intros i j k' Hi Hj Hk. unfold window_length in *. apply Hempty; lia.
Qed.

Lemma draw_empties_sample fuel hi_data sourcemap side_length freq_band freq_empty
    s0 s1 s2 n_points (st st' : locals gstate) :
  draw_empties fuel hi_data sourcemap side_length freq_band freq_empty n_points st
    = Some st' →
  cube_shape hi_data = (s0, s1, s2) → vol_shape sourcemap = (s0, s1, s2) →
  marks sourcemap →
  0 <= side_length < s1 → side_length < s2 → 0 <= freq_band < s0 →
  sample_rows hi_data sourcemap freq_band side_length s0 s1 s2 n_points st →
  sample_rows hi_data sourcemap freq_band side_length s0 s1 s2 n_points st' ∧
  sample_counter st' = n_points.
Proof.
  intros Hrun Hshape Hvol Hmarks Hs1 Hs2 Hs0. revert st Hrun.
  induction fuel as [| fuel IH]; intros st; simpl; case_bool_decide as Hlt; try done.
  - intros [= <-] Hrows. split; [done |]. destruct Hrows as ([_ ?] & _). lia.
  - destruct (draw_empty _ _ _ _ _ st) as [st1 |] eqn:Hd; [| done]. simpl.
    intros Hrest Hrows. apply (IH st1 Hrest). by eapply draw_empty_sample.
  - intros [= <-] Hrows. split; [done |]. destruct Hrows as ([_ ?] & _). lia.
Qed.

End windows.

Lemma create_sourcemap_values positions dimensions sourcemap :
  create_sourcemap positions dimensions = Some sourcemap →
  vol_shape sourcemap = dimensions ∧ marks sourcemap.
Proof.
  unfold create_sourcemap. destruct dimensions as [[d0 d1] d2].
  case_bool_decide; [done |]. intros Hrun.
  apply create_sourcemap_loop in Hrun as (Hs & _ & Hc & _). split; [done |].
  intros key. unfold vol_item. rewrite Hc.
  destruct (decide (Exists _ positions)); simpl; [by right |].
  rewrite lookup_empty. by left.
Qed.

(** Every row of the dataset is a sample cut out of the cube. When the patch is
    smaller than the cube, row [r] records in [position] a frequency window of
    [freq_band] channels and two spatial windows of [side_length] pixels inside
    the image plane; and when that frequency window lies in the cube, [image]
    holds the cube in those windows and [sourcemap] holds the label volume of
    the catalogue in those windows, summed along the frequency axis. *)
Theorem create_data_set_samples `{Generators} all_world2pix fuel df hi_data prob_galaxy
    side_length precuation freq_band spatial_points freq_points_f seed g d s0 s1 s2 :
  create_data_set all_world2pix fuel df hi_data prob_galaxy side_length precuation
                  freq_band spatial_points freq_points_f seed g = Some d →
  cube_shape hi_data = (s0, s1, s2) →
  0 <= side_length < s1 → side_length < s2 → 0 <= freq_band < s0 →
  ∃ sourcemap n_points,
    create_sourcemap
      ((fun s => pixel all_world2pix (ra s, dec s, central_freq s)) <$> df)
      (cube_shape hi_data) = Some sourcemap ∧
    dataset_arrays d n_points freq_band side_length ∧
    ∀ r, 0 <= r < n_points →
         sample_row hi_data sourcemap freq_band side_length s0 s1 s2 d r.
Proof.
  unfold create_data_set. intros Hrun Hshape Hs1 Hs2 Hs0.
  destruct (create_sourcemap _ _) as [sourcemap |] eqn:Hmap; [| done]. simpl in Hrun.
  destruct (part_sizes _ _ _) as [part_size |]; [| done]. simpl in Hrun.
  destruct (freq_points_of _ _) as [fpf |]; [| done]. simpl in Hrun.
  destruct (sample_counts _ _ _ _ _) as [[[n_sources freq_empty] n_points] |];
    [| done]. simpl in Hrun.
  destruct (allocate _ _ _ _) as [arrays |] eqn:Halloc; [| done]. simpl in Hrun.
  destruct (for_range _ _ _ _) as [st1 |] eqn:Hloop; [| done]. simpl in Hrun.
  destruct (draw_empties _ _ _ _ _ _ _ _) as [st2 |] eqn:Hwhile; [| done].
  simpl in Hrun. injection Hrun as <-.
  destruct (create_sourcemap_values _ _ _ Hmap) as [Hvol Hmarks]. rewrite Hshape in Hvol.
  destruct (allocate_rows _ _ _ _ _ Halloc) as (class & _ & _ & Hrows0).
  apply (allocate_shapes all_world2pix) in Halloc as (Hn & Harr & _).
  pose proof (draw_empties_shapes _ _ _ _ _ _ _ _ _ Hwhile) as Hsh2.
  pose proof Hloop as Hsh1.
  apply (for_range_inv (fun t : locals gstate => same_shapes arrays (data t))) in Hsh1;
    [| apply same_shapes_refl |].
  2: { intros i t t' _ Ht Hd. eapply same_shapes_trans; [exact Ht |].
       by eapply draw_source_shapes. }
  pose proof (same_shapes_trans _ _ _ Hsh1 Hsh2) as Hall.
  assert (Hshapes : dataset_arrays (data st2) n_points freq_band side_length).
  { unfold dataset_arrays in *. by rewrite !Hall. }
  exists sourcemap, n_points. split; [done |]. split; [done |].
  apply (for_range_inv
           (sample_rows hi_data sourcemap freq_band side_length s0 s1 s2 n_points))
    in Hloop.
  - destruct (draw_empties_sample _ _ _ _ _ _ _ _ _ _ _ _ Hwhile Hshape Hvol Hmarks
                Hs1 Hs2 Hs0 Hloop) as ((_ & _ & _ & Hrows) & Hfinal).
    intros r Hr. apply Hrows. lia.
  - destruct (Hrows0 (init seed) g) as (_ & _ & Himg & Hblank & _).
    unfold sample_rows. simpl. split; [lia |]. split; [done |]. split; [done |].
    intros r Hr. lia.
  - intros i t t' _ Ht Hd. eapply draw_source_sample; eauto. lia.
Qed.

Lemma create_data_set_samples_witness :
  ∃ d, demo_data_set [wide_source; narrow_source] 2 10 = Some d ∧
       ∃ sourcemap n_points,
         create_sourcemap
           ((fun s => @pixel (fun t => t) (ra s, dec s, central_freq s))
              <$> [wide_source; narrow_source])
           (cube_shape demo_cube) = Some sourcemap ∧
         dataset_arrays d n_points 2 4 ∧
         ∀ r, 0 <= r < n_points → sample_row demo_cube sourcemap 2 4 16 16 16 d r.
Proof.
  assert (returned (demo_data_set [wide_source; narrow_source] 2 10) = true) as Hr
    by (vm_compute; reflexivity).
  destruct (demo_data_set [wide_source; narrow_source] 2 10) as [d |] eqn:E;
    [| discriminate Hr].
  exists d. split; [reflexivity |].
  apply (@create_data_set_samples (numpy_generators origin_points) (fun t => t) 10
           [wide_source; narrow_source] demo_cube (1 # 2) 4 0 2 1 FreqDefault (Some 0)
           (MT19937.seed_state 1) d 16 16 16 E); [reflexivity | lia | lia | lia].
Defined.
